(** * CloseApp backend: the template generators of [main.py]

    A shallow embedding of the two generators of the service
    ([generate_close_response], [generate_outreach]) and of the two
    formatting helpers they share ([_apply_language], [_tone_prefix]),
    followed by the properties the specification states about them.

    A Python [str] is represented by a [string] holding its UTF-8
    encoding, so the templates are written as they appear in the source.
    The case methods of [str] work on the code points of the string, with
    the case tables of Unicode. *)

From Stdlib Require Import String Ascii List Bool Arith Lia.
Import ListNotations.

Open Scope list_scope.
Open Scope string_scope.
Open Scope nat_scope.

(** ** The case tables of Unicode

    The case mappings and the case properties of the code points, as the
    [str] methods of Python 3.11 have them (Unicode 14.0): a code point is
    written as the string of its UTF-8 bytes. *)

Module Unicode.

(** The Latin letters of the ASCII range: a capital letter and its small
    letter are 32 apart. *)
Definition lowercase_latin : list (string * string) :=
  map (fun c : ascii =>
         (String c EmptyString,
          String (ascii_of_nat (nat_of_ascii c + 32)) EmptyString))
      (list_ascii_of_string "ABCDEFGHIJKLMNOPQRSTUVWXYZ").

Definition uppercase_latin : list (string * string) :=
  map (fun entry : string * string => (snd entry, fst entry)) lowercase_latin.

Definition lowercase_1 : list (string * string) :=
  [ ("À", "à"); ("Á", "á"); ("Â", "â"); ("Ã", "ã"); ("Ä", "ä"); ("Å", "å");
    ("Æ", "æ"); ("Ç", "ç"); ("È", "è"); ("É", "é"); ("Ê", "ê"); ("Ë", "ë");
    ("Ì", "ì"); ("Í", "í"); ("Î", "î"); ("Ï", "ï"); ("Ð", "ð"); ("Ñ", "ñ");
    ("Ò", "ò"); ("Ó", "ó"); ("Ô", "ô"); ("Õ", "õ"); ("Ö", "ö"); ("Ø", "ø");
    ("Ù", "ù"); ("Ú", "ú"); ("Û", "û"); ("Ü", "ü"); ("Ý", "ý"); ("Þ", "þ");
    ("Ā", "ā"); ("Ă", "ă"); ("Ą", "ą"); ("Ć", "ć"); ("Ĉ", "ĉ"); ("Ċ", "ċ");
    ("Č", "č"); ("Ď", "ď"); ("Đ", "đ"); ("Ē", "ē"); ("Ĕ", "ĕ"); ("Ė", "ė");
    ("Ę", "ę"); ("Ě", "ě"); ("Ĝ", "ĝ"); ("Ğ", "ğ"); ("Ġ", "ġ"); ("Ģ", "ģ");
    ("Ĥ", "ĥ"); ("Ħ", "ħ"); ("Ĩ", "ĩ"); ("Ī", "ī"); ("Ĭ", "ĭ"); ("Į", "į");
    ("İ", "i̇"); ("Ĳ", "ĳ"); ("Ĵ", "ĵ"); ("Ķ", "ķ"); ("Ĺ", "ĺ"); ("Ļ", "ļ");
    ("Ľ", "ľ"); ("Ŀ", "ŀ"); ("Ł", "ł"); ("Ń", "ń"); ("Ņ", "ņ"); ("Ň", "ň");
    ("Ŋ", "ŋ"); ("Ō", "ō"); ("Ŏ", "ŏ"); ("Ő", "ő"); ("Œ", "œ"); ("Ŕ", "ŕ");
    ("Ŗ", "ŗ"); ("Ř", "ř"); ("Ś", "ś"); ("Ŝ", "ŝ"); ("Ş", "ş"); ("Š", "š");
    ("Ţ", "ţ"); ("Ť", "ť"); ("Ŧ", "ŧ"); ("Ũ", "ũ"); ("Ū", "ū"); ("Ŭ", "ŭ");
    ("Ů", "ů"); ("Ű", "ű"); ("Ų", "ų"); ("Ŵ", "ŵ"); ("Ŷ", "ŷ"); ("Ÿ", "ÿ");
    ("Ź", "ź"); ("Ż", "ż"); ("Ž", "ž"); ("Ɓ", "ɓ"); ("Ƃ", "ƃ"); ("Ƅ", "ƅ");
    ("Ɔ", "ɔ"); ("Ƈ", "ƈ"); ("Ɖ", "ɖ"); ("Ɗ", "ɗ"); ("Ƌ", "ƌ"); ("Ǝ", "ǝ");
    ("Ə", "ə"); ("Ɛ", "ɛ"); ("Ƒ", "ƒ"); ("Ɠ", "ɠ"); ("Ɣ", "ɣ"); ("Ɩ", "ɩ");
    ("Ɨ", "ɨ"); ("Ƙ", "ƙ"); ("Ɯ", "ɯ"); ("Ɲ", "ɲ"); ("Ɵ", "ɵ"); ("Ơ", "ơ");
    ("Ƣ", "ƣ"); ("Ƥ", "ƥ"); ("Ʀ", "ʀ"); ("Ƨ", "ƨ"); ("Ʃ", "ʃ"); ("Ƭ", "ƭ") ].

Definition lowercase_2 : list (string * string) :=
  [ ("Ʈ", "ʈ"); ("Ư", "ư"); ("Ʊ", "ʊ"); ("Ʋ", "ʋ"); ("Ƴ", "ƴ"); ("Ƶ", "ƶ");
    ("Ʒ", "ʒ"); ("Ƹ", "ƹ"); ("Ƽ", "ƽ"); ("Ǆ", "ǆ"); ("ǅ", "ǆ"); ("Ǉ", "ǉ");
    ("ǈ", "ǉ"); ("Ǌ", "ǌ"); ("ǋ", "ǌ"); ("Ǎ", "ǎ"); ("Ǐ", "ǐ"); ("Ǒ", "ǒ");
    ("Ǔ", "ǔ"); ("Ǖ", "ǖ"); ("Ǘ", "ǘ"); ("Ǚ", "ǚ"); ("Ǜ", "ǜ"); ("Ǟ", "ǟ");
    ("Ǡ", "ǡ"); ("Ǣ", "ǣ"); ("Ǥ", "ǥ"); ("Ǧ", "ǧ"); ("Ǩ", "ǩ"); ("Ǫ", "ǫ");
    ("Ǭ", "ǭ"); ("Ǯ", "ǯ"); ("Ǳ", "ǳ"); ("ǲ", "ǳ"); ("Ǵ", "ǵ"); ("Ƕ", "ƕ");
    ("Ƿ", "ƿ"); ("Ǹ", "ǹ"); ("Ǻ", "ǻ"); ("Ǽ", "ǽ"); ("Ǿ", "ǿ"); ("Ȁ", "ȁ");
    ("Ȃ", "ȃ"); ("Ȅ", "ȅ"); ("Ȇ", "ȇ"); ("Ȉ", "ȉ"); ("Ȋ", "ȋ"); ("Ȍ", "ȍ");
    ("Ȏ", "ȏ"); ("Ȑ", "ȑ"); ("Ȓ", "ȓ"); ("Ȕ", "ȕ"); ("Ȗ", "ȗ"); ("Ș", "ș");
    ("Ț", "ț"); ("Ȝ", "ȝ"); ("Ȟ", "ȟ"); ("Ƞ", "ƞ"); ("Ȣ", "ȣ"); ("Ȥ", "ȥ");
    ("Ȧ", "ȧ"); ("Ȩ", "ȩ"); ("Ȫ", "ȫ"); ("Ȭ", "ȭ"); ("Ȯ", "ȯ"); ("Ȱ", "ȱ");
    ("Ȳ", "ȳ"); ("Ⱥ", "ⱥ"); ("Ȼ", "ȼ"); ("Ƚ", "ƚ"); ("Ⱦ", "ⱦ"); ("Ɂ", "ɂ");
    ("Ƀ", "ƀ"); ("Ʉ", "ʉ"); ("Ʌ", "ʌ"); ("Ɇ", "ɇ"); ("Ɉ", "ɉ"); ("Ɋ", "ɋ");
    ("Ɍ", "ɍ"); ("Ɏ", "ɏ"); ("Ͱ", "ͱ"); ("Ͳ", "ͳ"); ("Ͷ", "ͷ"); ("Ϳ", "ϳ");
    ("Ά", "ά"); ("Έ", "έ"); ("Ή", "ή"); ("Ί", "ί"); ("Ό", "ό"); ("Ύ", "ύ");
    ("Ώ", "ώ"); ("Α", "α"); ("Β", "β"); ("Γ", "γ"); ("Δ", "δ"); ("Ε", "ε");
    ("Ζ", "ζ"); ("Η", "η"); ("Θ", "θ"); ("Ι", "ι"); ("Κ", "κ"); ("Λ", "λ");
    ("Μ", "μ"); ("Ν", "ν"); ("Ξ", "ξ"); ("Ο", "ο"); ("Π", "π"); ("Ρ", "ρ");
    ("Σ", "σ"); ("Τ", "τ"); ("Υ", "υ"); ("Φ", "φ"); ("Χ", "χ"); ("Ψ", "ψ");
    ("Ω", "ω"); ("Ϊ", "ϊ"); ("Ϋ", "ϋ"); ("Ϗ", "ϗ"); ("Ϙ", "ϙ"); ("Ϛ", "ϛ") ].

Definition lowercase_3 : list (string * string) :=
  [ ("Ϝ", "ϝ"); ("Ϟ", "ϟ"); ("Ϡ", "ϡ"); ("Ϣ", "ϣ"); ("Ϥ", "ϥ"); ("Ϧ", "ϧ");
    ("Ϩ", "ϩ"); ("Ϫ", "ϫ"); ("Ϭ", "ϭ"); ("Ϯ", "ϯ"); ("ϴ", "θ"); ("Ϸ", "ϸ");
    ("Ϲ", "ϲ"); ("Ϻ", "ϻ"); ("Ͻ", "ͻ"); ("Ͼ", "ͼ"); ("Ͽ", "ͽ"); ("Ѐ", "ѐ");
    ("Ё", "ё"); ("Ђ", "ђ"); ("Ѓ", "ѓ"); ("Є", "є"); ("Ѕ", "ѕ"); ("І", "і");
    ("Ї", "ї"); ("Ј", "ј"); ("Љ", "љ"); ("Њ", "њ"); ("Ћ", "ћ"); ("Ќ", "ќ");
    ("Ѝ", "ѝ"); ("Ў", "ў"); ("Џ", "џ"); ("А", "а"); ("Б", "б"); ("В", "в");
    ("Г", "г"); ("Д", "д"); ("Е", "е"); ("Ж", "ж"); ("З", "з"); ("И", "и");
    ("Й", "й"); ("К", "к"); ("Л", "л"); ("М", "м"); ("Н", "н"); ("О", "о");
    ("П", "п"); ("Р", "р"); ("С", "с"); ("Т", "т"); ("У", "у"); ("Ф", "ф");
    ("Х", "х"); ("Ц", "ц"); ("Ч", "ч"); ("Ш", "ш"); ("Щ", "щ"); ("Ъ", "ъ");
    ("Ы", "ы"); ("Ь", "ь"); ("Э", "э"); ("Ю", "ю"); ("Я", "я"); ("Ѡ", "ѡ");
    ("Ѣ", "ѣ"); ("Ѥ", "ѥ"); ("Ѧ", "ѧ"); ("Ѩ", "ѩ"); ("Ѫ", "ѫ"); ("Ѭ", "ѭ");
    ("Ѯ", "ѯ"); ("Ѱ", "ѱ"); ("Ѳ", "ѳ"); ("Ѵ", "ѵ"); ("Ѷ", "ѷ"); ("Ѹ", "ѹ");
    ("Ѻ", "ѻ"); ("Ѽ", "ѽ"); ("Ѿ", "ѿ"); ("Ҁ", "ҁ"); ("Ҋ", "ҋ"); ("Ҍ", "ҍ");
    ("Ҏ", "ҏ"); ("Ґ", "ґ"); ("Ғ", "ғ"); ("Ҕ", "ҕ"); ("Җ", "җ"); ("Ҙ", "ҙ");
    ("Қ", "қ"); ("Ҝ", "ҝ"); ("Ҟ", "ҟ"); ("Ҡ", "ҡ"); ("Ң", "ң"); ("Ҥ", "ҥ");
    ("Ҧ", "ҧ"); ("Ҩ", "ҩ"); ("Ҫ", "ҫ"); ("Ҭ", "ҭ"); ("Ү", "ү"); ("Ұ", "ұ");
    ("Ҳ", "ҳ"); ("Ҵ", "ҵ"); ("Ҷ", "ҷ"); ("Ҹ", "ҹ"); ("Һ", "һ"); ("Ҽ", "ҽ");
    ("Ҿ", "ҿ"); ("Ӏ", "ӏ"); ("Ӂ", "ӂ"); ("Ӄ", "ӄ"); ("Ӆ", "ӆ"); ("Ӈ", "ӈ");
    ("Ӊ", "ӊ"); ("Ӌ", "ӌ"); ("Ӎ", "ӎ"); ("Ӑ", "ӑ"); ("Ӓ", "ӓ"); ("Ӕ", "ӕ") ].

Definition lowercase_4 : list (string * string) :=
  [ ("Ӗ", "ӗ"); ("Ә", "ә"); ("Ӛ", "ӛ"); ("Ӝ", "ӝ"); ("Ӟ", "ӟ"); ("Ӡ", "ӡ");
    ("Ӣ", "ӣ"); ("Ӥ", "ӥ"); ("Ӧ", "ӧ"); ("Ө", "ө"); ("Ӫ", "ӫ"); ("Ӭ", "ӭ");
    ("Ӯ", "ӯ"); ("Ӱ", "ӱ"); ("Ӳ", "ӳ"); ("Ӵ", "ӵ"); ("Ӷ", "ӷ"); ("Ӹ", "ӹ");
    ("Ӻ", "ӻ"); ("Ӽ", "ӽ"); ("Ӿ", "ӿ"); ("Ԁ", "ԁ"); ("Ԃ", "ԃ"); ("Ԅ", "ԅ");
    ("Ԇ", "ԇ"); ("Ԉ", "ԉ"); ("Ԋ", "ԋ"); ("Ԍ", "ԍ"); ("Ԏ", "ԏ"); ("Ԑ", "ԑ");
    ("Ԓ", "ԓ"); ("Ԕ", "ԕ"); ("Ԗ", "ԗ"); ("Ԙ", "ԙ"); ("Ԛ", "ԛ"); ("Ԝ", "ԝ");
    ("Ԟ", "ԟ"); ("Ԡ", "ԡ"); ("Ԣ", "ԣ"); ("Ԥ", "ԥ"); ("Ԧ", "ԧ"); ("Ԩ", "ԩ");
    ("Ԫ", "ԫ"); ("Ԭ", "ԭ"); ("Ԯ", "ԯ"); ("Ա", "ա"); ("Բ", "բ"); ("Գ", "գ");
    ("Դ", "դ"); ("Ե", "ե"); ("Զ", "զ"); ("Է", "է"); ("Ը", "ը"); ("Թ", "թ");
    ("Ժ", "ժ"); ("Ի", "ի"); ("Լ", "լ"); ("Խ", "խ"); ("Ծ", "ծ"); ("Կ", "կ");
    ("Հ", "հ"); ("Ձ", "ձ"); ("Ղ", "ղ"); ("Ճ", "ճ"); ("Մ", "մ"); ("Յ", "յ");
    ("Ն", "ն"); ("Շ", "շ"); ("Ո", "ո"); ("Չ", "չ"); ("Պ", "պ"); ("Ջ", "ջ");
    ("Ռ", "ռ"); ("Ս", "ս"); ("Վ", "վ"); ("Տ", "տ"); ("Ր", "ր"); ("Ց", "ց");
    ("Ւ", "ւ"); ("Փ", "փ"); ("Ք", "ք"); ("Օ", "օ"); ("Ֆ", "ֆ"); ("Ⴀ", "ⴀ");
    ("Ⴁ", "ⴁ"); ("Ⴂ", "ⴂ"); ("Ⴃ", "ⴃ"); ("Ⴄ", "ⴄ"); ("Ⴅ", "ⴅ"); ("Ⴆ", "ⴆ");
    ("Ⴇ", "ⴇ"); ("Ⴈ", "ⴈ"); ("Ⴉ", "ⴉ"); ("Ⴊ", "ⴊ"); ("Ⴋ", "ⴋ"); ("Ⴌ", "ⴌ");
    ("Ⴍ", "ⴍ"); ("Ⴎ", "ⴎ"); ("Ⴏ", "ⴏ"); ("Ⴐ", "ⴐ"); ("Ⴑ", "ⴑ"); ("Ⴒ", "ⴒ");
    ("Ⴓ", "ⴓ"); ("Ⴔ", "ⴔ"); ("Ⴕ", "ⴕ"); ("Ⴖ", "ⴖ"); ("Ⴗ", "ⴗ"); ("Ⴘ", "ⴘ");
    ("Ⴙ", "ⴙ"); ("Ⴚ", "ⴚ"); ("Ⴛ", "ⴛ"); ("Ⴜ", "ⴜ"); ("Ⴝ", "ⴝ"); ("Ⴞ", "ⴞ");
    ("Ⴟ", "ⴟ"); ("Ⴠ", "ⴠ"); ("Ⴡ", "ⴡ"); ("Ⴢ", "ⴢ"); ("Ⴣ", "ⴣ"); ("Ⴤ", "ⴤ") ].

Definition lowercase_5 : list (string * string) :=
  [ ("Ⴥ", "ⴥ"); ("Ⴧ", "ⴧ"); ("Ⴭ", "ⴭ"); ("Ꭰ", "ꭰ"); ("Ꭱ", "ꭱ"); ("Ꭲ", "ꭲ");
    ("Ꭳ", "ꭳ"); ("Ꭴ", "ꭴ"); ("Ꭵ", "ꭵ"); ("Ꭶ", "ꭶ"); ("Ꭷ", "ꭷ"); ("Ꭸ", "ꭸ");
    ("Ꭹ", "ꭹ"); ("Ꭺ", "ꭺ"); ("Ꭻ", "ꭻ"); ("Ꭼ", "ꭼ"); ("Ꭽ", "ꭽ"); ("Ꭾ", "ꭾ");
    ("Ꭿ", "ꭿ"); ("Ꮀ", "ꮀ"); ("Ꮁ", "ꮁ"); ("Ꮂ", "ꮂ"); ("Ꮃ", "ꮃ"); ("Ꮄ", "ꮄ");
    ("Ꮅ", "ꮅ"); ("Ꮆ", "ꮆ"); ("Ꮇ", "ꮇ"); ("Ꮈ", "ꮈ"); ("Ꮉ", "ꮉ"); ("Ꮊ", "ꮊ");
    ("Ꮋ", "ꮋ"); ("Ꮌ", "ꮌ"); ("Ꮍ", "ꮍ"); ("Ꮎ", "ꮎ"); ("Ꮏ", "ꮏ"); ("Ꮐ", "ꮐ");
    ("Ꮑ", "ꮑ"); ("Ꮒ", "ꮒ"); ("Ꮓ", "ꮓ"); ("Ꮔ", "ꮔ"); ("Ꮕ", "ꮕ"); ("Ꮖ", "ꮖ");
    ("Ꮗ", "ꮗ"); ("Ꮘ", "ꮘ"); ("Ꮙ", "ꮙ"); ("Ꮚ", "ꮚ"); ("Ꮛ", "ꮛ"); ("Ꮜ", "ꮜ");
    ("Ꮝ", "ꮝ"); ("Ꮞ", "ꮞ"); ("Ꮟ", "ꮟ"); ("Ꮠ", "ꮠ"); ("Ꮡ", "ꮡ"); ("Ꮢ", "ꮢ");
    ("Ꮣ", "ꮣ"); ("Ꮤ", "ꮤ"); ("Ꮥ", "ꮥ"); ("Ꮦ", "ꮦ"); ("Ꮧ", "ꮧ"); ("Ꮨ", "ꮨ");
    ("Ꮩ", "ꮩ"); ("Ꮪ", "ꮪ"); ("Ꮫ", "ꮫ"); ("Ꮬ", "ꮬ"); ("Ꮭ", "ꮭ"); ("Ꮮ", "ꮮ");
    ("Ꮯ", "ꮯ"); ("Ꮰ", "ꮰ"); ("Ꮱ", "ꮱ"); ("Ꮲ", "ꮲ"); ("Ꮳ", "ꮳ"); ("Ꮴ", "ꮴ");
    ("Ꮵ", "ꮵ"); ("Ꮶ", "ꮶ"); ("Ꮷ", "ꮷ"); ("Ꮸ", "ꮸ"); ("Ꮹ", "ꮹ"); ("Ꮺ", "ꮺ");
    ("Ꮻ", "ꮻ"); ("Ꮼ", "ꮼ"); ("Ꮽ", "ꮽ"); ("Ꮾ", "ꮾ"); ("Ꮿ", "ꮿ"); ("Ᏸ", "ᏸ");
    ("Ᏹ", "ᏹ"); ("Ᏺ", "ᏺ"); ("Ᏻ", "ᏻ"); ("Ᏼ", "ᏼ"); ("Ᏽ", "ᏽ"); ("Ა", "ა");
    ("Ბ", "ბ"); ("Გ", "გ"); ("Დ", "დ"); ("Ე", "ე"); ("Ვ", "ვ"); ("Ზ", "ზ");
    ("Თ", "თ"); ("Ი", "ი"); ("Კ", "კ"); ("Ლ", "ლ"); ("Მ", "მ"); ("Ნ", "ნ");
    ("Ო", "ო"); ("Პ", "პ"); ("Ჟ", "ჟ"); ("Რ", "რ"); ("Ს", "ს"); ("Ტ", "ტ");
    ("Უ", "უ"); ("Ფ", "ფ"); ("Ქ", "ქ"); ("Ღ", "ღ"); ("Ყ", "ყ"); ("Შ", "შ");
    ("Ჩ", "ჩ"); ("Ც", "ც"); ("Ძ", "ძ"); ("Წ", "წ"); ("Ჭ", "ჭ"); ("Ხ", "ხ") ].

Definition lowercase_6 : list (string * string) :=
  [ ("Ჯ", "ჯ"); ("Ჰ", "ჰ"); ("Ჱ", "ჱ"); ("Ჲ", "ჲ"); ("Ჳ", "ჳ"); ("Ჴ", "ჴ");
    ("Ჵ", "ჵ"); ("Ჶ", "ჶ"); ("Ჷ", "ჷ"); ("Ჸ", "ჸ"); ("Ჹ", "ჹ"); ("Ჺ", "ჺ");
    ("Ჽ", "ჽ"); ("Ჾ", "ჾ"); ("Ჿ", "ჿ"); ("Ḁ", "ḁ"); ("Ḃ", "ḃ"); ("Ḅ", "ḅ");
    ("Ḇ", "ḇ"); ("Ḉ", "ḉ"); ("Ḋ", "ḋ"); ("Ḍ", "ḍ"); ("Ḏ", "ḏ"); ("Ḑ", "ḑ");
    ("Ḓ", "ḓ"); ("Ḕ", "ḕ"); ("Ḗ", "ḗ"); ("Ḙ", "ḙ"); ("Ḛ", "ḛ"); ("Ḝ", "ḝ");
    ("Ḟ", "ḟ"); ("Ḡ", "ḡ"); ("Ḣ", "ḣ"); ("Ḥ", "ḥ"); ("Ḧ", "ḧ"); ("Ḩ", "ḩ");
    ("Ḫ", "ḫ"); ("Ḭ", "ḭ"); ("Ḯ", "ḯ"); ("Ḱ", "ḱ"); ("Ḳ", "ḳ"); ("Ḵ", "ḵ");
    ("Ḷ", "ḷ"); ("Ḹ", "ḹ"); ("Ḻ", "ḻ"); ("Ḽ", "ḽ"); ("Ḿ", "ḿ"); ("Ṁ", "ṁ");
    ("Ṃ", "ṃ"); ("Ṅ", "ṅ"); ("Ṇ", "ṇ"); ("Ṉ", "ṉ"); ("Ṋ", "ṋ"); ("Ṍ", "ṍ");
    ("Ṏ", "ṏ"); ("Ṑ", "ṑ"); ("Ṓ", "ṓ"); ("Ṕ", "ṕ"); ("Ṗ", "ṗ"); ("Ṙ", "ṙ");
    ("Ṛ", "ṛ"); ("Ṝ", "ṝ"); ("Ṟ", "ṟ"); ("Ṡ", "ṡ"); ("Ṣ", "ṣ"); ("Ṥ", "ṥ");
    ("Ṧ", "ṧ"); ("Ṩ", "ṩ"); ("Ṫ", "ṫ"); ("Ṭ", "ṭ"); ("Ṯ", "ṯ"); ("Ṱ", "ṱ");
    ("Ṳ", "ṳ"); ("Ṵ", "ṵ"); ("Ṷ", "ṷ"); ("Ṹ", "ṹ"); ("Ṻ", "ṻ"); ("Ṽ", "ṽ");
    ("Ṿ", "ṿ"); ("Ẁ", "ẁ"); ("Ẃ", "ẃ"); ("Ẅ", "ẅ"); ("Ẇ", "ẇ"); ("Ẉ", "ẉ");
    ("Ẋ", "ẋ"); ("Ẍ", "ẍ"); ("Ẏ", "ẏ"); ("Ẑ", "ẑ"); ("Ẓ", "ẓ"); ("Ẕ", "ẕ");
    ("ẞ", "ß"); ("Ạ", "ạ"); ("Ả", "ả"); ("Ấ", "ấ"); ("Ầ", "ầ"); ("Ẩ", "ẩ");
    ("Ẫ", "ẫ"); ("Ậ", "ậ"); ("Ắ", "ắ"); ("Ằ", "ằ"); ("Ẳ", "ẳ"); ("Ẵ", "ẵ");
    ("Ặ", "ặ"); ("Ẹ", "ẹ"); ("Ẻ", "ẻ"); ("Ẽ", "ẽ"); ("Ế", "ế"); ("Ề", "ề");
    ("Ể", "ể"); ("Ễ", "ễ"); ("Ệ", "ệ"); ("Ỉ", "ỉ"); ("Ị", "ị"); ("Ọ", "ọ");
    ("Ỏ", "ỏ"); ("Ố", "ố"); ("Ồ", "ồ"); ("Ổ", "ổ"); ("Ỗ", "ỗ"); ("Ộ", "ộ") ].

Definition lowercase_7 : list (string * string) :=
  [ ("Ớ", "ớ"); ("Ờ", "ờ"); ("Ở", "ở"); ("Ỡ", "ỡ"); ("Ợ", "ợ"); ("Ụ", "ụ");
    ("Ủ", "ủ"); ("Ứ", "ứ"); ("Ừ", "ừ"); ("Ử", "ử"); ("Ữ", "ữ"); ("Ự", "ự");
    ("Ỳ", "ỳ"); ("Ỵ", "ỵ"); ("Ỷ", "ỷ"); ("Ỹ", "ỹ"); ("Ỻ", "ỻ"); ("Ỽ", "ỽ");
    ("Ỿ", "ỿ"); ("Ἀ", "ἀ"); ("Ἁ", "ἁ"); ("Ἂ", "ἂ"); ("Ἃ", "ἃ"); ("Ἄ", "ἄ");
    ("Ἅ", "ἅ"); ("Ἆ", "ἆ"); ("Ἇ", "ἇ"); ("Ἐ", "ἐ"); ("Ἑ", "ἑ"); ("Ἒ", "ἒ");
    ("Ἓ", "ἓ"); ("Ἔ", "ἔ"); ("Ἕ", "ἕ"); ("Ἠ", "ἠ"); ("Ἡ", "ἡ"); ("Ἢ", "ἢ");
    ("Ἣ", "ἣ"); ("Ἤ", "ἤ"); ("Ἥ", "ἥ"); ("Ἦ", "ἦ"); ("Ἧ", "ἧ"); ("Ἰ", "ἰ");
    ("Ἱ", "ἱ"); ("Ἲ", "ἲ"); ("Ἳ", "ἳ"); ("Ἴ", "ἴ"); ("Ἵ", "ἵ"); ("Ἶ", "ἶ");
    ("Ἷ", "ἷ"); ("Ὀ", "ὀ"); ("Ὁ", "ὁ"); ("Ὂ", "ὂ"); ("Ὃ", "ὃ"); ("Ὄ", "ὄ");
    ("Ὅ", "ὅ"); ("Ὑ", "ὑ"); ("Ὓ", "ὓ"); ("Ὕ", "ὕ"); ("Ὗ", "ὗ"); ("Ὠ", "ὠ");
    ("Ὡ", "ὡ"); ("Ὢ", "ὢ"); ("Ὣ", "ὣ"); ("Ὤ", "ὤ"); ("Ὥ", "ὥ"); ("Ὦ", "ὦ");
    ("Ὧ", "ὧ"); ("ᾈ", "ᾀ"); ("ᾉ", "ᾁ"); ("ᾊ", "ᾂ"); ("ᾋ", "ᾃ"); ("ᾌ", "ᾄ");
    ("ᾍ", "ᾅ"); ("ᾎ", "ᾆ"); ("ᾏ", "ᾇ"); ("ᾘ", "ᾐ"); ("ᾙ", "ᾑ"); ("ᾚ", "ᾒ");
    ("ᾛ", "ᾓ"); ("ᾜ", "ᾔ"); ("ᾝ", "ᾕ"); ("ᾞ", "ᾖ"); ("ᾟ", "ᾗ"); ("ᾨ", "ᾠ");
    ("ᾩ", "ᾡ"); ("ᾪ", "ᾢ"); ("ᾫ", "ᾣ"); ("ᾬ", "ᾤ"); ("ᾭ", "ᾥ"); ("ᾮ", "ᾦ");
    ("ᾯ", "ᾧ"); ("Ᾰ", "ᾰ"); ("Ᾱ", "ᾱ"); ("Ὰ", "ὰ"); ("Ά", "ά"); ("ᾼ", "ᾳ");
    ("Ὲ", "ὲ"); ("Έ", "έ"); ("Ὴ", "ὴ"); ("Ή", "ή"); ("ῌ", "ῃ"); ("Ῐ", "ῐ");
    ("Ῑ", "ῑ"); ("Ὶ", "ὶ"); ("Ί", "ί"); ("Ῠ", "ῠ"); ("Ῡ", "ῡ"); ("Ὺ", "ὺ");
    ("Ύ", "ύ"); ("Ῥ", "ῥ"); ("Ὸ", "ὸ"); ("Ό", "ό"); ("Ὼ", "ὼ"); ("Ώ", "ώ");
    ("ῼ", "ῳ"); ("Ω", "ω"); ("K", "k"); ("Å", "å"); ("Ⅎ", "ⅎ"); ("Ⅰ", "ⅰ") ].

Definition lowercase_8 : list (string * string) :=
  [ ("Ⅱ", "ⅱ"); ("Ⅲ", "ⅲ"); ("Ⅳ", "ⅳ"); ("Ⅴ", "ⅴ"); ("Ⅵ", "ⅵ"); ("Ⅶ", "ⅶ");
    ("Ⅷ", "ⅷ"); ("Ⅸ", "ⅸ"); ("Ⅹ", "ⅹ"); ("Ⅺ", "ⅺ"); ("Ⅻ", "ⅻ"); ("Ⅼ", "ⅼ");
    ("Ⅽ", "ⅽ"); ("Ⅾ", "ⅾ"); ("Ⅿ", "ⅿ"); ("Ↄ", "ↄ"); ("Ⓐ", "ⓐ"); ("Ⓑ", "ⓑ");
    ("Ⓒ", "ⓒ"); ("Ⓓ", "ⓓ"); ("Ⓔ", "ⓔ"); ("Ⓕ", "ⓕ"); ("Ⓖ", "ⓖ"); ("Ⓗ", "ⓗ");
    ("Ⓘ", "ⓘ"); ("Ⓙ", "ⓙ"); ("Ⓚ", "ⓚ"); ("Ⓛ", "ⓛ"); ("Ⓜ", "ⓜ"); ("Ⓝ", "ⓝ");
    ("Ⓞ", "ⓞ"); ("Ⓟ", "ⓟ"); ("Ⓠ", "ⓠ"); ("Ⓡ", "ⓡ"); ("Ⓢ", "ⓢ"); ("Ⓣ", "ⓣ");
    ("Ⓤ", "ⓤ"); ("Ⓥ", "ⓥ"); ("Ⓦ", "ⓦ"); ("Ⓧ", "ⓧ"); ("Ⓨ", "ⓨ"); ("Ⓩ", "ⓩ");
    ("Ⰰ", "ⰰ"); ("Ⰱ", "ⰱ"); ("Ⰲ", "ⰲ"); ("Ⰳ", "ⰳ"); ("Ⰴ", "ⰴ"); ("Ⰵ", "ⰵ");
    ("Ⰶ", "ⰶ"); ("Ⰷ", "ⰷ"); ("Ⰸ", "ⰸ"); ("Ⰹ", "ⰹ"); ("Ⰺ", "ⰺ"); ("Ⰻ", "ⰻ");
    ("Ⰼ", "ⰼ"); ("Ⰽ", "ⰽ"); ("Ⰾ", "ⰾ"); ("Ⰿ", "ⰿ"); ("Ⱀ", "ⱀ"); ("Ⱁ", "ⱁ");
    ("Ⱂ", "ⱂ"); ("Ⱃ", "ⱃ"); ("Ⱄ", "ⱄ"); ("Ⱅ", "ⱅ"); ("Ⱆ", "ⱆ"); ("Ⱇ", "ⱇ");
    ("Ⱈ", "ⱈ"); ("Ⱉ", "ⱉ"); ("Ⱊ", "ⱊ"); ("Ⱋ", "ⱋ"); ("Ⱌ", "ⱌ"); ("Ⱍ", "ⱍ");
    ("Ⱎ", "ⱎ"); ("Ⱏ", "ⱏ"); ("Ⱐ", "ⱐ"); ("Ⱑ", "ⱑ"); ("Ⱒ", "ⱒ"); ("Ⱓ", "ⱓ");
    ("Ⱔ", "ⱔ"); ("Ⱕ", "ⱕ"); ("Ⱖ", "ⱖ"); ("Ⱗ", "ⱗ"); ("Ⱘ", "ⱘ"); ("Ⱙ", "ⱙ");
    ("Ⱚ", "ⱚ"); ("Ⱛ", "ⱛ"); ("Ⱜ", "ⱜ"); ("Ⱝ", "ⱝ"); ("Ⱞ", "ⱞ"); ("Ⱟ", "ⱟ");
    ("Ⱡ", "ⱡ"); ("Ɫ", "ɫ"); ("Ᵽ", "ᵽ"); ("Ɽ", "ɽ"); ("Ⱨ", "ⱨ"); ("Ⱪ", "ⱪ");
    ("Ⱬ", "ⱬ"); ("Ɑ", "ɑ"); ("Ɱ", "ɱ"); ("Ɐ", "ɐ"); ("Ɒ", "ɒ"); ("Ⱳ", "ⱳ");
    ("Ⱶ", "ⱶ"); ("Ȿ", "ȿ"); ("Ɀ", "ɀ"); ("Ⲁ", "ⲁ"); ("Ⲃ", "ⲃ"); ("Ⲅ", "ⲅ");
    ("Ⲇ", "ⲇ"); ("Ⲉ", "ⲉ"); ("Ⲋ", "ⲋ"); ("Ⲍ", "ⲍ"); ("Ⲏ", "ⲏ"); ("Ⲑ", "ⲑ");
    ("Ⲓ", "ⲓ"); ("Ⲕ", "ⲕ"); ("Ⲗ", "ⲗ"); ("Ⲙ", "ⲙ"); ("Ⲛ", "ⲛ"); ("Ⲝ", "ⲝ") ].

Definition lowercase_9 : list (string * string) :=
  [ ("Ⲟ", "ⲟ"); ("Ⲡ", "ⲡ"); ("Ⲣ", "ⲣ"); ("Ⲥ", "ⲥ"); ("Ⲧ", "ⲧ"); ("Ⲩ", "ⲩ");
    ("Ⲫ", "ⲫ"); ("Ⲭ", "ⲭ"); ("Ⲯ", "ⲯ"); ("Ⲱ", "ⲱ"); ("Ⲳ", "ⲳ"); ("Ⲵ", "ⲵ");
    ("Ⲷ", "ⲷ"); ("Ⲹ", "ⲹ"); ("Ⲻ", "ⲻ"); ("Ⲽ", "ⲽ"); ("Ⲿ", "ⲿ"); ("Ⳁ", "ⳁ");
    ("Ⳃ", "ⳃ"); ("Ⳅ", "ⳅ"); ("Ⳇ", "ⳇ"); ("Ⳉ", "ⳉ"); ("Ⳋ", "ⳋ"); ("Ⳍ", "ⳍ");
    ("Ⳏ", "ⳏ"); ("Ⳑ", "ⳑ"); ("Ⳓ", "ⳓ"); ("Ⳕ", "ⳕ"); ("Ⳗ", "ⳗ"); ("Ⳙ", "ⳙ");
    ("Ⳛ", "ⳛ"); ("Ⳝ", "ⳝ"); ("Ⳟ", "ⳟ"); ("Ⳡ", "ⳡ"); ("Ⳣ", "ⳣ"); ("Ⳬ", "ⳬ");
    ("Ⳮ", "ⳮ"); ("Ⳳ", "ⳳ"); ("Ꙁ", "ꙁ"); ("Ꙃ", "ꙃ"); ("Ꙅ", "ꙅ"); ("Ꙇ", "ꙇ");
    ("Ꙉ", "ꙉ"); ("Ꙋ", "ꙋ"); ("Ꙍ", "ꙍ"); ("Ꙏ", "ꙏ"); ("Ꙑ", "ꙑ"); ("Ꙓ", "ꙓ");
    ("Ꙕ", "ꙕ"); ("Ꙗ", "ꙗ"); ("Ꙙ", "ꙙ"); ("Ꙛ", "ꙛ"); ("Ꙝ", "ꙝ"); ("Ꙟ", "ꙟ");
    ("Ꙡ", "ꙡ"); ("Ꙣ", "ꙣ"); ("Ꙥ", "ꙥ"); ("Ꙧ", "ꙧ"); ("Ꙩ", "ꙩ"); ("Ꙫ", "ꙫ");
    ("Ꙭ", "ꙭ"); ("Ꚁ", "ꚁ"); ("Ꚃ", "ꚃ"); ("Ꚅ", "ꚅ"); ("Ꚇ", "ꚇ"); ("Ꚉ", "ꚉ");
    ("Ꚋ", "ꚋ"); ("Ꚍ", "ꚍ"); ("Ꚏ", "ꚏ"); ("Ꚑ", "ꚑ"); ("Ꚓ", "ꚓ"); ("Ꚕ", "ꚕ");
    ("Ꚗ", "ꚗ"); ("Ꚙ", "ꚙ"); ("Ꚛ", "ꚛ"); ("Ꜣ", "ꜣ"); ("Ꜥ", "ꜥ"); ("Ꜧ", "ꜧ");
    ("Ꜩ", "ꜩ"); ("Ꜫ", "ꜫ"); ("Ꜭ", "ꜭ"); ("Ꜯ", "ꜯ"); ("Ꜳ", "ꜳ"); ("Ꜵ", "ꜵ");
    ("Ꜷ", "ꜷ"); ("Ꜹ", "ꜹ"); ("Ꜻ", "ꜻ"); ("Ꜽ", "ꜽ"); ("Ꜿ", "ꜿ"); ("Ꝁ", "ꝁ");
    ("Ꝃ", "ꝃ"); ("Ꝅ", "ꝅ"); ("Ꝇ", "ꝇ"); ("Ꝉ", "ꝉ"); ("Ꝋ", "ꝋ"); ("Ꝍ", "ꝍ");
    ("Ꝏ", "ꝏ"); ("Ꝑ", "ꝑ"); ("Ꝓ", "ꝓ"); ("Ꝕ", "ꝕ"); ("Ꝗ", "ꝗ"); ("Ꝙ", "ꝙ");
    ("Ꝛ", "ꝛ"); ("Ꝝ", "ꝝ"); ("Ꝟ", "ꝟ"); ("Ꝡ", "ꝡ"); ("Ꝣ", "ꝣ"); ("Ꝥ", "ꝥ");
    ("Ꝧ", "ꝧ"); ("Ꝩ", "ꝩ"); ("Ꝫ", "ꝫ"); ("Ꝭ", "ꝭ"); ("Ꝯ", "ꝯ"); ("Ꝺ", "ꝺ");
    ("Ꝼ", "ꝼ"); ("Ᵹ", "ᵹ"); ("Ꝿ", "ꝿ"); ("Ꞁ", "ꞁ"); ("Ꞃ", "ꞃ"); ("Ꞅ", "ꞅ") ].

Definition lowercase_10 : list (string * string) :=
  [ ("Ꞇ", "ꞇ"); ("Ꞌ", "ꞌ"); ("Ɥ", "ɥ"); ("Ꞑ", "ꞑ"); ("Ꞓ", "ꞓ"); ("Ꞗ", "ꞗ");
    ("Ꞙ", "ꞙ"); ("Ꞛ", "ꞛ"); ("Ꞝ", "ꞝ"); ("Ꞟ", "ꞟ"); ("Ꞡ", "ꞡ"); ("Ꞣ", "ꞣ");
    ("Ꞥ", "ꞥ"); ("Ꞧ", "ꞧ"); ("Ꞩ", "ꞩ"); ("Ɦ", "ɦ"); ("Ɜ", "ɜ"); ("Ɡ", "ɡ");
    ("Ɬ", "ɬ"); ("Ɪ", "ɪ"); ("Ʞ", "ʞ"); ("Ʇ", "ʇ"); ("Ʝ", "ʝ"); ("Ꭓ", "ꭓ");
    ("Ꞵ", "ꞵ"); ("Ꞷ", "ꞷ"); ("Ꞹ", "ꞹ"); ("Ꞻ", "ꞻ"); ("Ꞽ", "ꞽ"); ("Ꞿ", "ꞿ");
    ("Ꟁ", "ꟁ"); ("Ꟃ", "ꟃ"); ("Ꞔ", "ꞔ"); ("Ʂ", "ʂ"); ("Ᶎ", "ᶎ"); ("Ꟈ", "ꟈ");
    ("Ꟊ", "ꟊ"); ("Ꟑ", "ꟑ"); ("Ꟗ", "ꟗ"); ("Ꟙ", "ꟙ"); ("Ꟶ", "ꟶ"); ("Ａ", "ａ");
    ("Ｂ", "ｂ"); ("Ｃ", "ｃ"); ("Ｄ", "ｄ"); ("Ｅ", "ｅ"); ("Ｆ", "ｆ"); ("Ｇ", "ｇ");
    ("Ｈ", "ｈ"); ("Ｉ", "ｉ"); ("Ｊ", "ｊ"); ("Ｋ", "ｋ"); ("Ｌ", "ｌ"); ("Ｍ", "ｍ");
    ("Ｎ", "ｎ"); ("Ｏ", "ｏ"); ("Ｐ", "ｐ"); ("Ｑ", "ｑ"); ("Ｒ", "ｒ"); ("Ｓ", "ｓ");
    ("Ｔ", "ｔ"); ("Ｕ", "ｕ"); ("Ｖ", "ｖ"); ("Ｗ", "ｗ"); ("Ｘ", "ｘ"); ("Ｙ", "ｙ");
    ("Ｚ", "ｚ"); ("𐐀", "𐐨"); ("𐐁", "𐐩"); ("𐐂", "𐐪"); ("𐐃", "𐐫"); ("𐐄", "𐐬");
    ("𐐅", "𐐭"); ("𐐆", "𐐮"); ("𐐇", "𐐯"); ("𐐈", "𐐰"); ("𐐉", "𐐱"); ("𐐊", "𐐲");
    ("𐐋", "𐐳"); ("𐐌", "𐐴"); ("𐐍", "𐐵"); ("𐐎", "𐐶"); ("𐐏", "𐐷"); ("𐐐", "𐐸");
    ("𐐑", "𐐹"); ("𐐒", "𐐺"); ("𐐓", "𐐻"); ("𐐔", "𐐼"); ("𐐕", "𐐽"); ("𐐖", "𐐾");
    ("𐐗", "𐐿"); ("𐐘", "𐑀"); ("𐐙", "𐑁"); ("𐐚", "𐑂"); ("𐐛", "𐑃"); ("𐐜", "𐑄");
    ("𐐝", "𐑅"); ("𐐞", "𐑆"); ("𐐟", "𐑇"); ("𐐠", "𐑈"); ("𐐡", "𐑉"); ("𐐢", "𐑊");
    ("𐐣", "𐑋"); ("𐐤", "𐑌"); ("𐐥", "𐑍"); ("𐐦", "𐑎"); ("𐐧", "𐑏"); ("𐒰", "𐓘");
    ("𐒱", "𐓙"); ("𐒲", "𐓚"); ("𐒳", "𐓛"); ("𐒴", "𐓜"); ("𐒵", "𐓝"); ("𐒶", "𐓞");
    ("𐒷", "𐓟"); ("𐒸", "𐓠"); ("𐒹", "𐓡"); ("𐒺", "𐓢"); ("𐒻", "𐓣"); ("𐒼", "𐓤") ].

Definition lowercase_11 : list (string * string) :=
  [ ("𐒽", "𐓥"); ("𐒾", "𐓦"); ("𐒿", "𐓧"); ("𐓀", "𐓨"); ("𐓁", "𐓩"); ("𐓂", "𐓪");
    ("𐓃", "𐓫"); ("𐓄", "𐓬"); ("𐓅", "𐓭"); ("𐓆", "𐓮"); ("𐓇", "𐓯"); ("𐓈", "𐓰");
    ("𐓉", "𐓱"); ("𐓊", "𐓲"); ("𐓋", "𐓳"); ("𐓌", "𐓴"); ("𐓍", "𐓵"); ("𐓎", "𐓶");
    ("𐓏", "𐓷"); ("𐓐", "𐓸"); ("𐓑", "𐓹"); ("𐓒", "𐓺"); ("𐓓", "𐓻"); ("𐕰", "𐖗");
    ("𐕱", "𐖘"); ("𐕲", "𐖙"); ("𐕳", "𐖚"); ("𐕴", "𐖛"); ("𐕵", "𐖜"); ("𐕶", "𐖝");
    ("𐕷", "𐖞"); ("𐕸", "𐖟"); ("𐕹", "𐖠"); ("𐕺", "𐖡"); ("𐕼", "𐖣"); ("𐕽", "𐖤");
    ("𐕾", "𐖥"); ("𐕿", "𐖦"); ("𐖀", "𐖧"); ("𐖁", "𐖨"); ("𐖂", "𐖩"); ("𐖃", "𐖪");
    ("𐖄", "𐖫"); ("𐖅", "𐖬"); ("𐖆", "𐖭"); ("𐖇", "𐖮"); ("𐖈", "𐖯"); ("𐖉", "𐖰");
    ("𐖊", "𐖱"); ("𐖌", "𐖳"); ("𐖍", "𐖴"); ("𐖎", "𐖵"); ("𐖏", "𐖶"); ("𐖐", "𐖷");
    ("𐖑", "𐖸"); ("𐖒", "𐖹"); ("𐖔", "𐖻"); ("𐖕", "𐖼"); ("𐲀", "𐳀"); ("𐲁", "𐳁");
    ("𐲂", "𐳂"); ("𐲃", "𐳃"); ("𐲄", "𐳄"); ("𐲅", "𐳅"); ("𐲆", "𐳆"); ("𐲇", "𐳇");
    ("𐲈", "𐳈"); ("𐲉", "𐳉"); ("𐲊", "𐳊"); ("𐲋", "𐳋"); ("𐲌", "𐳌"); ("𐲍", "𐳍");
    ("𐲎", "𐳎"); ("𐲏", "𐳏"); ("𐲐", "𐳐"); ("𐲑", "𐳑"); ("𐲒", "𐳒"); ("𐲓", "𐳓");
    ("𐲔", "𐳔"); ("𐲕", "𐳕"); ("𐲖", "𐳖"); ("𐲗", "𐳗"); ("𐲘", "𐳘"); ("𐲙", "𐳙");
    ("𐲚", "𐳚"); ("𐲛", "𐳛"); ("𐲜", "𐳜"); ("𐲝", "𐳝"); ("𐲞", "𐳞"); ("𐲟", "𐳟");
    ("𐲠", "𐳠"); ("𐲡", "𐳡"); ("𐲢", "𐳢"); ("𐲣", "𐳣"); ("𐲤", "𐳤"); ("𐲥", "𐳥");
    ("𐲦", "𐳦"); ("𐲧", "𐳧"); ("𐲨", "𐳨"); ("𐲩", "𐳩"); ("𐲪", "𐳪"); ("𐲫", "𐳫");
    ("𐲬", "𐳬"); ("𐲭", "𐳭"); ("𐲮", "𐳮"); ("𐲯", "𐳯"); ("𐲰", "𐳰"); ("𐲱", "𐳱");
    ("𐲲", "𐳲"); ("𑢠", "𑣀"); ("𑢡", "𑣁"); ("𑢢", "𑣂"); ("𑢣", "𑣃"); ("𑢤", "𑣄");
    ("𑢥", "𑣅"); ("𑢦", "𑣆"); ("𑢧", "𑣇"); ("𑢨", "𑣈"); ("𑢩", "𑣉"); ("𑢪", "𑣊") ].

Definition lowercase_12 : list (string * string) :=
  [ ("𑢫", "𑣋"); ("𑢬", "𑣌"); ("𑢭", "𑣍"); ("𑢮", "𑣎"); ("𑢯", "𑣏"); ("𑢰", "𑣐");
    ("𑢱", "𑣑"); ("𑢲", "𑣒"); ("𑢳", "𑣓"); ("𑢴", "𑣔"); ("𑢵", "𑣕"); ("𑢶", "𑣖");
    ("𑢷", "𑣗"); ("𑢸", "𑣘"); ("𑢹", "𑣙"); ("𑢺", "𑣚"); ("𑢻", "𑣛"); ("𑢼", "𑣜");
    ("𑢽", "𑣝"); ("𑢾", "𑣞"); ("𑢿", "𑣟"); ("𖹀", "𖹠"); ("𖹁", "𖹡"); ("𖹂", "𖹢");
    ("𖹃", "𖹣"); ("𖹄", "𖹤"); ("𖹅", "𖹥"); ("𖹆", "𖹦"); ("𖹇", "𖹧"); ("𖹈", "𖹨");
    ("𖹉", "𖹩"); ("𖹊", "𖹪"); ("𖹋", "𖹫"); ("𖹌", "𖹬"); ("𖹍", "𖹭"); ("𖹎", "𖹮");
    ("𖹏", "𖹯"); ("𖹐", "𖹰"); ("𖹑", "𖹱"); ("𖹒", "𖹲"); ("𖹓", "𖹳"); ("𖹔", "𖹴");
    ("𖹕", "𖹵"); ("𖹖", "𖹶"); ("𖹗", "𖹷"); ("𖹘", "𖹸"); ("𖹙", "𖹹"); ("𖹚", "𖹺");
    ("𖹛", "𖹻"); ("𖹜", "𖹼"); ("𖹝", "𖹽"); ("𖹞", "𖹾"); ("𖹟", "𖹿"); ("𞤀", "𞤢");
    ("𞤁", "𞤣"); ("𞤂", "𞤤"); ("𞤃", "𞤥"); ("𞤄", "𞤦"); ("𞤅", "𞤧"); ("𞤆", "𞤨");
    ("𞤇", "𞤩"); ("𞤈", "𞤪"); ("𞤉", "𞤫"); ("𞤊", "𞤬"); ("𞤋", "𞤭"); ("𞤌", "𞤮");
    ("𞤍", "𞤯"); ("𞤎", "𞤰"); ("𞤏", "𞤱"); ("𞤐", "𞤲"); ("𞤑", "𞤳"); ("𞤒", "𞤴");
    ("𞤓", "𞤵"); ("𞤔", "𞤶"); ("𞤕", "𞤷"); ("𞤖", "𞤸"); ("𞤗", "𞤹"); ("𞤘", "𞤺");
    ("𞤙", "𞤻"); ("𞤚", "𞤼"); ("𞤛", "𞤽"); ("𞤜", "𞤾"); ("𞤝", "𞤿"); ("𞤞", "𞥀");
    ("𞤟", "𞥁"); ("𞤠", "𞥂"); ("𞤡", "𞥃") ].

(** The code points that [str.lower] changes, each with what it becomes. *)
Definition lowercase : list (string * string) :=
  (lowercase_latin
   ++ lowercase_1
   ++ lowercase_2
   ++ lowercase_3
   ++ lowercase_4
   ++ lowercase_5
   ++ lowercase_6
   ++ lowercase_7
   ++ lowercase_8
   ++ lowercase_9
   ++ lowercase_10
   ++ lowercase_11
   ++ lowercase_12)%list.
Definition uppercase_1 : list (string * string) :=
  [ ("µ", "Μ"); ("ß", "SS"); ("à", "À"); ("á", "Á"); ("â", "Â"); ("ã", "Ã");
    ("ä", "Ä"); ("å", "Å"); ("æ", "Æ"); ("ç", "Ç"); ("è", "È"); ("é", "É");
    ("ê", "Ê"); ("ë", "Ë"); ("ì", "Ì"); ("í", "Í"); ("î", "Î"); ("ï", "Ï");
    ("ð", "Ð"); ("ñ", "Ñ"); ("ò", "Ò"); ("ó", "Ó"); ("ô", "Ô"); ("õ", "Õ");
    ("ö", "Ö"); ("ø", "Ø"); ("ù", "Ù"); ("ú", "Ú"); ("û", "Û"); ("ü", "Ü");
    ("ý", "Ý"); ("þ", "Þ"); ("ÿ", "Ÿ"); ("ā", "Ā"); ("ă", "Ă"); ("ą", "Ą");
    ("ć", "Ć"); ("ĉ", "Ĉ"); ("ċ", "Ċ"); ("č", "Č"); ("ď", "Ď"); ("đ", "Đ");
    ("ē", "Ē"); ("ĕ", "Ĕ"); ("ė", "Ė"); ("ę", "Ę"); ("ě", "Ě"); ("ĝ", "Ĝ");
    ("ğ", "Ğ"); ("ġ", "Ġ"); ("ģ", "Ģ"); ("ĥ", "Ĥ"); ("ħ", "Ħ"); ("ĩ", "Ĩ");
    ("ī", "Ī"); ("ĭ", "Ĭ"); ("į", "Į"); ("ı", "I"); ("ĳ", "Ĳ"); ("ĵ", "Ĵ");
    ("ķ", "Ķ"); ("ĺ", "Ĺ"); ("ļ", "Ļ"); ("ľ", "Ľ"); ("ŀ", "Ŀ"); ("ł", "Ł");
    ("ń", "Ń"); ("ņ", "Ņ"); ("ň", "Ň"); ("ŉ", "ʼN"); ("ŋ", "Ŋ"); ("ō", "Ō");
    ("ŏ", "Ŏ"); ("ő", "Ő"); ("œ", "Œ"); ("ŕ", "Ŕ"); ("ŗ", "Ŗ"); ("ř", "Ř");
    ("ś", "Ś"); ("ŝ", "Ŝ"); ("ş", "Ş"); ("š", "Š"); ("ţ", "Ţ"); ("ť", "Ť");
    ("ŧ", "Ŧ"); ("ũ", "Ũ"); ("ū", "Ū"); ("ŭ", "Ŭ"); ("ů", "Ů"); ("ű", "Ű");
    ("ų", "Ų"); ("ŵ", "Ŵ"); ("ŷ", "Ŷ"); ("ź", "Ź"); ("ż", "Ż"); ("ž", "Ž");
    ("ſ", "S"); ("ƀ", "Ƀ"); ("ƃ", "Ƃ"); ("ƅ", "Ƅ"); ("ƈ", "Ƈ"); ("ƌ", "Ƌ");
    ("ƒ", "Ƒ"); ("ƕ", "Ƕ"); ("ƙ", "Ƙ"); ("ƚ", "Ƚ"); ("ƞ", "Ƞ"); ("ơ", "Ơ");
    ("ƣ", "Ƣ"); ("ƥ", "Ƥ"); ("ƨ", "Ƨ"); ("ƭ", "Ƭ"); ("ư", "Ư"); ("ƴ", "Ƴ");
    ("ƶ", "Ƶ"); ("ƹ", "Ƹ"); ("ƽ", "Ƽ"); ("ƿ", "Ƿ"); ("ǅ", "Ǆ"); ("ǆ", "Ǆ") ].

Definition uppercase_2 : list (string * string) :=
  [ ("ǈ", "Ǉ"); ("ǉ", "Ǉ"); ("ǋ", "Ǌ"); ("ǌ", "Ǌ"); ("ǎ", "Ǎ"); ("ǐ", "Ǐ");
    ("ǒ", "Ǒ"); ("ǔ", "Ǔ"); ("ǖ", "Ǖ"); ("ǘ", "Ǘ"); ("ǚ", "Ǚ"); ("ǜ", "Ǜ");
    ("ǝ", "Ǝ"); ("ǟ", "Ǟ"); ("ǡ", "Ǡ"); ("ǣ", "Ǣ"); ("ǥ", "Ǥ"); ("ǧ", "Ǧ");
    ("ǩ", "Ǩ"); ("ǫ", "Ǫ"); ("ǭ", "Ǭ"); ("ǯ", "Ǯ"); ("ǰ", "J̌"); ("ǲ", "Ǳ");
    ("ǳ", "Ǳ"); ("ǵ", "Ǵ"); ("ǹ", "Ǹ"); ("ǻ", "Ǻ"); ("ǽ", "Ǽ"); ("ǿ", "Ǿ");
    ("ȁ", "Ȁ"); ("ȃ", "Ȃ"); ("ȅ", "Ȅ"); ("ȇ", "Ȇ"); ("ȉ", "Ȉ"); ("ȋ", "Ȋ");
    ("ȍ", "Ȍ"); ("ȏ", "Ȏ"); ("ȑ", "Ȑ"); ("ȓ", "Ȓ"); ("ȕ", "Ȕ"); ("ȗ", "Ȗ");
    ("ș", "Ș"); ("ț", "Ț"); ("ȝ", "Ȝ"); ("ȟ", "Ȟ"); ("ȣ", "Ȣ"); ("ȥ", "Ȥ");
    ("ȧ", "Ȧ"); ("ȩ", "Ȩ"); ("ȫ", "Ȫ"); ("ȭ", "Ȭ"); ("ȯ", "Ȯ"); ("ȱ", "Ȱ");
    ("ȳ", "Ȳ"); ("ȼ", "Ȼ"); ("ȿ", "Ȿ"); ("ɀ", "Ɀ"); ("ɂ", "Ɂ"); ("ɇ", "Ɇ");
    ("ɉ", "Ɉ"); ("ɋ", "Ɋ"); ("ɍ", "Ɍ"); ("ɏ", "Ɏ"); ("ɐ", "Ɐ"); ("ɑ", "Ɑ");
    ("ɒ", "Ɒ"); ("ɓ", "Ɓ"); ("ɔ", "Ɔ"); ("ɖ", "Ɖ"); ("ɗ", "Ɗ"); ("ə", "Ə");
    ("ɛ", "Ɛ"); ("ɜ", "Ɜ"); ("ɠ", "Ɠ"); ("ɡ", "Ɡ"); ("ɣ", "Ɣ"); ("ɥ", "Ɥ");
    ("ɦ", "Ɦ"); ("ɨ", "Ɨ"); ("ɩ", "Ɩ"); ("ɪ", "Ɪ"); ("ɫ", "Ɫ"); ("ɬ", "Ɬ");
    ("ɯ", "Ɯ"); ("ɱ", "Ɱ"); ("ɲ", "Ɲ"); ("ɵ", "Ɵ"); ("ɽ", "Ɽ"); ("ʀ", "Ʀ");
    ("ʂ", "Ʂ"); ("ʃ", "Ʃ"); ("ʇ", "Ʇ"); ("ʈ", "Ʈ"); ("ʉ", "Ʉ"); ("ʊ", "Ʊ");
    ("ʋ", "Ʋ"); ("ʌ", "Ʌ"); ("ʒ", "Ʒ"); ("ʝ", "Ʝ"); ("ʞ", "Ʞ"); ("ͅ", "Ι");
    ("ͱ", "Ͱ"); ("ͳ", "Ͳ"); ("ͷ", "Ͷ"); ("ͻ", "Ͻ"); ("ͼ", "Ͼ"); ("ͽ", "Ͽ");
    ("ΐ", "Ϊ́"); ("ά", "Ά"); ("έ", "Έ"); ("ή", "Ή"); ("ί", "Ί"); ("ΰ", "Ϋ́");
    ("α", "Α"); ("β", "Β"); ("γ", "Γ"); ("δ", "Δ"); ("ε", "Ε"); ("ζ", "Ζ") ].

Definition uppercase_3 : list (string * string) :=
  [ ("η", "Η"); ("θ", "Θ"); ("ι", "Ι"); ("κ", "Κ"); ("λ", "Λ"); ("μ", "Μ");
    ("ν", "Ν"); ("ξ", "Ξ"); ("ο", "Ο"); ("π", "Π"); ("ρ", "Ρ"); ("ς", "Σ");
    ("σ", "Σ"); ("τ", "Τ"); ("υ", "Υ"); ("φ", "Φ"); ("χ", "Χ"); ("ψ", "Ψ");
    ("ω", "Ω"); ("ϊ", "Ϊ"); ("ϋ", "Ϋ"); ("ό", "Ό"); ("ύ", "Ύ"); ("ώ", "Ώ");
    ("ϐ", "Β"); ("ϑ", "Θ"); ("ϕ", "Φ"); ("ϖ", "Π"); ("ϗ", "Ϗ"); ("ϙ", "Ϙ");
    ("ϛ", "Ϛ"); ("ϝ", "Ϝ"); ("ϟ", "Ϟ"); ("ϡ", "Ϡ"); ("ϣ", "Ϣ"); ("ϥ", "Ϥ");
    ("ϧ", "Ϧ"); ("ϩ", "Ϩ"); ("ϫ", "Ϫ"); ("ϭ", "Ϭ"); ("ϯ", "Ϯ"); ("ϰ", "Κ");
    ("ϱ", "Ρ"); ("ϲ", "Ϲ"); ("ϳ", "Ϳ"); ("ϵ", "Ε"); ("ϸ", "Ϸ"); ("ϻ", "Ϻ");
    ("а", "А"); ("б", "Б"); ("в", "В"); ("г", "Г"); ("д", "Д"); ("е", "Е");
    ("ж", "Ж"); ("з", "З"); ("и", "И"); ("й", "Й"); ("к", "К"); ("л", "Л");
    ("м", "М"); ("н", "Н"); ("о", "О"); ("п", "П"); ("р", "Р"); ("с", "С");
    ("т", "Т"); ("у", "У"); ("ф", "Ф"); ("х", "Х"); ("ц", "Ц"); ("ч", "Ч");
    ("ш", "Ш"); ("щ", "Щ"); ("ъ", "Ъ"); ("ы", "Ы"); ("ь", "Ь"); ("э", "Э");
    ("ю", "Ю"); ("я", "Я"); ("ѐ", "Ѐ"); ("ё", "Ё"); ("ђ", "Ђ"); ("ѓ", "Ѓ");
    ("є", "Є"); ("ѕ", "Ѕ"); ("і", "І"); ("ї", "Ї"); ("ј", "Ј"); ("љ", "Љ");
    ("њ", "Њ"); ("ћ", "Ћ"); ("ќ", "Ќ"); ("ѝ", "Ѝ"); ("ў", "Ў"); ("џ", "Џ");
    ("ѡ", "Ѡ"); ("ѣ", "Ѣ"); ("ѥ", "Ѥ"); ("ѧ", "Ѧ"); ("ѩ", "Ѩ"); ("ѫ", "Ѫ");
    ("ѭ", "Ѭ"); ("ѯ", "Ѯ"); ("ѱ", "Ѱ"); ("ѳ", "Ѳ"); ("ѵ", "Ѵ"); ("ѷ", "Ѷ");
    ("ѹ", "Ѹ"); ("ѻ", "Ѻ"); ("ѽ", "Ѽ"); ("ѿ", "Ѿ"); ("ҁ", "Ҁ"); ("ҋ", "Ҋ");
    ("ҍ", "Ҍ"); ("ҏ", "Ҏ"); ("ґ", "Ґ"); ("ғ", "Ғ"); ("ҕ", "Ҕ"); ("җ", "Җ") ].

Definition uppercase_4 : list (string * string) :=
  [ ("ҙ", "Ҙ"); ("қ", "Қ"); ("ҝ", "Ҝ"); ("ҟ", "Ҟ"); ("ҡ", "Ҡ"); ("ң", "Ң");
    ("ҥ", "Ҥ"); ("ҧ", "Ҧ"); ("ҩ", "Ҩ"); ("ҫ", "Ҫ"); ("ҭ", "Ҭ"); ("ү", "Ү");
    ("ұ", "Ұ"); ("ҳ", "Ҳ"); ("ҵ", "Ҵ"); ("ҷ", "Ҷ"); ("ҹ", "Ҹ"); ("һ", "Һ");
    ("ҽ", "Ҽ"); ("ҿ", "Ҿ"); ("ӂ", "Ӂ"); ("ӄ", "Ӄ"); ("ӆ", "Ӆ"); ("ӈ", "Ӈ");
    ("ӊ", "Ӊ"); ("ӌ", "Ӌ"); ("ӎ", "Ӎ"); ("ӏ", "Ӏ"); ("ӑ", "Ӑ"); ("ӓ", "Ӓ");
    ("ӕ", "Ӕ"); ("ӗ", "Ӗ"); ("ә", "Ә"); ("ӛ", "Ӛ"); ("ӝ", "Ӝ"); ("ӟ", "Ӟ");
    ("ӡ", "Ӡ"); ("ӣ", "Ӣ"); ("ӥ", "Ӥ"); ("ӧ", "Ӧ"); ("ө", "Ө"); ("ӫ", "Ӫ");
    ("ӭ", "Ӭ"); ("ӯ", "Ӯ"); ("ӱ", "Ӱ"); ("ӳ", "Ӳ"); ("ӵ", "Ӵ"); ("ӷ", "Ӷ");
    ("ӹ", "Ӹ"); ("ӻ", "Ӻ"); ("ӽ", "Ӽ"); ("ӿ", "Ӿ"); ("ԁ", "Ԁ"); ("ԃ", "Ԃ");
    ("ԅ", "Ԅ"); ("ԇ", "Ԇ"); ("ԉ", "Ԉ"); ("ԋ", "Ԋ"); ("ԍ", "Ԍ"); ("ԏ", "Ԏ");
    ("ԑ", "Ԑ"); ("ԓ", "Ԓ"); ("ԕ", "Ԕ"); ("ԗ", "Ԗ"); ("ԙ", "Ԙ"); ("ԛ", "Ԛ");
    ("ԝ", "Ԝ"); ("ԟ", "Ԟ"); ("ԡ", "Ԡ"); ("ԣ", "Ԣ"); ("ԥ", "Ԥ"); ("ԧ", "Ԧ");
    ("ԩ", "Ԩ"); ("ԫ", "Ԫ"); ("ԭ", "Ԭ"); ("ԯ", "Ԯ"); ("ա", "Ա"); ("բ", "Բ");
    ("գ", "Գ"); ("դ", "Դ"); ("ե", "Ե"); ("զ", "Զ"); ("է", "Է"); ("ը", "Ը");
    ("թ", "Թ"); ("ժ", "Ժ"); ("ի", "Ի"); ("լ", "Լ"); ("խ", "Խ"); ("ծ", "Ծ");
    ("կ", "Կ"); ("հ", "Հ"); ("ձ", "Ձ"); ("ղ", "Ղ"); ("ճ", "Ճ"); ("մ", "Մ");
    ("յ", "Յ"); ("ն", "Ն"); ("շ", "Շ"); ("ո", "Ո"); ("չ", "Չ"); ("պ", "Պ");
    ("ջ", "Ջ"); ("ռ", "Ռ"); ("ս", "Ս"); ("վ", "Վ"); ("տ", "Տ"); ("ր", "Ր");
    ("ց", "Ց"); ("ւ", "Ւ"); ("փ", "Փ"); ("ք", "Ք"); ("օ", "Օ"); ("ֆ", "Ֆ");
    ("և", "ԵՒ"); ("ა", "Ა"); ("ბ", "Ბ"); ("გ", "Გ"); ("დ", "Დ"); ("ე", "Ე") ].

Definition uppercase_5 : list (string * string) :=
  [ ("ვ", "Ვ"); ("ზ", "Ზ"); ("თ", "Თ"); ("ი", "Ი"); ("კ", "Კ"); ("ლ", "Ლ");
    ("მ", "Მ"); ("ნ", "Ნ"); ("ო", "Ო"); ("პ", "Პ"); ("ჟ", "Ჟ"); ("რ", "Რ");
    ("ს", "Ს"); ("ტ", "Ტ"); ("უ", "Უ"); ("ფ", "Ფ"); ("ქ", "Ქ"); ("ღ", "Ღ");
    ("ყ", "Ყ"); ("შ", "Შ"); ("ჩ", "Ჩ"); ("ც", "Ც"); ("ძ", "Ძ"); ("წ", "Წ");
    ("ჭ", "Ჭ"); ("ხ", "Ხ"); ("ჯ", "Ჯ"); ("ჰ", "Ჰ"); ("ჱ", "Ჱ"); ("ჲ", "Ჲ");
    ("ჳ", "Ჳ"); ("ჴ", "Ჴ"); ("ჵ", "Ჵ"); ("ჶ", "Ჶ"); ("ჷ", "Ჷ"); ("ჸ", "Ჸ");
    ("ჹ", "Ჹ"); ("ჺ", "Ჺ"); ("ჽ", "Ჽ"); ("ჾ", "Ჾ"); ("ჿ", "Ჿ"); ("ᏸ", "Ᏸ");
    ("ᏹ", "Ᏹ"); ("ᏺ", "Ᏺ"); ("ᏻ", "Ᏻ"); ("ᏼ", "Ᏼ"); ("ᏽ", "Ᏽ"); ("ᲀ", "В");
    ("ᲁ", "Д"); ("ᲂ", "О"); ("ᲃ", "С"); ("ᲄ", "Т"); ("ᲅ", "Т"); ("ᲆ", "Ъ");
    ("ᲇ", "Ѣ"); ("ᲈ", "Ꙋ"); ("ᵹ", "Ᵹ"); ("ᵽ", "Ᵽ"); ("ᶎ", "Ᶎ"); ("ḁ", "Ḁ");
    ("ḃ", "Ḃ"); ("ḅ", "Ḅ"); ("ḇ", "Ḇ"); ("ḉ", "Ḉ"); ("ḋ", "Ḋ"); ("ḍ", "Ḍ");
    ("ḏ", "Ḏ"); ("ḑ", "Ḑ"); ("ḓ", "Ḓ"); ("ḕ", "Ḕ"); ("ḗ", "Ḗ"); ("ḙ", "Ḙ");
    ("ḛ", "Ḛ"); ("ḝ", "Ḝ"); ("ḟ", "Ḟ"); ("ḡ", "Ḡ"); ("ḣ", "Ḣ"); ("ḥ", "Ḥ");
    ("ḧ", "Ḧ"); ("ḩ", "Ḩ"); ("ḫ", "Ḫ"); ("ḭ", "Ḭ"); ("ḯ", "Ḯ"); ("ḱ", "Ḱ");
    ("ḳ", "Ḳ"); ("ḵ", "Ḵ"); ("ḷ", "Ḷ"); ("ḹ", "Ḹ"); ("ḻ", "Ḻ"); ("ḽ", "Ḽ");
    ("ḿ", "Ḿ"); ("ṁ", "Ṁ"); ("ṃ", "Ṃ"); ("ṅ", "Ṅ"); ("ṇ", "Ṇ"); ("ṉ", "Ṉ");
    ("ṋ", "Ṋ"); ("ṍ", "Ṍ"); ("ṏ", "Ṏ"); ("ṑ", "Ṑ"); ("ṓ", "Ṓ"); ("ṕ", "Ṕ");
    ("ṗ", "Ṗ"); ("ṙ", "Ṙ"); ("ṛ", "Ṛ"); ("ṝ", "Ṝ"); ("ṟ", "Ṟ"); ("ṡ", "Ṡ");
    ("ṣ", "Ṣ"); ("ṥ", "Ṥ"); ("ṧ", "Ṧ"); ("ṩ", "Ṩ"); ("ṫ", "Ṫ"); ("ṭ", "Ṭ");
    ("ṯ", "Ṯ"); ("ṱ", "Ṱ"); ("ṳ", "Ṳ"); ("ṵ", "Ṵ"); ("ṷ", "Ṷ"); ("ṹ", "Ṹ") ].

Definition uppercase_6 : list (string * string) :=
  [ ("ṻ", "Ṻ"); ("ṽ", "Ṽ"); ("ṿ", "Ṿ"); ("ẁ", "Ẁ"); ("ẃ", "Ẃ"); ("ẅ", "Ẅ");
    ("ẇ", "Ẇ"); ("ẉ", "Ẉ"); ("ẋ", "Ẋ"); ("ẍ", "Ẍ"); ("ẏ", "Ẏ"); ("ẑ", "Ẑ");
    ("ẓ", "Ẓ"); ("ẕ", "Ẕ"); ("ẖ", "H̱"); ("ẗ", "T̈"); ("ẘ", "W̊"); ("ẙ", "Y̊");
    ("ẚ", "Aʾ"); ("ẛ", "Ṡ"); ("ạ", "Ạ"); ("ả", "Ả"); ("ấ", "Ấ"); ("ầ", "Ầ");
    ("ẩ", "Ẩ"); ("ẫ", "Ẫ"); ("ậ", "Ậ"); ("ắ", "Ắ"); ("ằ", "Ằ"); ("ẳ", "Ẳ");
    ("ẵ", "Ẵ"); ("ặ", "Ặ"); ("ẹ", "Ẹ"); ("ẻ", "Ẻ"); ("ẽ", "Ẽ"); ("ế", "Ế");
    ("ề", "Ề"); ("ể", "Ể"); ("ễ", "Ễ"); ("ệ", "Ệ"); ("ỉ", "Ỉ"); ("ị", "Ị");
    ("ọ", "Ọ"); ("ỏ", "Ỏ"); ("ố", "Ố"); ("ồ", "Ồ"); ("ổ", "Ổ"); ("ỗ", "Ỗ");
    ("ộ", "Ộ"); ("ớ", "Ớ"); ("ờ", "Ờ"); ("ở", "Ở"); ("ỡ", "Ỡ"); ("ợ", "Ợ");
    ("ụ", "Ụ"); ("ủ", "Ủ"); ("ứ", "Ứ"); ("ừ", "Ừ"); ("ử", "Ử"); ("ữ", "Ữ");
    ("ự", "Ự"); ("ỳ", "Ỳ"); ("ỵ", "Ỵ"); ("ỷ", "Ỷ"); ("ỹ", "Ỹ"); ("ỻ", "Ỻ");
    ("ỽ", "Ỽ"); ("ỿ", "Ỿ"); ("ἀ", "Ἀ"); ("ἁ", "Ἁ"); ("ἂ", "Ἂ"); ("ἃ", "Ἃ");
    ("ἄ", "Ἄ"); ("ἅ", "Ἅ"); ("ἆ", "Ἆ"); ("ἇ", "Ἇ"); ("ἐ", "Ἐ"); ("ἑ", "Ἑ");
    ("ἒ", "Ἒ"); ("ἓ", "Ἓ"); ("ἔ", "Ἔ"); ("ἕ", "Ἕ"); ("ἠ", "Ἠ"); ("ἡ", "Ἡ");
    ("ἢ", "Ἢ"); ("ἣ", "Ἣ"); ("ἤ", "Ἤ"); ("ἥ", "Ἥ"); ("ἦ", "Ἦ"); ("ἧ", "Ἧ");
    ("ἰ", "Ἰ"); ("ἱ", "Ἱ"); ("ἲ", "Ἲ"); ("ἳ", "Ἳ"); ("ἴ", "Ἴ"); ("ἵ", "Ἵ");
    ("ἶ", "Ἶ"); ("ἷ", "Ἷ"); ("ὀ", "Ὀ"); ("ὁ", "Ὁ"); ("ὂ", "Ὂ"); ("ὃ", "Ὃ");
    ("ὄ", "Ὄ"); ("ὅ", "Ὅ"); ("ὐ", "Υ̓"); ("ὑ", "Ὑ"); ("ὒ", "Υ̓̀"); ("ὓ", "Ὓ");
    ("ὔ", "Υ̓́"); ("ὕ", "Ὕ"); ("ὖ", "Υ̓͂"); ("ὗ", "Ὗ"); ("ὠ", "Ὠ"); ("ὡ", "Ὡ");
    ("ὢ", "Ὢ"); ("ὣ", "Ὣ"); ("ὤ", "Ὤ"); ("ὥ", "Ὥ"); ("ὦ", "Ὦ"); ("ὧ", "Ὧ") ].

Definition uppercase_7 : list (string * string) :=
  [ ("ὰ", "Ὰ"); ("ά", "Ά"); ("ὲ", "Ὲ"); ("έ", "Έ"); ("ὴ", "Ὴ"); ("ή", "Ή");
    ("ὶ", "Ὶ"); ("ί", "Ί"); ("ὸ", "Ὸ"); ("ό", "Ό"); ("ὺ", "Ὺ"); ("ύ", "Ύ");
    ("ὼ", "Ὼ"); ("ώ", "Ώ"); ("ᾀ", "ἈΙ"); ("ᾁ", "ἉΙ"); ("ᾂ", "ἊΙ"); ("ᾃ", "ἋΙ");
    ("ᾄ", "ἌΙ"); ("ᾅ", "ἍΙ"); ("ᾆ", "ἎΙ"); ("ᾇ", "ἏΙ"); ("ᾈ", "ἈΙ"); ("ᾉ", "ἉΙ");
    ("ᾊ", "ἊΙ"); ("ᾋ", "ἋΙ"); ("ᾌ", "ἌΙ"); ("ᾍ", "ἍΙ"); ("ᾎ", "ἎΙ"); ("ᾏ", "ἏΙ");
    ("ᾐ", "ἨΙ"); ("ᾑ", "ἩΙ"); ("ᾒ", "ἪΙ"); ("ᾓ", "ἫΙ"); ("ᾔ", "ἬΙ"); ("ᾕ", "ἭΙ");
    ("ᾖ", "ἮΙ"); ("ᾗ", "ἯΙ"); ("ᾘ", "ἨΙ"); ("ᾙ", "ἩΙ"); ("ᾚ", "ἪΙ"); ("ᾛ", "ἫΙ");
    ("ᾜ", "ἬΙ"); ("ᾝ", "ἭΙ"); ("ᾞ", "ἮΙ"); ("ᾟ", "ἯΙ"); ("ᾠ", "ὨΙ"); ("ᾡ", "ὩΙ");
    ("ᾢ", "ὪΙ"); ("ᾣ", "ὫΙ"); ("ᾤ", "ὬΙ"); ("ᾥ", "ὭΙ"); ("ᾦ", "ὮΙ"); ("ᾧ", "ὯΙ");
    ("ᾨ", "ὨΙ"); ("ᾩ", "ὩΙ"); ("ᾪ", "ὪΙ"); ("ᾫ", "ὫΙ"); ("ᾬ", "ὬΙ"); ("ᾭ", "ὭΙ");
    ("ᾮ", "ὮΙ"); ("ᾯ", "ὯΙ"); ("ᾰ", "Ᾰ"); ("ᾱ", "Ᾱ"); ("ᾲ", "ᾺΙ"); ("ᾳ", "ΑΙ");
    ("ᾴ", "ΆΙ"); ("ᾶ", "Α͂"); ("ᾷ", "Α͂Ι"); ("ᾼ", "ΑΙ"); ("ι", "Ι"); ("ῂ", "ῊΙ");
    ("ῃ", "ΗΙ"); ("ῄ", "ΉΙ"); ("ῆ", "Η͂"); ("ῇ", "Η͂Ι"); ("ῌ", "ΗΙ"); ("ῐ", "Ῐ");
    ("ῑ", "Ῑ"); ("ῒ", "Ϊ̀"); ("ΐ", "Ϊ́"); ("ῖ", "Ι͂"); ("ῗ", "Ϊ͂"); ("ῠ", "Ῠ");
    ("ῡ", "Ῡ"); ("ῢ", "Ϋ̀"); ("ΰ", "Ϋ́"); ("ῤ", "Ρ̓"); ("ῥ", "Ῥ"); ("ῦ", "Υ͂");
    ("ῧ", "Ϋ͂"); ("ῲ", "ῺΙ"); ("ῳ", "ΩΙ"); ("ῴ", "ΏΙ"); ("ῶ", "Ω͂"); ("ῷ", "Ω͂Ι");
    ("ῼ", "ΩΙ"); ("ⅎ", "Ⅎ"); ("ⅰ", "Ⅰ"); ("ⅱ", "Ⅱ"); ("ⅲ", "Ⅲ"); ("ⅳ", "Ⅳ");
    ("ⅴ", "Ⅴ"); ("ⅵ", "Ⅵ"); ("ⅶ", "Ⅶ"); ("ⅷ", "Ⅷ"); ("ⅸ", "Ⅸ"); ("ⅹ", "Ⅹ");
    ("ⅺ", "Ⅺ"); ("ⅻ", "Ⅻ"); ("ⅼ", "Ⅼ"); ("ⅽ", "Ⅽ"); ("ⅾ", "Ⅾ"); ("ⅿ", "Ⅿ");
    ("ↄ", "Ↄ"); ("ⓐ", "Ⓐ"); ("ⓑ", "Ⓑ"); ("ⓒ", "Ⓒ"); ("ⓓ", "Ⓓ"); ("ⓔ", "Ⓔ") ].

Definition uppercase_8 : list (string * string) :=
  [ ("ⓕ", "Ⓕ"); ("ⓖ", "Ⓖ"); ("ⓗ", "Ⓗ"); ("ⓘ", "Ⓘ"); ("ⓙ", "Ⓙ"); ("ⓚ", "Ⓚ");
    ("ⓛ", "Ⓛ"); ("ⓜ", "Ⓜ"); ("ⓝ", "Ⓝ"); ("ⓞ", "Ⓞ"); ("ⓟ", "Ⓟ"); ("ⓠ", "Ⓠ");
    ("ⓡ", "Ⓡ"); ("ⓢ", "Ⓢ"); ("ⓣ", "Ⓣ"); ("ⓤ", "Ⓤ"); ("ⓥ", "Ⓥ"); ("ⓦ", "Ⓦ");
    ("ⓧ", "Ⓧ"); ("ⓨ", "Ⓨ"); ("ⓩ", "Ⓩ"); ("ⰰ", "Ⰰ"); ("ⰱ", "Ⰱ"); ("ⰲ", "Ⰲ");
    ("ⰳ", "Ⰳ"); ("ⰴ", "Ⰴ"); ("ⰵ", "Ⰵ"); ("ⰶ", "Ⰶ"); ("ⰷ", "Ⰷ"); ("ⰸ", "Ⰸ");
    ("ⰹ", "Ⰹ"); ("ⰺ", "Ⰺ"); ("ⰻ", "Ⰻ"); ("ⰼ", "Ⰼ"); ("ⰽ", "Ⰽ"); ("ⰾ", "Ⰾ");
    ("ⰿ", "Ⰿ"); ("ⱀ", "Ⱀ"); ("ⱁ", "Ⱁ"); ("ⱂ", "Ⱂ"); ("ⱃ", "Ⱃ"); ("ⱄ", "Ⱄ");
    ("ⱅ", "Ⱅ"); ("ⱆ", "Ⱆ"); ("ⱇ", "Ⱇ"); ("ⱈ", "Ⱈ"); ("ⱉ", "Ⱉ"); ("ⱊ", "Ⱊ");
    ("ⱋ", "Ⱋ"); ("ⱌ", "Ⱌ"); ("ⱍ", "Ⱍ"); ("ⱎ", "Ⱎ"); ("ⱏ", "Ⱏ"); ("ⱐ", "Ⱐ");
    ("ⱑ", "Ⱑ"); ("ⱒ", "Ⱒ"); ("ⱓ", "Ⱓ"); ("ⱔ", "Ⱔ"); ("ⱕ", "Ⱕ"); ("ⱖ", "Ⱖ");
    ("ⱗ", "Ⱗ"); ("ⱘ", "Ⱘ"); ("ⱙ", "Ⱙ"); ("ⱚ", "Ⱚ"); ("ⱛ", "Ⱛ"); ("ⱜ", "Ⱜ");
    ("ⱝ", "Ⱝ"); ("ⱞ", "Ⱞ"); ("ⱟ", "Ⱟ"); ("ⱡ", "Ⱡ"); ("ⱥ", "Ⱥ"); ("ⱦ", "Ⱦ");
    ("ⱨ", "Ⱨ"); ("ⱪ", "Ⱪ"); ("ⱬ", "Ⱬ"); ("ⱳ", "Ⱳ"); ("ⱶ", "Ⱶ"); ("ⲁ", "Ⲁ");
    ("ⲃ", "Ⲃ"); ("ⲅ", "Ⲅ"); ("ⲇ", "Ⲇ"); ("ⲉ", "Ⲉ"); ("ⲋ", "Ⲋ"); ("ⲍ", "Ⲍ");
    ("ⲏ", "Ⲏ"); ("ⲑ", "Ⲑ"); ("ⲓ", "Ⲓ"); ("ⲕ", "Ⲕ"); ("ⲗ", "Ⲗ"); ("ⲙ", "Ⲙ");
    ("ⲛ", "Ⲛ"); ("ⲝ", "Ⲝ"); ("ⲟ", "Ⲟ"); ("ⲡ", "Ⲡ"); ("ⲣ", "Ⲣ"); ("ⲥ", "Ⲥ");
    ("ⲧ", "Ⲧ"); ("ⲩ", "Ⲩ"); ("ⲫ", "Ⲫ"); ("ⲭ", "Ⲭ"); ("ⲯ", "Ⲯ"); ("ⲱ", "Ⲱ");
    ("ⲳ", "Ⲳ"); ("ⲵ", "Ⲵ"); ("ⲷ", "Ⲷ"); ("ⲹ", "Ⲹ"); ("ⲻ", "Ⲻ"); ("ⲽ", "Ⲽ");
    ("ⲿ", "Ⲿ"); ("ⳁ", "Ⳁ"); ("ⳃ", "Ⳃ"); ("ⳅ", "Ⳅ"); ("ⳇ", "Ⳇ"); ("ⳉ", "Ⳉ");
    ("ⳋ", "Ⳋ"); ("ⳍ", "Ⳍ"); ("ⳏ", "Ⳏ"); ("ⳑ", "Ⳑ"); ("ⳓ", "Ⳓ"); ("ⳕ", "Ⳕ") ].

Definition uppercase_9 : list (string * string) :=
  [ ("ⳗ", "Ⳗ"); ("ⳙ", "Ⳙ"); ("ⳛ", "Ⳛ"); ("ⳝ", "Ⳝ"); ("ⳟ", "Ⳟ"); ("ⳡ", "Ⳡ");
    ("ⳣ", "Ⳣ"); ("ⳬ", "Ⳬ"); ("ⳮ", "Ⳮ"); ("ⳳ", "Ⳳ"); ("ⴀ", "Ⴀ"); ("ⴁ", "Ⴁ");
    ("ⴂ", "Ⴂ"); ("ⴃ", "Ⴃ"); ("ⴄ", "Ⴄ"); ("ⴅ", "Ⴅ"); ("ⴆ", "Ⴆ"); ("ⴇ", "Ⴇ");
    ("ⴈ", "Ⴈ"); ("ⴉ", "Ⴉ"); ("ⴊ", "Ⴊ"); ("ⴋ", "Ⴋ"); ("ⴌ", "Ⴌ"); ("ⴍ", "Ⴍ");
    ("ⴎ", "Ⴎ"); ("ⴏ", "Ⴏ"); ("ⴐ", "Ⴐ"); ("ⴑ", "Ⴑ"); ("ⴒ", "Ⴒ"); ("ⴓ", "Ⴓ");
    ("ⴔ", "Ⴔ"); ("ⴕ", "Ⴕ"); ("ⴖ", "Ⴖ"); ("ⴗ", "Ⴗ"); ("ⴘ", "Ⴘ"); ("ⴙ", "Ⴙ");
    ("ⴚ", "Ⴚ"); ("ⴛ", "Ⴛ"); ("ⴜ", "Ⴜ"); ("ⴝ", "Ⴝ"); ("ⴞ", "Ⴞ"); ("ⴟ", "Ⴟ");
    ("ⴠ", "Ⴠ"); ("ⴡ", "Ⴡ"); ("ⴢ", "Ⴢ"); ("ⴣ", "Ⴣ"); ("ⴤ", "Ⴤ"); ("ⴥ", "Ⴥ");
    ("ⴧ", "Ⴧ"); ("ⴭ", "Ⴭ"); ("ꙁ", "Ꙁ"); ("ꙃ", "Ꙃ"); ("ꙅ", "Ꙅ"); ("ꙇ", "Ꙇ");
    ("ꙉ", "Ꙉ"); ("ꙋ", "Ꙋ"); ("ꙍ", "Ꙍ"); ("ꙏ", "Ꙏ"); ("ꙑ", "Ꙑ"); ("ꙓ", "Ꙓ");
    ("ꙕ", "Ꙕ"); ("ꙗ", "Ꙗ"); ("ꙙ", "Ꙙ"); ("ꙛ", "Ꙛ"); ("ꙝ", "Ꙝ"); ("ꙟ", "Ꙟ");
    ("ꙡ", "Ꙡ"); ("ꙣ", "Ꙣ"); ("ꙥ", "Ꙥ"); ("ꙧ", "Ꙧ"); ("ꙩ", "Ꙩ"); ("ꙫ", "Ꙫ");
    ("ꙭ", "Ꙭ"); ("ꚁ", "Ꚁ"); ("ꚃ", "Ꚃ"); ("ꚅ", "Ꚅ"); ("ꚇ", "Ꚇ"); ("ꚉ", "Ꚉ");
    ("ꚋ", "Ꚋ"); ("ꚍ", "Ꚍ"); ("ꚏ", "Ꚏ"); ("ꚑ", "Ꚑ"); ("ꚓ", "Ꚓ"); ("ꚕ", "Ꚕ");
    ("ꚗ", "Ꚗ"); ("ꚙ", "Ꚙ"); ("ꚛ", "Ꚛ"); ("ꜣ", "Ꜣ"); ("ꜥ", "Ꜥ"); ("ꜧ", "Ꜧ");
    ("ꜩ", "Ꜩ"); ("ꜫ", "Ꜫ"); ("ꜭ", "Ꜭ"); ("ꜯ", "Ꜯ"); ("ꜳ", "Ꜳ"); ("ꜵ", "Ꜵ");
    ("ꜷ", "Ꜷ"); ("ꜹ", "Ꜹ"); ("ꜻ", "Ꜻ"); ("ꜽ", "Ꜽ"); ("ꜿ", "Ꜿ"); ("ꝁ", "Ꝁ");
    ("ꝃ", "Ꝃ"); ("ꝅ", "Ꝅ"); ("ꝇ", "Ꝇ"); ("ꝉ", "Ꝉ"); ("ꝋ", "Ꝋ"); ("ꝍ", "Ꝍ");
    ("ꝏ", "Ꝏ"); ("ꝑ", "Ꝑ"); ("ꝓ", "Ꝓ"); ("ꝕ", "Ꝕ"); ("ꝗ", "Ꝗ"); ("ꝙ", "Ꝙ");
    ("ꝛ", "Ꝛ"); ("ꝝ", "Ꝝ"); ("ꝟ", "Ꝟ"); ("ꝡ", "Ꝡ"); ("ꝣ", "Ꝣ"); ("ꝥ", "Ꝥ") ].

Definition uppercase_10 : list (string * string) :=
  [ ("ꝧ", "Ꝧ"); ("ꝩ", "Ꝩ"); ("ꝫ", "Ꝫ"); ("ꝭ", "Ꝭ"); ("ꝯ", "Ꝯ"); ("ꝺ", "Ꝺ");
    ("ꝼ", "Ꝼ"); ("ꝿ", "Ꝿ"); ("ꞁ", "Ꞁ"); ("ꞃ", "Ꞃ"); ("ꞅ", "Ꞅ"); ("ꞇ", "Ꞇ");
    ("ꞌ", "Ꞌ"); ("ꞑ", "Ꞑ"); ("ꞓ", "Ꞓ"); ("ꞔ", "Ꞔ"); ("ꞗ", "Ꞗ"); ("ꞙ", "Ꞙ");
    ("ꞛ", "Ꞛ"); ("ꞝ", "Ꞝ"); ("ꞟ", "Ꞟ"); ("ꞡ", "Ꞡ"); ("ꞣ", "Ꞣ"); ("ꞥ", "Ꞥ");
    ("ꞧ", "Ꞧ"); ("ꞩ", "Ꞩ"); ("ꞵ", "Ꞵ"); ("ꞷ", "Ꞷ"); ("ꞹ", "Ꞹ"); ("ꞻ", "Ꞻ");
    ("ꞽ", "Ꞽ"); ("ꞿ", "Ꞿ"); ("ꟁ", "Ꟁ"); ("ꟃ", "Ꟃ"); ("ꟈ", "Ꟈ"); ("ꟊ", "Ꟊ");
    ("ꟑ", "Ꟑ"); ("ꟗ", "Ꟗ"); ("ꟙ", "Ꟙ"); ("ꟶ", "Ꟶ"); ("ꭓ", "Ꭓ"); ("ꭰ", "Ꭰ");
    ("ꭱ", "Ꭱ"); ("ꭲ", "Ꭲ"); ("ꭳ", "Ꭳ"); ("ꭴ", "Ꭴ"); ("ꭵ", "Ꭵ"); ("ꭶ", "Ꭶ");
    ("ꭷ", "Ꭷ"); ("ꭸ", "Ꭸ"); ("ꭹ", "Ꭹ"); ("ꭺ", "Ꭺ"); ("ꭻ", "Ꭻ"); ("ꭼ", "Ꭼ");
    ("ꭽ", "Ꭽ"); ("ꭾ", "Ꭾ"); ("ꭿ", "Ꭿ"); ("ꮀ", "Ꮀ"); ("ꮁ", "Ꮁ"); ("ꮂ", "Ꮂ");
    ("ꮃ", "Ꮃ"); ("ꮄ", "Ꮄ"); ("ꮅ", "Ꮅ"); ("ꮆ", "Ꮆ"); ("ꮇ", "Ꮇ"); ("ꮈ", "Ꮈ");
    ("ꮉ", "Ꮉ"); ("ꮊ", "Ꮊ"); ("ꮋ", "Ꮋ"); ("ꮌ", "Ꮌ"); ("ꮍ", "Ꮍ"); ("ꮎ", "Ꮎ");
    ("ꮏ", "Ꮏ"); ("ꮐ", "Ꮐ"); ("ꮑ", "Ꮑ"); ("ꮒ", "Ꮒ"); ("ꮓ", "Ꮓ"); ("ꮔ", "Ꮔ");
    ("ꮕ", "Ꮕ"); ("ꮖ", "Ꮖ"); ("ꮗ", "Ꮗ"); ("ꮘ", "Ꮘ"); ("ꮙ", "Ꮙ"); ("ꮚ", "Ꮚ");
    ("ꮛ", "Ꮛ"); ("ꮜ", "Ꮜ"); ("ꮝ", "Ꮝ"); ("ꮞ", "Ꮞ"); ("ꮟ", "Ꮟ"); ("ꮠ", "Ꮠ");
    ("ꮡ", "Ꮡ"); ("ꮢ", "Ꮢ"); ("ꮣ", "Ꮣ"); ("ꮤ", "Ꮤ"); ("ꮥ", "Ꮥ"); ("ꮦ", "Ꮦ");
    ("ꮧ", "Ꮧ"); ("ꮨ", "Ꮨ"); ("ꮩ", "Ꮩ"); ("ꮪ", "Ꮪ"); ("ꮫ", "Ꮫ"); ("ꮬ", "Ꮬ");
    ("ꮭ", "Ꮭ"); ("ꮮ", "Ꮮ"); ("ꮯ", "Ꮯ"); ("ꮰ", "Ꮰ"); ("ꮱ", "Ꮱ"); ("ꮲ", "Ꮲ");
    ("ꮳ", "Ꮳ"); ("ꮴ", "Ꮴ"); ("ꮵ", "Ꮵ"); ("ꮶ", "Ꮶ"); ("ꮷ", "Ꮷ"); ("ꮸ", "Ꮸ");
    ("ꮹ", "Ꮹ"); ("ꮺ", "Ꮺ"); ("ꮻ", "Ꮻ"); ("ꮼ", "Ꮼ"); ("ꮽ", "Ꮽ"); ("ꮾ", "Ꮾ") ].

Definition uppercase_11 : list (string * string) :=
  [ ("ꮿ", "Ꮿ"); ("ﬀ", "FF"); ("ﬁ", "FI"); ("ﬂ", "FL"); ("ﬃ", "FFI"); ("ﬄ", "FFL");
    ("ﬅ", "ST"); ("ﬆ", "ST"); ("ﬓ", "ՄՆ"); ("ﬔ", "ՄԵ"); ("ﬕ", "ՄԻ"); ("ﬖ", "ՎՆ");
    ("ﬗ", "ՄԽ"); ("ａ", "Ａ"); ("ｂ", "Ｂ"); ("ｃ", "Ｃ"); ("ｄ", "Ｄ"); ("ｅ", "Ｅ");
    ("ｆ", "Ｆ"); ("ｇ", "Ｇ"); ("ｈ", "Ｈ"); ("ｉ", "Ｉ"); ("ｊ", "Ｊ"); ("ｋ", "Ｋ");
    ("ｌ", "Ｌ"); ("ｍ", "Ｍ"); ("ｎ", "Ｎ"); ("ｏ", "Ｏ"); ("ｐ", "Ｐ"); ("ｑ", "Ｑ");
    ("ｒ", "Ｒ"); ("ｓ", "Ｓ"); ("ｔ", "Ｔ"); ("ｕ", "Ｕ"); ("ｖ", "Ｖ"); ("ｗ", "Ｗ");
    ("ｘ", "Ｘ"); ("ｙ", "Ｙ"); ("ｚ", "Ｚ"); ("𐐨", "𐐀"); ("𐐩", "𐐁"); ("𐐪", "𐐂");
    ("𐐫", "𐐃"); ("𐐬", "𐐄"); ("𐐭", "𐐅"); ("𐐮", "𐐆"); ("𐐯", "𐐇"); ("𐐰", "𐐈");
    ("𐐱", "𐐉"); ("𐐲", "𐐊"); ("𐐳", "𐐋"); ("𐐴", "𐐌"); ("𐐵", "𐐍"); ("𐐶", "𐐎");
    ("𐐷", "𐐏"); ("𐐸", "𐐐"); ("𐐹", "𐐑"); ("𐐺", "𐐒"); ("𐐻", "𐐓"); ("𐐼", "𐐔");
    ("𐐽", "𐐕"); ("𐐾", "𐐖"); ("𐐿", "𐐗"); ("𐑀", "𐐘"); ("𐑁", "𐐙"); ("𐑂", "𐐚");
    ("𐑃", "𐐛"); ("𐑄", "𐐜"); ("𐑅", "𐐝"); ("𐑆", "𐐞"); ("𐑇", "𐐟"); ("𐑈", "𐐠");
    ("𐑉", "𐐡"); ("𐑊", "𐐢"); ("𐑋", "𐐣"); ("𐑌", "𐐤"); ("𐑍", "𐐥"); ("𐑎", "𐐦");
    ("𐑏", "𐐧"); ("𐓘", "𐒰"); ("𐓙", "𐒱"); ("𐓚", "𐒲"); ("𐓛", "𐒳"); ("𐓜", "𐒴");
    ("𐓝", "𐒵"); ("𐓞", "𐒶"); ("𐓟", "𐒷"); ("𐓠", "𐒸"); ("𐓡", "𐒹"); ("𐓢", "𐒺");
    ("𐓣", "𐒻"); ("𐓤", "𐒼"); ("𐓥", "𐒽"); ("𐓦", "𐒾"); ("𐓧", "𐒿"); ("𐓨", "𐓀");
    ("𐓩", "𐓁"); ("𐓪", "𐓂"); ("𐓫", "𐓃"); ("𐓬", "𐓄"); ("𐓭", "𐓅"); ("𐓮", "𐓆");
    ("𐓯", "𐓇"); ("𐓰", "𐓈"); ("𐓱", "𐓉"); ("𐓲", "𐓊"); ("𐓳", "𐓋"); ("𐓴", "𐓌");
    ("𐓵", "𐓍"); ("𐓶", "𐓎"); ("𐓷", "𐓏"); ("𐓸", "𐓐"); ("𐓹", "𐓑"); ("𐓺", "𐓒");
    ("𐓻", "𐓓"); ("𐖗", "𐕰"); ("𐖘", "𐕱"); ("𐖙", "𐕲"); ("𐖚", "𐕳"); ("𐖛", "𐕴") ].

Definition uppercase_12 : list (string * string) :=
  [ ("𐖜", "𐕵"); ("𐖝", "𐕶"); ("𐖞", "𐕷"); ("𐖟", "𐕸"); ("𐖠", "𐕹"); ("𐖡", "𐕺");
    ("𐖣", "𐕼"); ("𐖤", "𐕽"); ("𐖥", "𐕾"); ("𐖦", "𐕿"); ("𐖧", "𐖀"); ("𐖨", "𐖁");
    ("𐖩", "𐖂"); ("𐖪", "𐖃"); ("𐖫", "𐖄"); ("𐖬", "𐖅"); ("𐖭", "𐖆"); ("𐖮", "𐖇");
    ("𐖯", "𐖈"); ("𐖰", "𐖉"); ("𐖱", "𐖊"); ("𐖳", "𐖌"); ("𐖴", "𐖍"); ("𐖵", "𐖎");
    ("𐖶", "𐖏"); ("𐖷", "𐖐"); ("𐖸", "𐖑"); ("𐖹", "𐖒"); ("𐖻", "𐖔"); ("𐖼", "𐖕");
    ("𐳀", "𐲀"); ("𐳁", "𐲁"); ("𐳂", "𐲂"); ("𐳃", "𐲃"); ("𐳄", "𐲄"); ("𐳅", "𐲅");
    ("𐳆", "𐲆"); ("𐳇", "𐲇"); ("𐳈", "𐲈"); ("𐳉", "𐲉"); ("𐳊", "𐲊"); ("𐳋", "𐲋");
    ("𐳌", "𐲌"); ("𐳍", "𐲍"); ("𐳎", "𐲎"); ("𐳏", "𐲏"); ("𐳐", "𐲐"); ("𐳑", "𐲑");
    ("𐳒", "𐲒"); ("𐳓", "𐲓"); ("𐳔", "𐲔"); ("𐳕", "𐲕"); ("𐳖", "𐲖"); ("𐳗", "𐲗");
    ("𐳘", "𐲘"); ("𐳙", "𐲙"); ("𐳚", "𐲚"); ("𐳛", "𐲛"); ("𐳜", "𐲜"); ("𐳝", "𐲝");
    ("𐳞", "𐲞"); ("𐳟", "𐲟"); ("𐳠", "𐲠"); ("𐳡", "𐲡"); ("𐳢", "𐲢"); ("𐳣", "𐲣");
    ("𐳤", "𐲤"); ("𐳥", "𐲥"); ("𐳦", "𐲦"); ("𐳧", "𐲧"); ("𐳨", "𐲨"); ("𐳩", "𐲩");
    ("𐳪", "𐲪"); ("𐳫", "𐲫"); ("𐳬", "𐲬"); ("𐳭", "𐲭"); ("𐳮", "𐲮"); ("𐳯", "𐲯");
    ("𐳰", "𐲰"); ("𐳱", "𐲱"); ("𐳲", "𐲲"); ("𑣀", "𑢠"); ("𑣁", "𑢡"); ("𑣂", "𑢢");
    ("𑣃", "𑢣"); ("𑣄", "𑢤"); ("𑣅", "𑢥"); ("𑣆", "𑢦"); ("𑣇", "𑢧"); ("𑣈", "𑢨");
    ("𑣉", "𑢩"); ("𑣊", "𑢪"); ("𑣋", "𑢫"); ("𑣌", "𑢬"); ("𑣍", "𑢭"); ("𑣎", "𑢮");
    ("𑣏", "𑢯"); ("𑣐", "𑢰"); ("𑣑", "𑢱"); ("𑣒", "𑢲"); ("𑣓", "𑢳"); ("𑣔", "𑢴");
    ("𑣕", "𑢵"); ("𑣖", "𑢶"); ("𑣗", "𑢷"); ("𑣘", "𑢸"); ("𑣙", "𑢹"); ("𑣚", "𑢺");
    ("𑣛", "𑢻"); ("𑣜", "𑢼"); ("𑣝", "𑢽"); ("𑣞", "𑢾"); ("𑣟", "𑢿"); ("𖹠", "𖹀");
    ("𖹡", "𖹁"); ("𖹢", "𖹂"); ("𖹣", "𖹃"); ("𖹤", "𖹄"); ("𖹥", "𖹅"); ("𖹦", "𖹆") ].

Definition uppercase_13 : list (string * string) :=
  [ ("𖹧", "𖹇"); ("𖹨", "𖹈"); ("𖹩", "𖹉"); ("𖹪", "𖹊"); ("𖹫", "𖹋"); ("𖹬", "𖹌");
    ("𖹭", "𖹍"); ("𖹮", "𖹎"); ("𖹯", "𖹏"); ("𖹰", "𖹐"); ("𖹱", "𖹑"); ("𖹲", "𖹒");
    ("𖹳", "𖹓"); ("𖹴", "𖹔"); ("𖹵", "𖹕"); ("𖹶", "𖹖"); ("𖹷", "𖹗"); ("𖹸", "𖹘");
    ("𖹹", "𖹙"); ("𖹺", "𖹚"); ("𖹻", "𖹛"); ("𖹼", "𖹜"); ("𖹽", "𖹝"); ("𖹾", "𖹞");
    ("𖹿", "𖹟"); ("𞤢", "𞤀"); ("𞤣", "𞤁"); ("𞤤", "𞤂"); ("𞤥", "𞤃"); ("𞤦", "𞤄");
    ("𞤧", "𞤅"); ("𞤨", "𞤆"); ("𞤩", "𞤇"); ("𞤪", "𞤈"); ("𞤫", "𞤉"); ("𞤬", "𞤊");
    ("𞤭", "𞤋"); ("𞤮", "𞤌"); ("𞤯", "𞤍"); ("𞤰", "𞤎"); ("𞤱", "𞤏"); ("𞤲", "𞤐");
    ("𞤳", "𞤑"); ("𞤴", "𞤒"); ("𞤵", "𞤓"); ("𞤶", "𞤔"); ("𞤷", "𞤕"); ("𞤸", "𞤖");
    ("𞤹", "𞤗"); ("𞤺", "𞤘"); ("𞤻", "𞤙"); ("𞤼", "𞤚"); ("𞤽", "𞤛"); ("𞤾", "𞤜");
    ("𞤿", "𞤝"); ("𞥀", "𞤞"); ("𞥁", "𞤟"); ("𞥂", "𞤠"); ("𞥃", "𞤡") ].

(** The code points that [str.upper] changes, each with what it becomes. *)
Definition uppercase : list (string * string) :=
  (uppercase_latin
   ++ uppercase_1
   ++ uppercase_2
   ++ uppercase_3
   ++ uppercase_4
   ++ uppercase_5
   ++ uppercase_6
   ++ uppercase_7
   ++ uppercase_8
   ++ uppercase_9
   ++ uppercase_10
   ++ uppercase_11
   ++ uppercase_12
   ++ uppercase_13)%list.
Definition titlecase_1 : list (string * string) :=
  [ ("ß", "Ss"); ("Ǆ", "ǅ"); ("ǅ", "ǅ"); ("ǆ", "ǅ"); ("Ǉ", "ǈ"); ("ǈ", "ǈ");
    ("ǉ", "ǈ"); ("Ǌ", "ǋ"); ("ǋ", "ǋ"); ("ǌ", "ǋ"); ("Ǳ", "ǲ"); ("ǲ", "ǲ");
    ("ǳ", "ǲ"); ("և", "Եւ"); ("ა", "ა"); ("ბ", "ბ"); ("გ", "გ"); ("დ", "დ");
    ("ე", "ე"); ("ვ", "ვ"); ("ზ", "ზ"); ("თ", "თ"); ("ი", "ი"); ("კ", "კ");
    ("ლ", "ლ"); ("მ", "მ"); ("ნ", "ნ"); ("ო", "ო"); ("პ", "პ"); ("ჟ", "ჟ");
    ("რ", "რ"); ("ს", "ს"); ("ტ", "ტ"); ("უ", "უ"); ("ფ", "ფ"); ("ქ", "ქ");
    ("ღ", "ღ"); ("ყ", "ყ"); ("შ", "შ"); ("ჩ", "ჩ"); ("ც", "ც"); ("ძ", "ძ");
    ("წ", "წ"); ("ჭ", "ჭ"); ("ხ", "ხ"); ("ჯ", "ჯ"); ("ჰ", "ჰ"); ("ჱ", "ჱ");
    ("ჲ", "ჲ"); ("ჳ", "ჳ"); ("ჴ", "ჴ"); ("ჵ", "ჵ"); ("ჶ", "ჶ"); ("ჷ", "ჷ");
    ("ჸ", "ჸ"); ("ჹ", "ჹ"); ("ჺ", "ჺ"); ("ჽ", "ჽ"); ("ჾ", "ჾ"); ("ჿ", "ჿ");
    ("ᾀ", "ᾈ"); ("ᾁ", "ᾉ"); ("ᾂ", "ᾊ"); ("ᾃ", "ᾋ"); ("ᾄ", "ᾌ"); ("ᾅ", "ᾍ");
    ("ᾆ", "ᾎ"); ("ᾇ", "ᾏ"); ("ᾈ", "ᾈ"); ("ᾉ", "ᾉ"); ("ᾊ", "ᾊ"); ("ᾋ", "ᾋ");
    ("ᾌ", "ᾌ"); ("ᾍ", "ᾍ"); ("ᾎ", "ᾎ"); ("ᾏ", "ᾏ"); ("ᾐ", "ᾘ"); ("ᾑ", "ᾙ");
    ("ᾒ", "ᾚ"); ("ᾓ", "ᾛ"); ("ᾔ", "ᾜ"); ("ᾕ", "ᾝ"); ("ᾖ", "ᾞ"); ("ᾗ", "ᾟ");
    ("ᾘ", "ᾘ"); ("ᾙ", "ᾙ"); ("ᾚ", "ᾚ"); ("ᾛ", "ᾛ"); ("ᾜ", "ᾜ"); ("ᾝ", "ᾝ");
    ("ᾞ", "ᾞ"); ("ᾟ", "ᾟ"); ("ᾠ", "ᾨ"); ("ᾡ", "ᾩ"); ("ᾢ", "ᾪ"); ("ᾣ", "ᾫ");
    ("ᾤ", "ᾬ"); ("ᾥ", "ᾭ"); ("ᾦ", "ᾮ"); ("ᾧ", "ᾯ"); ("ᾨ", "ᾨ"); ("ᾩ", "ᾩ");
    ("ᾪ", "ᾪ"); ("ᾫ", "ᾫ"); ("ᾬ", "ᾬ"); ("ᾭ", "ᾭ"); ("ᾮ", "ᾮ"); ("ᾯ", "ᾯ");
    ("ᾲ", "Ὰͅ"); ("ᾳ", "ᾼ"); ("ᾴ", "Άͅ"); ("ᾷ", "ᾼ͂"); ("ᾼ", "ᾼ"); ("ῂ", "Ὴͅ");
    ("ῃ", "ῌ"); ("ῄ", "Ήͅ"); ("ῇ", "ῌ͂"); ("ῌ", "ῌ"); ("ῲ", "Ὼͅ"); ("ῳ", "ῼ") ].

Definition titlecase_2 : list (string * string) :=
  [ ("ῴ", "Ώͅ"); ("ῷ", "ῼ͂"); ("ῼ", "ῼ"); ("ﬀ", "Ff"); ("ﬁ", "Fi"); ("ﬂ", "Fl");
    ("ﬃ", "Ffi"); ("ﬄ", "Ffl"); ("ﬅ", "St"); ("ﬆ", "St"); ("ﬓ", "Մն"); ("ﬔ", "Մե");
    ("ﬕ", "Մի"); ("ﬖ", "Վն"); ("ﬗ", "Մխ") ].

(** The code points whose title-case form is not their upper-case form,
    each with its title-case form. *)
Definition titlecase : list (string * string) :=
  (titlecase_1
   ++ titlecase_2)%list.
Definition cased_1 : list (string * string) :=
  [ ("A", "Z"); ("a", "z"); ("ª", "ª"); ("µ", "µ"); ("º", "º"); ("À", "Ö");
    ("Ø", "ö"); ("ø", "ƺ"); ("Ƽ", "ƿ"); ("Ǆ", "ʓ"); ("ʕ", "ʸ"); ("ˀ", "ˁ");
    ("ˠ", "ˤ"); ("ͅ", "ͅ"); ("Ͱ", "ͳ"); ("Ͷ", "ͷ"); ("ͺ", "ͽ"); ("Ϳ", "Ϳ");
    ("Ά", "Ά"); ("Έ", "Ί"); ("Ό", "Ό"); ("Ύ", "Ρ"); ("Σ", "ϵ"); ("Ϸ", "ҁ");
    ("Ҋ", "ԯ"); ("Ա", "Ֆ"); ("ՠ", "ֈ"); ("Ⴀ", "Ⴥ"); ("Ⴧ", "Ⴧ"); ("Ⴭ", "Ⴭ");
    ("ა", "ჺ"); ("ჽ", "ჿ"); ("Ꭰ", "Ᏽ"); ("ᏸ", "ᏽ"); ("ᲀ", "ᲈ"); ("Ა", "Ჺ");
    ("Ჽ", "Ჿ"); ("ᴀ", "ᶿ"); ("Ḁ", "ἕ"); ("Ἐ", "Ἕ"); ("ἠ", "ὅ"); ("Ὀ", "Ὅ");
    ("ὐ", "ὗ"); ("Ὑ", "Ὑ"); ("Ὓ", "Ὓ"); ("Ὕ", "Ὕ"); ("Ὗ", "ώ"); ("ᾀ", "ᾴ");
    ("ᾶ", "ᾼ"); ("ι", "ι"); ("ῂ", "ῄ"); ("ῆ", "ῌ"); ("ῐ", "ΐ"); ("ῖ", "Ί");
    ("ῠ", "Ῥ"); ("ῲ", "ῴ"); ("ῶ", "ῼ"); ("ⁱ", "ⁱ"); ("ⁿ", "ⁿ"); ("ₐ", "ₜ");
    ("ℂ", "ℂ"); ("ℇ", "ℇ"); ("ℊ", "ℓ"); ("ℕ", "ℕ"); ("ℙ", "ℝ"); ("ℤ", "ℤ");
    ("Ω", "Ω"); ("ℨ", "ℨ"); ("K", "ℭ"); ("ℯ", "ℴ"); ("ℹ", "ℹ"); ("ℼ", "ℿ");
    ("ⅅ", "ⅉ"); ("ⅎ", "ⅎ"); ("Ⅰ", "ⅿ"); ("Ↄ", "ↄ"); ("Ⓐ", "ⓩ"); ("Ⰰ", "ⳤ");
    ("Ⳬ", "ⳮ"); ("Ⳳ", "ⳳ"); ("ⴀ", "ⴥ"); ("ⴧ", "ⴧ"); ("ⴭ", "ⴭ"); ("Ꙁ", "ꙭ");
    ("Ꚁ", "ꚝ"); ("Ꜣ", "ꞇ"); ("Ꞌ", "ꞎ"); ("Ꞑ", "ꟊ"); ("Ꟑ", "ꟑ"); ("ꟓ", "ꟓ");
    ("ꟕ", "ꟙ"); ("Ꟶ", "ꟶ"); ("ꟸ", "ꟺ"); ("ꬰ", "ꭚ"); ("ꭜ", "ꭨ"); ("ꭰ", "ꮿ");
    ("ﬀ", "ﬆ"); ("ﬓ", "ﬗ"); ("Ａ", "Ｚ"); ("ａ", "ｚ"); ("𐐀", "𐑏"); ("𐒰", "𐓓");
    ("𐓘", "𐓻"); ("𐕰", "𐕺"); ("𐕼", "𐖊"); ("𐖌", "𐖒"); ("𐖔", "𐖕"); ("𐖗", "𐖡");
    ("𐖣", "𐖱"); ("𐖳", "𐖹"); ("𐖻", "𐖼"); ("𐞀", "𐞀"); ("𐞃", "𐞅"); ("𐞇", "𐞰");
    ("𐞲", "𐞺"); ("𐲀", "𐲲"); ("𐳀", "𐳲"); ("𑢠", "𑣟"); ("𖹀", "𖹿"); ("𝐀", "𝑔") ].

Definition cased_2 : list (string * string) :=
  [ ("𝑖", "𝒜"); ("𝒞", "𝒟"); ("𝒢", "𝒢"); ("𝒥", "𝒦"); ("𝒩", "𝒬"); ("𝒮", "𝒹");
    ("𝒻", "𝒻"); ("𝒽", "𝓃"); ("𝓅", "𝔅"); ("𝔇", "𝔊"); ("𝔍", "𝔔"); ("𝔖", "𝔜");
    ("𝔞", "𝔹"); ("𝔻", "𝔾"); ("𝕀", "𝕄"); ("𝕆", "𝕆"); ("𝕊", "𝕐"); ("𝕒", "𝚥");
    ("𝚨", "𝛀"); ("𝛂", "𝛚"); ("𝛜", "𝛺"); ("𝛼", "𝜔"); ("𝜖", "𝜴"); ("𝜶", "𝝎");
    ("𝝐", "𝝮"); ("𝝰", "𝞈"); ("𝞊", "𝞨"); ("𝞪", "𝟂"); ("𝟄", "𝟋"); ("𝼀", "𝼉");
    ("𝼋", "𝼞"); ("𞤀", "𞥃"); ("🄰", "🅉"); ("🅐", "🅩"); ("🅰", "🆉") ].

(** The cased code points, as ranges (first, last). *)
Definition cased : list (string * string) :=
  (cased_1
   ++ cased_2)%list.
Definition case_ignorable_1 : list (string * string) :=
  [ ("'", "'"); (".", "."); (":", ":"); ("^", "^"); ("`", "`"); ("¨", "¨");
    ("­", "­"); ("¯", "¯"); ("´", "´"); ("·", "¸"); ("ʰ", "ͯ"); ("ʹ", "͵");
    ("ͺ", "ͺ"); ("΄", "΅"); ("·", "·"); ("҃", "҉"); ("ՙ", "ՙ"); ("՟", "՟");
    ("֑", "ֽ"); ("ֿ", "ֿ"); ("ׁ", "ׂ"); ("ׄ", "ׅ"); ("ׇ", "ׇ"); ("״", "״");
    ("؀", "؅"); ("ؐ", "ؚ"); ("؜", "؜"); ("ـ", "ـ"); ("ً", "ٟ"); ("ٰ", "ٰ");
    ("ۖ", "۝"); ("۟", "ۨ"); ("۪", "ۭ"); ("܏", "܏"); ("ܑ", "ܑ"); ("ܰ", "݊");
    ("ަ", "ް"); ("߫", "ߵ"); ("ߺ", "ߺ"); ("߽", "߽"); ("ࠖ", "࠭"); ("࡙", "࡛");
    ("࢈", "࢈"); ("࢐", "࢑"); ("࢘", "࢟"); ("ࣉ", "ं"); ("ऺ", "ऺ"); ("़", "़");
    ("ु", "ै"); ("्", "्"); ("॑", "ॗ"); ("ॢ", "ॣ"); ("ॱ", "ॱ"); ("ঁ", "ঁ");
    ("়", "়"); ("ু", "ৄ"); ("্", "্"); ("ৢ", "ৣ"); ("৾", "৾"); ("ਁ", "ਂ");
    ("਼", "਼"); ("ੁ", "ੂ"); ("ੇ", "ੈ"); ("ੋ", "੍"); ("ੑ", "ੑ"); ("ੰ", "ੱ");
    ("ੵ", "ੵ"); ("ઁ", "ં"); ("઼", "઼"); ("ુ", "ૅ"); ("ે", "ૈ"); ("્", "્");
    ("ૢ", "ૣ"); ("ૺ", "૿"); ("ଁ", "ଁ"); ("଼", "଼"); ("ି", "ି"); ("ୁ", "ୄ");
    ("୍", "୍"); ("୕", "ୖ"); ("ୢ", "ୣ"); ("ஂ", "ஂ"); ("ீ", "ீ"); ("்", "்");
    ("ఀ", "ఀ"); ("ఄ", "ఄ"); ("఼", "఼"); ("ా", "ీ"); ("ె", "ై"); ("ొ", "్");
    ("ౕ", "ౖ"); ("ౢ", "ౣ"); ("ಁ", "ಁ"); ("಼", "಼"); ("ಿ", "ಿ"); ("ೆ", "ೆ");
    ("ೌ", "್"); ("ೢ", "ೣ"); ("ഀ", "ഁ"); ("഻", "഼"); ("ു", "ൄ"); ("്", "്");
    ("ൢ", "ൣ"); ("ඁ", "ඁ"); ("්", "්"); ("ි", "ු"); ("ූ", "ූ"); ("ั", "ั");
    ("ิ", "ฺ"); ("ๆ", "๎"); ("ັ", "ັ"); ("ິ", "ຼ"); ("ໆ", "ໆ"); ("່", "ໍ");
    ("༘", "༙"); ("༵", "༵"); ("༷", "༷"); ("༹", "༹"); ("ཱ", "ཾ"); ("ྀ", "྄") ].

Definition case_ignorable_2 : list (string * string) :=
  [ ("྆", "྇"); ("ྍ", "ྗ"); ("ྙ", "ྼ"); ("࿆", "࿆"); ("ိ", "ူ"); ("ဲ", "့");
    ("္", "်"); ("ွ", "ှ"); ("ၘ", "ၙ"); ("ၞ", "ၠ"); ("ၱ", "ၴ"); ("ႂ", "ႂ");
    ("ႅ", "ႆ"); ("ႍ", "ႍ"); ("ႝ", "ႝ"); ("ჼ", "ჼ"); ("፝", "፟"); ("ᜒ", "᜔");
    ("ᜲ", "ᜳ"); ("ᝒ", "ᝓ"); ("ᝲ", "ᝳ"); ("឴", "឵"); ("ិ", "ួ"); ("ំ", "ំ");
    ("៉", "៓"); ("ៗ", "ៗ"); ("៝", "៝"); ("᠋", "᠏"); ("ᡃ", "ᡃ"); ("ᢅ", "ᢆ");
    ("ᢩ", "ᢩ"); ("ᤠ", "ᤢ"); ("ᤧ", "ᤨ"); ("ᤲ", "ᤲ"); ("᤹", "᤻"); ("ᨗ", "ᨘ");
    ("ᨛ", "ᨛ"); ("ᩖ", "ᩖ"); ("ᩘ", "ᩞ"); ("᩠", "᩠"); ("ᩢ", "ᩢ"); ("ᩥ", "ᩬ");
    ("ᩳ", "᩼"); ("᩿", "᩿"); ("ᪧ", "ᪧ"); ("᪰", "ᫎ"); ("ᬀ", "ᬃ"); ("᬴", "᬴");
    ("ᬶ", "ᬺ"); ("ᬼ", "ᬼ"); ("ᭂ", "ᭂ"); ("᭫", "᭳"); ("ᮀ", "ᮁ"); ("ᮢ", "ᮥ");
    ("ᮨ", "ᮩ"); ("᮫", "ᮭ"); ("᯦", "᯦"); ("ᯨ", "ᯩ"); ("ᯭ", "ᯭ"); ("ᯯ", "ᯱ");
    ("ᰬ", "ᰳ"); ("ᰶ", "᰷"); ("ᱸ", "ᱽ"); ("᳐", "᳒"); ("᳔", "᳠"); ("᳢", "᳨");
    ("᳭", "᳭"); ("᳴", "᳴"); ("᳸", "᳹"); ("ᴬ", "ᵪ"); ("ᵸ", "ᵸ"); ("ᶛ", "᷿");
    ("᾽", "᾽"); ("᾿", "῁"); ("῍", "῏"); ("῝", "῟"); ("῭", "`"); ("´", "῾");
    ("​", "‏"); ("‘", "’"); ("․", "․"); ("‧", "‧"); ("‪", "‮"); ("⁠", "⁤");
    ("⁦", "⁯"); ("ⁱ", "ⁱ"); ("ⁿ", "ⁿ"); ("ₐ", "ₜ"); ("⃐", "⃰"); ("ⱼ", "ⱽ");
    ("⳯", "⳱"); ("ⵯ", "ⵯ"); ("⵿", "⵿"); ("ⷠ", "ⷿ"); ("ⸯ", "ⸯ"); ("々", "々");
    ("〪", "〭"); ("〱", "〵"); ("〻", "〻"); ("゙", "ゞ"); ("ー", "ヾ"); ("ꀕ", "ꀕ");
    ("ꓸ", "ꓽ"); ("ꘌ", "ꘌ"); ("꙯", "꙲"); ("ꙴ", "꙽"); ("ꙿ", "ꙿ"); ("ꚜ", "ꚟ");
    ("꛰", "꛱"); ("꜀", "꜡"); ("ꝰ", "ꝰ"); ("ꞈ", "꞊"); ("ꟲ", "ꟴ"); ("ꟸ", "ꟹ");
    ("ꠂ", "ꠂ"); ("꠆", "꠆"); ("ꠋ", "ꠋ"); ("ꠥ", "ꠦ"); ("꠬", "꠬"); ("꣄", "ꣅ") ].

Definition case_ignorable_3 : list (string * string) :=
  [ ("꣠", "꣱"); ("ꣿ", "ꣿ"); ("ꤦ", "꤭"); ("ꥇ", "ꥑ"); ("ꦀ", "ꦂ"); ("꦳", "꦳");
    ("ꦶ", "ꦹ"); ("ꦼ", "ꦽ"); ("ꧏ", "ꧏ"); ("ꧥ", "ꧦ"); ("ꨩ", "ꨮ"); ("ꨱ", "ꨲ");
    ("ꨵ", "ꨶ"); ("ꩃ", "ꩃ"); ("ꩌ", "ꩌ"); ("ꩰ", "ꩰ"); ("ꩼ", "ꩼ"); ("ꪰ", "ꪰ");
    ("ꪲ", "ꪴ"); ("ꪷ", "ꪸ"); ("ꪾ", "꪿"); ("꫁", "꫁"); ("ꫝ", "ꫝ"); ("ꫬ", "ꫭ");
    ("ꫳ", "ꫴ"); ("꫶", "꫶"); ("꭛", "ꭟ"); ("ꭩ", "꭫"); ("ꯥ", "ꯥ"); ("ꯨ", "ꯨ");
    ("꯭", "꯭"); ("ﬞ", "ﬞ"); ("﮲", "﯂"); ("︀", "️"); ("︓", "︓"); ("︠", "︯");
    ("﹒", "﹒"); ("﹕", "﹕"); ("﻿", "﻿"); ("＇", "＇"); ("．", "．"); ("：", "：");
    ("＾", "＾"); ("｀", "｀"); ("ｰ", "ｰ"); ("ﾞ", "ﾟ"); ("￣", "￣"); ("￹", "￻");
    ("𐇽", "𐇽"); ("𐋠", "𐋠"); ("𐍶", "𐍺"); ("𐞀", "𐞅"); ("𐞇", "𐞰"); ("𐞲", "𐞺");
    ("𐨁", "𐨃"); ("𐨅", "𐨆"); ("𐨌", "𐨏"); ("𐨸", "𐨺"); ("𐨿", "𐨿"); ("𐫥", "𐫦");
    ("𐴤", "𐴧"); ("𐺫", "𐺬"); ("𐽆", "𐽐"); ("𐾂", "𐾅"); ("𑀁", "𑀁"); ("𑀸", "𑁆");
    ("𑁰", "𑁰"); ("𑁳", "𑁴"); ("𑁿", "𑂁"); ("𑂳", "𑂶"); ("𑂹", "𑂺"); ("𑂽", "𑂽");
    ("𑃂", "𑃂"); ("𑃍", "𑃍"); ("𑄀", "𑄂"); ("𑄧", "𑄫"); ("𑄭", "𑄴"); ("𑅳", "𑅳");
    ("𑆀", "𑆁"); ("𑆶", "𑆾"); ("𑇉", "𑇌"); ("𑇏", "𑇏"); ("𑈯", "𑈱"); ("𑈴", "𑈴");
    ("𑈶", "𑈷"); ("𑈾", "𑈾"); ("𑋟", "𑋟"); ("𑋣", "𑋪"); ("𑌀", "𑌁"); ("𑌻", "𑌼");
    ("𑍀", "𑍀"); ("𑍦", "𑍬"); ("𑍰", "𑍴"); ("𑐸", "𑐿"); ("𑑂", "𑑄"); ("𑑆", "𑑆");
    ("𑑞", "𑑞"); ("𑒳", "𑒸"); ("𑒺", "𑒺"); ("𑒿", "𑓀"); ("𑓂", "𑓃"); ("𑖲", "𑖵");
    ("𑖼", "𑖽"); ("𑖿", "𑗀"); ("𑗜", "𑗝"); ("𑘳", "𑘺"); ("𑘽", "𑘽"); ("𑘿", "𑙀");
    ("𑚫", "𑚫"); ("𑚭", "𑚭"); ("𑚰", "𑚵"); ("𑚷", "𑚷"); ("𑜝", "𑜟"); ("𑜢", "𑜥");
    ("𑜧", "𑜫"); ("𑠯", "𑠷"); ("𑠹", "𑠺"); ("𑤻", "𑤼"); ("𑤾", "𑤾"); ("𑥃", "𑥃") ].

Definition case_ignorable_4 : list (string * string) :=
  [ ("𑧔", "𑧗"); ("𑧚", "𑧛"); ("𑧠", "𑧠"); ("𑨁", "𑨊"); ("𑨳", "𑨸"); ("𑨻", "𑨾");
    ("𑩇", "𑩇"); ("𑩑", "𑩖"); ("𑩙", "𑩛"); ("𑪊", "𑪖"); ("𑪘", "𑪙"); ("𑰰", "𑰶");
    ("𑰸", "𑰽"); ("𑰿", "𑰿"); ("𑲒", "𑲧"); ("𑲪", "𑲰"); ("𑲲", "𑲳"); ("𑲵", "𑲶");
    ("𑴱", "𑴶"); ("𑴺", "𑴺"); ("𑴼", "𑴽"); ("𑴿", "𑵅"); ("𑵇", "𑵇"); ("𑶐", "𑶑");
    ("𑶕", "𑶕"); ("𑶗", "𑶗"); ("𑻳", "𑻴"); ("𓐰", "𓐸"); ("𖫰", "𖫴"); ("𖬰", "𖬶");
    ("𖭀", "𖭃"); ("𖽏", "𖽏"); ("𖾏", "𖾟"); ("𖿠", "𖿡"); ("𖿣", "𖿤"); ("𚿰", "𚿳");
    ("𚿵", "𚿻"); ("𚿽", "𚿾"); ("𛲝", "𛲞"); ("𛲠", "𛲣"); ("𜼀", "𜼭"); ("𜼰", "𜽆");
    ("𝅧", "𝅩"); ("𝅳", "𝆂"); ("𝆅", "𝆋"); ("𝆪", "𝆭"); ("𝉂", "𝉄"); ("𝨀", "𝨶");
    ("𝨻", "𝩬"); ("𝩵", "𝩵"); ("𝪄", "𝪄"); ("𝪛", "𝪟"); ("𝪡", "𝪯"); ("𞀀", "𞀆");
    ("𞀈", "𞀘"); ("𞀛", "𞀡"); ("𞀣", "𞀤"); ("𞀦", "𞀪"); ("𞄰", "𞄽"); ("𞊮", "𞊮");
    ("𞋬", "𞋯"); ("𞣐", "𞣖"); ("𞥄", "𞥋"); ("🏻", "🏿"); ("󠀁", "󠀁"); ("󠀠", "󠁿");
    ("󠄀", "󠇯") ].

(** The case-ignorable code points, as ranges (first, last). *)
Definition case_ignorable : list (string * string) :=
  (case_ignorable_1
   ++ case_ignorable_2
   ++ case_ignorable_3
   ++ case_ignorable_4)%list.
End Unicode.

(** ** The methods of [str] used by the service *)

(** Code points of a string: a byte in 128..191 continues the code point
    that the bytes before it started. *)
Definition is_continuation (c : ascii) : bool :=
  (128 <=? nat_of_ascii c) && (nat_of_ascii c <=? 191).

Module PyStr.

(** Letter case of a byte: the 26 Latin letters of the ASCII range. *)

Definition is_upper (c : ascii) : bool :=
  (65 <=? nat_of_ascii c) && (nat_of_ascii c <=? 90).

Definition is_lower (c : ascii) : bool :=
  (97 <=? nat_of_ascii c) && (nat_of_ascii c <=? 122).

Definition lower_char (c : ascii) : ascii :=
  if is_upper c then ascii_of_nat (nat_of_ascii c + 32) else c.

Definition upper_char (c : ascii) : ascii :=
  if is_lower c then ascii_of_nat (nat_of_ascii c - 32) else c.

(** The code points of a string, each as its UTF-8 bytes: a byte opens a
    code point unless it is a continuation byte. *)
Fixpoint chars (s : string) : list string :=
  match s with
  | EmptyString => []
  | String c s' =>
      match chars s' with
      | String d ch :: rest =>
          if is_continuation d then String c (String d ch) :: rest
          else String c EmptyString :: String d ch :: rest
      | rest => String c EmptyString :: rest
      end
  end.

(** [''.join(l)] *)
Fixpoint join (l : list string) : string :=
  match l with
  | [] => EmptyString
  | ch :: rest => ch ++ join rest
  end.

(** [d.get(k, default)] for a dict written as its literal. *)
Fixpoint get (d : list (string * string)) (k default : string) : string :=
  match d with
  | [] => default
  | (k', v) :: d' => if String.eqb k k' then v else get d' k default
  end.

(** Membership of a code point in a set given by ranges. *)
Fixpoint in_ranges (ranges : list (string * string)) (ch : string) : bool :=
  match ranges with
  | [] => false
  | (first, last) :: ranges' =>
      (String.leb first ch && String.leb ch last) || in_ranges ranges' ch
  end.

Definition is_cased (ch : string) : bool := in_ranges Unicode.cased ch.

Definition is_case_ignorable (ch : string) : bool :=
  in_ranges Unicode.case_ignorable ch.

Fixpoint skip_ignorable (l : list string) : list string :=
  match l with
  | [] => []
  | ch :: rest => if is_case_ignorable ch then skip_ignorable rest else l
  end.

(** The capital sigma is a final sigma when a cased code point comes
    before it and none comes after it, case-ignorable code points set
    aside; [before] lists the code points before it, the nearest first. *)
Definition final_sigma (before after : list string) : bool :=
  match skip_ignorable before with
  | [] => false
  | ch :: _ => is_cased ch
  end
  && match skip_ignorable after with
     | [] => true
     | ch :: _ => negb (is_cased ch)
     end.

(** The lower-case form of the code point [ch] between [before] and
    [after]. *)
Definition to_lower (before : list string) (ch : string) (after : list string)
  : string :=
  if String.eqb ch "Σ" then (if final_sigma before after then "ς" else "σ")
  else get Unicode.lowercase ch ch.

Definition to_upper (ch : string) : string := get Unicode.uppercase ch ch.

Definition to_title (ch : string) : string :=
  get Unicode.titlecase ch (to_upper ch).

Fixpoint lower_from (before l : list string) : list string :=
  match l with
  | [] => []
  | ch :: after => to_lower before ch after :: lower_from (ch :: before) after
  end.

(** [s.lower()] *)
Definition lower (s : string) : string := join (lower_from [] (chars s)).

(** [s.upper()] *)
Definition upper (s : string) : string := join (map to_upper (chars s)).

(** [s.capitalize()]: the first code point in title case, the rest in
    lower case. *)
Definition capitalize (s : string) : string :=
  match chars s with
  | [] => EmptyString
  | ch :: after => join (to_title ch :: lower_from [ch] after)
  end.

(** [s.title()]: a code point that follows a cased one is lower-cased,
    any other one is put in title case. *)
Fixpoint title_from (before : list string) (previous_is_cased : bool)
         (l : list string) : list string :=
  match l with
  | [] => []
  | ch :: after =>
      (if previous_is_cased then to_lower before ch after else to_title ch)
      :: title_from (ch :: before) (is_cased ch) after
  end.

Definition title (s : string) : string := join (title_from [] false (chars s)).

(** Whitespace, as [str.isspace] has it: U+0009..U+000D, U+001C..U+0020,
    U+0085, U+00A0, U+1680, U+2000..U+200A, U+2028, U+2029, U+202F,
    U+205F and U+3000, each recognised by its UTF-8 bytes. *)

Definition isspace1 (a : ascii) : bool :=
  let n := nat_of_ascii a in
  ((9 <=? n) && (n <=? 13)) || ((28 <=? n) && (n <=? 32)).

Definition isspace2 (a b : ascii) : bool :=
  (nat_of_ascii a =? 194)
  && ((nat_of_ascii b =? 133) || (nat_of_ascii b =? 160)).

Definition isspace3 (a b c : ascii) : bool :=
  let x := nat_of_ascii a in
  let y := nat_of_ascii b in
  let z := nat_of_ascii c in
  ((x =? 225) && (y =? 154) && (z =? 128))
  || ((x =? 226) && (y =? 128)
      && (((128 <=? z) && (z <=? 138))
          || (z =? 168) || (z =? 169) || (z =? 175)))
  || ((x =? 226) && (y =? 129) && (z =? 159))
  || ((x =? 227) && (y =? 128) && (z =? 128)).

(** Drops the leading whitespace; [w2] and [w3] recognise the two-byte
    and three-byte whitespace characters at the front of the string. *)
Fixpoint drop_spaces (w2 : ascii -> ascii -> bool)
         (w3 : ascii -> ascii -> ascii -> bool) (s : string) : string :=
  match s with
  | EmptyString => s
  | String a s1 =>
      if isspace1 a then drop_spaces w2 w3 s1
      else
        match s1 with
        | EmptyString => s
        | String b s2 =>
            if w2 a b then drop_spaces w2 w3 s2
            else
              match s2 with
              | EmptyString => s
              | String c s3 =>
                  if w3 a b c then drop_spaces w2 w3 s3 else s
              end
        end
  end.

Fixpoint reverse (s : string) : string :=
  match s with
  | EmptyString => EmptyString
  | String c s' => reverse s' ++ String c EmptyString
  end.

Definition lstrip (s : string) : string :=
  drop_spaces isspace2 isspace3 s.

Definition rstrip (s : string) : string :=
  reverse (drop_spaces (fun a b => isspace2 b a)
                       (fun a b c => isspace3 c b a) (reverse s)).

(** [s.strip()] *)
Definition strip (s : string) : string := rstrip (lstrip s).

(** Every character of [s] is whitespace ([s] may be empty). *)
Fixpoint only_spaces (s : string) : bool :=
  match s with
  | EmptyString => true
  | String a s1 =>
      if isspace1 a then only_spaces s1
      else
        match s1 with
        | EmptyString => false
        | String b s2 =>
            if isspace2 a b then only_spaces s2
            else
              match s2 with
              | EmptyString => false
              | String c s3 =>
                  if isspace3 a b c then only_spaces s3 else false
              end
        end
  end.

(** Truth value of a string: [bool(s)]. *)
Definition truthy (s : string) : bool :=
  match s with
  | EmptyString => false
  | String _ _ => true
  end.

(** [x or d] for an optional string [x]: [None] and the empty string
    are both false. *)
Definition or_else (x : option string) (d : string) : string :=
  match x with
  | Some s => if truthy s then s else d
  | None => d
  end.

(** [k in l] for a list or a set of strings. *)
Definition In_b (k : string) (l : list string) : bool :=
  existsb (String.eqb k) l.

(** [s.startswith(p)] *)
Fixpoint startswith (s p : string) {struct p} : bool :=
  match p with
  | EmptyString => true
  | String a p' =>
      match s with
      | EmptyString => false
      | String b s' => Ascii.eqb a b && startswith s' p'
      end
  end.

(** [sub in s] *)
Fixpoint contains (s sub : string) : bool :=
  startswith s sub ||
  match s with
  | EmptyString => false
  | String _ s' => contains s' sub
  end.

(** The line feed of the [\n] escapes. *)
Definition nl : string := String (ascii_of_nat 10) EmptyString.

End PyStr.

Import PyStr.

Arguments lower : simpl never.
Arguments upper : simpl never.
Arguments capitalize : simpl never.
Arguments title : simpl never.

(** ** Requests and results *)

Module CloseResponseRequest.
Record t : Type := mk {
  customer_message : string;
  brand_name : option string;
  offer : option string;
  tone : option string;
  language : option string
}.

(** A request that gives only the required field: [tone] and [language]
    take the defaults of their [Field]. *)
Definition of_message (customer_message : string) : t :=
  mk customer_message None None (Some "friendly") (Some "en").
End CloseResponseRequest.

Module CloseResponseVariant.
Record t : Type := mk {
  label : string;
  text : string
}.
End CloseResponseVariant.

Module CloseResponseResult.
Record t : Type := mk {
  brand_name : option string;
  tone : string;
  language : string;
  variants : list CloseResponseVariant.t
}.
End CloseResponseResult.

Module OutreachRequest.
Record t : Type := mk {
  platform : string;
  brand_name : option string;
  offer : string;
  target_audience : string;
  goal : string;
  tone : string;
  language : string
}.

(** A request that gives only the required fields: the others take the
    defaults of the class. *)
Definition of_required (platform offer target_audience : string) : t :=
  mk platform None offer target_audience "book a call" "friendly" "en".
End OutreachRequest.

Module OutreachResult.
Record t : Type := mk {
  platform : string;
  tone : string;
  language : string;
  variations : list string;
  tips : list string
}.
End OutreachResult.

(** What an endpoint gives back: the body of its response, or the
    [HTTPException] it raised. *)
Inductive response (A : Type) : Type :=
| Ok (body : A)
| HTTPException (status_code : nat) (detail : string).

Arguments Ok {A} body.
Arguments HTTPException {A} status_code detail.

(** ** The formatting helpers *)

Definition translations : list (string * string) :=
  [ ("es", "[ES] ");
    ("fr", "[FR] ");
    ("de", "[DE] ");
    ("pt", "[PT] ") ].

Definition _apply_language (text language : string) : string :=
  if In_b (lower language) ["en"; "english"; EmptyString] then text
  else
    let prefix :=
      get translations (lower language) ("[" ++ upper language ++ "] ") in
    prefix ++ text.

Definition mapping : list (string * string) :=
  [ ("friendly", "Friendly");
    ("confident", "Confident");
    ("professional", "Professional");
    ("casual", "Casual");
    ("warm", "Warm");
    ("persuasive", "Persuasive") ].

Definition _tone_prefix (tone : string) : string :=
  let t := lower (if truthy tone then tone else "friendly") in
  get mapping t (capitalize t).

(** ** The close-response generator *)

Definition base_variants (offer : string) : list (string * string) :=
  [ ("Direct Close",
     "Thanks for reaching out! Based on what you shared, " ++ offer
     ++ " is a great fit. If it works for you, I can reserve a spot and get you started today. Should I send the quick checkout link or a calendar to pick a time?");
    ("Value-First",
     "Appreciate your message! To make this easy: " ++ offer
     ++ " helps you get results fast with minimal setup. We can lock in pricing and onboard you in minutes. Would you prefer a short call or to receive the sign-up link?");
    ("Objection-Ready",
     "Totally understand your questions. Most clients like you chose " ++ offer
     ++ " because it’s simple and proven. Let me remove any roadblocks—what would help you decide today? I can share a quick demo or send the sign-up link.") ].

(** The body of the loop over [base_variants]: the variant appended for
    one (label, txt) pair. *)
Definition close_variant (tone brand lang : string)
           (item : string * string) : CloseResponseVariant.t :=
  let (label, txt) := item in
  let text := _tone_prefix tone ++ " • " ++ brand ++ ": " ++ txt in
  let text := _apply_language text lang in
  CloseResponseVariant.mk label text.

Definition generate_close_response (payload : CloseResponseRequest.t)
  : response CloseResponseResult.t :=
  if negb (truthy (strip (CloseResponseRequest.customer_message payload))) then
    HTTPException 400 "customer_message is required"
  else
    let brand := or_else (CloseResponseRequest.brand_name payload) "Our brand" in
    let offer := or_else (CloseResponseRequest.offer payload) "our solution" in
    let tone := or_else (CloseResponseRequest.tone payload) "friendly" in
    let lang := or_else (CloseResponseRequest.language payload) "en" in
    let variants :=
      fold_left (fun variants item =>
                   (variants ++ [close_variant tone brand lang item])%list)
                (base_variants offer) [] in
    Ok (CloseResponseResult.mk (CloseResponseRequest.brand_name payload)
                               tone lang variants).

(** ** The outreach generator *)

Definition accepted_platforms : list string :=
  ["instagram"; "linkedin"; "twitter"; "x"; "email"; "tiktok"].

Definition unsupported_platform : string :=
  "Unsupported platform. Use instagram, linkedin, twitter/x, email, tiktok".

(** The local function [wrap] of [generate_outreach]. *)
Definition wrap (tone lang text : string) : string :=
  _apply_language (_tone_prefix tone ++ " • " ++ text) lang.

Definition instagram_variations (brand offer audience goal : string)
  : list string :=
  [ "Hey " ++ audience ++ "! " ++ brand ++ " helps you with " ++ offer
    ++ ". Want a quick before/after and how it works? Drop a 🔥 and I’ll DM details. "
    ++ title goal ++ " in 2 clicks.";
    "Creators/Founders: struggling with " ++ audience
    ++ "? We’re helping teams with " ++ offer
    ++ ". Comment ‘GO’ and I’ll send a 20-sec overview and " ++ goal
    ++ " link." ].

Definition instagram_tips : list string :=
  [ "Keep it short, use an emoji hook";
    "Call to comment or DM for next step";
    "Use carousel to show quick proof" ].

Definition linkedin_variations (brand offer audience goal : string)
  : list string :=
  [ "Hi " ++ audience ++ ", I noticed you’re exploring ways to improve "
    ++ offer
    ++ ". We recently helped a team like yours and I’d be glad to share a 2-min summary. Open to a brief chat to "
    ++ goal ++ "?";
    brand ++ " helps " ++ audience ++ " achieve results with " ++ offer
    ++ ". If streamlining this is on your roadmap, I can share a concise one-pager and a link to "
    ++ goal ++ "." ].

Definition linkedin_tips : list string :=
  [ "Personalize with their role/company";
    "Lead with outcomes, not features";
    "End with a soft ask" ].

Definition twitter_variations (offer audience goal : string) : list string :=
  [ audience ++ ", quick win: " ++ offer
    ++ ". DMs open—happy to share a 60-sec rundown and a link to " ++ goal
    ++ ".";
    "We’re shipping tools for " ++ audience ++ ": " ++ offer
    ++ ". Reply ‘info’ and I’ll send the breakdown + " ++ goal ++ " link." ].

Definition twitter_tips : list string :=
  [ "One clear benefit"; "Invite replies/DMs"; "Keep < 280 chars" ].

Definition email_variations (offer audience goal : string) : list string :=
  [ "Subject: Quick idea for " ++ audience ++ nl ++ nl
    ++ "Hi there — Noticed you’re working on " ++ offer
    ++ ". We helped similar teams see fast results. If helpful, I can share a 2-min summary and a link to "
    ++ goal ++ ". Open to it?";
    "Subject: " ++ offer ++ " in a week" ++ nl ++ nl
    ++ "Hi — We built a simple way for " ++ audience
    ++ " to get results from " ++ offer
    ++ ". Happy to send a one-pager and next steps to " ++ goal
    ++ ". Interested?" ].

Definition email_tips : list string :=
  [ "Clear subject line"; "Keep body 3–5 sentences"; "One simple ask" ].

Definition tiktok_variations (offer audience goal : string) : list string :=
  [ "Hook: Struggling with " ++ audience ++ "?" ++ nl ++ nl
    ++ "Show: 3 quick cuts of " ++ offer ++ " results" ++ nl
    ++ "CTA: Comment ‘GO’ and I’ll DM how to " ++ goal ++ ".";
    "POV: You need " ++ offer ++ "." ++ nl
    ++ "B-Roll + captions → Outcome" ++ nl
    ++ "CTA: Link in bio to " ++ goal ++ "." ].

Definition tiktok_tips : list string :=
  [ "Lead with a strong hook in first 2s";
    "Use captions and on-screen text";
    "Clear CTA to comment or link in bio" ].

Definition generate_outreach (payload : OutreachRequest.t)
  : response OutreachResult.t :=
  let platform := lower (OutreachRequest.platform payload) in
  let tone := OutreachRequest.tone payload in
  let lang := OutreachRequest.language payload in
  let brand := or_else (OutreachRequest.brand_name payload) "We" in
  let offer := OutreachRequest.offer payload in
  let audience := OutreachRequest.target_audience payload in
  let goal := OutreachRequest.goal payload in
  if negb (In_b platform accepted_platforms) then
    HTTPException 400 unsupported_platform
  else
    let '(variations, tips) :=
      if String.eqb platform "instagram" then
        (map (wrap tone lang) (instagram_variations brand offer audience goal),
         instagram_tips)
      else if String.eqb platform "linkedin" then
        (map (wrap tone lang) (linkedin_variations brand offer audience goal),
         linkedin_tips)
      else if In_b platform ["twitter"; "x"] then
        (map (wrap tone lang) (twitter_variations offer audience goal),
         twitter_tips)
      else if String.eqb platform "email" then
        (map (wrap tone lang) (email_variations offer audience goal),
         email_tips)
      else if String.eqb platform "tiktok" then
        (map (wrap tone lang) (tiktok_variations offer audience goal),
         tiktok_tips)
      else ([], []) in
    Ok (OutreachResult.mk platform tone lang variations tips).

(** [s.isascii()]: every code point of [s] is below 128. *)
Fixpoint isascii (s : string) : bool :=
  match s with
  | EmptyString => true
  | String c s' => (nat_of_ascii c <? 128) && isascii s'
  end.

(** ** The diagnostic endpoint *)

(** [len(s)] *)
Fixpoint len (s : string) : nat :=
  match s with
  | EmptyString => 0
  | String c s' => if is_continuation c then len s' else S (len s')
  end.

(** [s[:n]]: the first [n] code points of [s]. *)
Fixpoint slice_to (n : nat) (s : string) : string :=
  match s with
  | EmptyString => EmptyString
  | String c s' =>
      if is_continuation c then String c (slice_to n s')
      else
        match n with
        | 0 => EmptyString
        | S n' => String c (slice_to n' s')
        end
  end.

(** Truth value of an optional string: [None] and the empty string are
    false. *)
Definition truthy_opt (x : option string) : bool :=
  match x with
  | Some s => truthy s
  | None => false
  end.

(** The object [db] of the module [database], as [test_database] uses
    it: its attribute [name] when it has one, and what a call of
    [list_collection_names] does, which is to return the names or to raise
    an exception [e], given by [str(e)]. *)
Module Database.
Record t : Type := mk {
  name : option string;
  list_collection_names : string + list string
}.
End Database.

(** What [from database import db] does: it raises [ImportError], it
    raises another exception [e], given by [str(e)], or it binds [db],
    which may be [None]. *)
Inductive import_outcome : Type :=
| ImportError
| ImportException (e : string)
| Imported (db : option Database.t).

(** The dict [response] of [test_database], one field per key. *)
Module TestResponse.
Record t : Type := mk {
  backend : string;
  database : string;
  database_url : option string;
  database_name : option string;
  connection_status : string;
  collections : list string
}.

Definition set_database (r : t) (v : string) : t :=
  mk (backend r) v (database_url r) (database_name r)
     (connection_status r) (collections r).

Definition set_database_url (r : t) (v : option string) : t :=
  mk (backend r) (database r) v (database_name r)
     (connection_status r) (collections r).

Definition set_database_name (r : t) (v : option string) : t :=
  mk (backend r) (database r) (database_url r) v
     (connection_status r) (collections r).

Definition set_connection_status (r : t) (v : string) : t :=
  mk (backend r) (database r) (database_url r) (database_name r)
     v (collections r).

Definition set_collections (r : t) (v : list string) : t :=
  mk (backend r) (database r) (database_url r) (database_name r)
     (connection_status r) v.
End TestResponse.

(** The [try] block of [test_database]: the assignments made to
    [response] until the block ends or an exception is caught. *)
Definition probe_database (imported : import_outcome) (response : TestResponse.t)
  : TestResponse.t :=
  match imported with
  | Imported (Some db) =>
      let response := TestResponse.set_database response "✅ Available" in
      let response :=
        TestResponse.set_database_url response (Some "✅ Configured") in
      let response :=
        TestResponse.set_database_name
          response
          (Some (match Database.name db with
                 | Some n => n
                 | None => "✅ Connected"
                 end)) in
      let response := TestResponse.set_connection_status response "Connected" in
      match Database.list_collection_names db with
      | inr collections =>
          let response :=
            TestResponse.set_collections response (firstn 10 collections) in
          TestResponse.set_database response "✅ Connected & Working"
      | inl e =>
          TestResponse.set_database
            response ("⚠️  Connected but Error: " ++ slice_to 50 e)
      end
  | Imported None =>
      TestResponse.set_database response "⚠️  Available but not initialized"
  | ImportError =>
      TestResponse.set_database
        response "❌ Database module not found (run enable-database first)"
  | ImportException e =>
      TestResponse.set_database response ("❌ Error: " ++ slice_to 50 e)
  end.

(** [test_database], given what the import does and the environment
    [getenv] of the process. *)
Definition test_database (imported : import_outcome)
           (getenv : string -> option string) : TestResponse.t :=
  let response :=
    TestResponse.mk "✅ Running" "❌ Not Available" None None
                    "Not Connected" [] in
  let response := probe_database imported response in
  let response :=
    TestResponse.set_database_url
      response
      (Some (if truthy_opt (getenv "DATABASE_URL")
             then "✅ Set" else "❌ Not Set")) in
  let response :=
    TestResponse.set_database_name
      response
      (Some (if truthy_opt (getenv "DATABASE_NAME")
             then "✅ Set" else "❌ Not Set")) in
  response.

(** ** Letter case *)

(** [casing_of s t]: [t] is [s] written in some letter case, that is,
    every character of [t] is the character of [s] at that place, its
    upper-case form or its lower-case form. *)
Fixpoint casing_of (s t : string) : bool :=
  match s, t with
  | EmptyString, EmptyString => true
  | String c s', String d t' =>
      (Ascii.eqb d c || Ascii.eqb d (upper_char c) || Ascii.eqb d (lower_char c))
      && casing_of s' t'
  | _, _ => false
  end.

(** What the case methods do to a string of the ASCII range: the Latin
    letters change, byte by byte. *)

Fixpoint lower_ascii (s : string) : string :=
  match s with
  | EmptyString => EmptyString
  | String c s' => String (lower_char c) (lower_ascii s')
  end.

Fixpoint upper_ascii (s : string) : string :=
  match s with
  | EmptyString => EmptyString
  | String c s' => String (upper_char c) (upper_ascii s')
  end.

Definition capitalize_ascii (s : string) : string :=
  match s with
  | EmptyString => EmptyString
  | String c s' => String (upper_char c) (lower_ascii s')
  end.

(** The code points of a string of the ASCII range: one per byte. *)
Fixpoint singletons (s : string) : list string :=
  match s with
  | EmptyString => []
  | String c s' => String c EmptyString :: singletons s'
  end.

(** [c in s] for a character [c]. *)
Fixpoint has_char (c : ascii) (s : string) : bool :=
  match s with
  | EmptyString => false
  | String d s' => Ascii.eqb d c || has_char c s'
  end.

(** A key of the tables: an ASCII string in lower case, without the
    letter k. *)
Definition plain (s : string) : bool :=
  isascii s && String.eqb (lower_ascii s) s && negb (has_char "k" s).

(** ** Whitespace *)

(** A string made of whitespace characters only. *)
Inductive Spaces : string -> Prop :=
| Spaces_nil : Spaces EmptyString
| Spaces_1 a s : isspace1 a = true -> Spaces s -> Spaces (String a s)
| Spaces_2 a b s :
    isspace2 a b = true -> Spaces s -> Spaces (String a (String b s))
| Spaces_3 a b c s :
    isspace3 a b c = true -> Spaces s ->
    Spaces (String a (String b (String c s))).

(** ** Properties of the [str] methods *)

Section StrFacts.

Local Ltac by_cases_on c :=
  destruct c as [[] [] [] [] [] [] [] []]; vm_compute; auto.

Lemma lower_char_idem (c : ascii) : lower_char (lower_char c) = lower_char c.
Proof. by_cases_on c. Qed.

Lemma lower_upper_char (c : ascii) : lower_char (upper_char c) = lower_char c.
Proof. by_cases_on c. Qed.

Lemma upper_lower_char (c : ascii) : upper_char (lower_char c) = upper_char c.
Proof. by_cases_on c. Qed.

Lemma lower_char_preimage (c : ascii) :
  c = lower_char c \/ c = upper_char (lower_char c).
Proof. by_cases_on c. Qed.

Lemma upper_char_idem (c : ascii) : upper_char (upper_char c) = upper_char c.
Proof. by_cases_on c. Qed.

Lemma lower_ascii_idem (s : string) : lower_ascii (lower_ascii s) = lower_ascii s.
Proof.
  induction s as [|c s IH]; simpl; [reflexivity|].
  now rewrite lower_char_idem, IH.
Qed.

Lemma capitalize_lower_ascii (s : string) :
  capitalize_ascii (lower_ascii s) = capitalize_ascii s.
Proof.
  destruct s as [|c s]; simpl; [reflexivity|].
  now rewrite upper_lower_char, lower_ascii_idem.
Qed.

Lemma capitalize_ascii_idem (s : string) :
  capitalize_ascii (capitalize_ascii s) = capitalize_ascii s.
Proof.
  destruct s as [|c s]; simpl; [reflexivity|].
  now rewrite upper_char_idem, lower_ascii_idem.
Qed.

(** Among ASCII strings, a string is a casing of a lower-case string
    exactly when it lower-cases to it. *)
Lemma casing_of_lower_ascii (s t : string) :
  lower_ascii s = s -> (casing_of s t = true <-> lower_ascii t = s).
Proof.
  revert t; induction s as [|c s IH]; intros [|d t] Hs; simpl in *;
    try (split; intro H; (reflexivity || discriminate H)).
  injection Hs as Hc Hs'. specialize (IH t Hs').
  rewrite andb_true_iff, !orb_true_iff, !Ascii.eqb_eq, IH. split.
  - intros [[[-> | ->] | ->] ->].
    + now rewrite Hc.
    + now rewrite lower_upper_char, Hc.
    + now rewrite lower_char_idem, Hc.
  - intro H. injection H as Hd Ht. split; [|exact Ht].
    rewrite <- Hd.
    destruct (lower_char_preimage d) as [E | E].
    + left; left. exact E.
    + left; right. exact E.
Qed.

Lemma casing_of_upper_ascii (s t : string) :
  casing_of s t = true -> upper_ascii t = upper_ascii s.
Proof.
  revert t; induction s as [|c s IH]; intros [|d t] H; simpl in *;
    try reflexivity; try discriminate H.
  apply andb_true_iff in H as [Hd Ht].
  rewrite (IH t Ht). f_equal.
  rewrite !orb_true_iff, !Ascii.eqb_eq in Hd.
  destruct Hd as [[-> | ->] | ->];
    [reflexivity | apply upper_char_idem | apply upper_lower_char].
Qed.

Lemma lower_ascii_upper_ascii (s t : string) :
  lower_ascii s = lower_ascii t -> upper_ascii s = upper_ascii t.
Proof.
  revert t; induction s as [|c s IH]; intros [|d t] H; simpl in *;
    try reflexivity; try discriminate H.
  injection H as Hc Hs. rewrite (IH t Hs). f_equal.
  now rewrite <- (upper_lower_char c), Hc, upper_lower_char.
Qed.

Lemma truthy_true (s : string) : truthy s = true <-> s <> EmptyString.
Proof.
  destruct s; simpl; split; intro H; try discriminate; try reflexivity.
  now contradiction H.
Qed.

Lemma In_b_true (k : string) (l : list string) : In_b k l = true <-> In k l.
Proof.
  unfold In_b. rewrite existsb_exists. split.
  - intros [x [Hx E]]. apply String.eqb_eq in E. now subst.
  - intro H. exists k. split; [exact H | apply String.eqb_refl].
Qed.

Lemma In_b_false (k : string) (l : list string) : In_b k l = false <-> ~ In k l.
Proof.
  rewrite <- In_b_true. destruct (In_b k l); split; intro H;
    try discriminate; try reflexivity; now contradiction H.
Qed.

Lemma startswith_append (p s : string) : startswith (p ++ s) p = true.
Proof.
  induction p as [|c p IH]; simpl; [reflexivity|].
  now rewrite Ascii.eqb_refl, IH.
Qed.

(** A loop that appends one element per item builds the [map]. *)
Lemma fold_left_append_map {A B : Type} (f : A -> B) (l : list A) (acc : list B) :
  fold_left (fun out item => (out ++ [f item])%list) l acc = (acc ++ map f l)%list.
Proof.
  revert acc; induction l as [|x l IH]; intro acc; simpl.
  - now rewrite app_nil_r.
  - rewrite IH, <- app_assoc. reflexivity.
Qed.

End StrFacts.

(** ** The case methods on the ASCII range *)

Section AsciiFacts.

Local Ltac by_bytes c :=
  let H := fresh "H" in
  destruct c as [[] [] [] [] [] [] [] []];
  intro H; try discriminate H; vm_compute; reflexivity.

Lemma lower_char_isascii (c : ascii) :
  (nat_of_ascii c <? 128) = true -> (nat_of_ascii (lower_char c) <? 128) = true.
Proof. by_bytes c. Qed.

Lemma upper_char_isascii (c : ascii) :
  (nat_of_ascii c <? 128) = true -> (nat_of_ascii (upper_char c) <? 128) = true.
Proof. by_bytes c. Qed.

Lemma isascii_not_continuation (c : ascii) :
  (nat_of_ascii c <? 128) = true -> is_continuation c = false.
Proof. by_bytes c. Qed.

Lemma to_lower_byte (before after : list string) (c : ascii) :
  (nat_of_ascii c <? 128) = true ->
  to_lower before (String c EmptyString) after = String (lower_char c) EmptyString.
Proof. by_bytes c. Qed.

Lemma to_upper_byte (c : ascii) :
  (nat_of_ascii c <? 128) = true ->
  to_upper (String c EmptyString) = String (upper_char c) EmptyString.
Proof. by_bytes c. Qed.

Lemma to_title_byte (c : ascii) :
  (nat_of_ascii c <? 128) = true ->
  to_title (String c EmptyString) = String (upper_char c) EmptyString.
Proof. by_bytes c. Qed.

Lemma isascii_lower_ascii (s : string) :
  isascii s = true -> isascii (lower_ascii s) = true.
Proof.
  induction s as [|c s IH]; simpl; [reflexivity|]. intro H.
  apply andb_true_iff in H as [Hc Hs].
  now rewrite (lower_char_isascii c Hc), IH.
Qed.

Lemma isascii_capitalize_ascii (s : string) :
  isascii s = true -> isascii (capitalize_ascii s) = true.
Proof.
  destruct s as [|c s]; simpl; [reflexivity|]. intro H.
  apply andb_true_iff in H as [Hc Hs].
  now rewrite (upper_char_isascii c Hc), isascii_lower_ascii.
Qed.

(** An ASCII string has one code point per byte. *)
Lemma chars_isascii (s : string) : isascii s = true -> chars s = singletons s.
Proof.
  induction s as [|c s IH]; simpl; [reflexivity|]. intro H.
  apply andb_true_iff in H as [Hc Hs]. rewrite (IH Hs).
  destruct s as [|d s]; simpl; [reflexivity|].
  simpl in Hs. apply andb_true_iff in Hs as [Hd _].
  now rewrite (isascii_not_continuation d Hd).
Qed.

Lemma lower_from_singletons (before : list string) (s : string) :
  isascii s = true -> join (lower_from before (singletons s)) = lower_ascii s.
Proof.
  revert before; induction s as [|c s IH]; intros before H; simpl;
    [reflexivity|].
  apply andb_true_iff in H as [Hc Hs].
  now rewrite (to_lower_byte _ _ c Hc), (IH _ Hs).
Qed.

(** On an ASCII string the case methods change the Latin letters only. *)
Lemma lower_isascii (s : string) : isascii s = true -> lower s = lower_ascii s.
Proof.
  intro H. unfold lower. rewrite (chars_isascii s H).
  now apply lower_from_singletons.
Qed.

Lemma upper_isascii (s : string) : isascii s = true -> upper s = upper_ascii s.
Proof.
  intro H. unfold upper. rewrite (chars_isascii s H).
  induction s as [|c s IH]; simpl; [reflexivity|].
  simpl in H. apply andb_true_iff in H as [Hc Hs].
  now rewrite (to_upper_byte c Hc), (IH Hs).
Qed.

Lemma capitalize_isascii (s : string) :
  isascii s = true -> capitalize s = capitalize_ascii s.
Proof.
  intro H. unfold capitalize. rewrite (chars_isascii s H).
  destruct s as [|c s]; simpl; [reflexivity|].
  simpl in H. apply andb_true_iff in H as [Hc Hs].
  now rewrite (to_title_byte c Hc), (lower_from_singletons _ s Hs).
Qed.

Lemma isascii_append (s t : string) :
  isascii (s ++ t) = isascii s && isascii t.
Proof.
  induction s as [|c s IH]; simpl; [reflexivity|].
  now rewrite IH, andb_assoc.
Qed.

Lemma has_char_append (c : ascii) (s t : string) :
  has_char c (s ++ t) = has_char c s || has_char c t.
Proof.
  induction s as [|d s IH]; simpl; [reflexivity|].
  now rewrite IH, orb_assoc.
Qed.

Lemma join_chars (s : string) : join (chars s) = s.
Proof.
  induction s as [|c s IH]; simpl; [reflexivity|].
  destruct (chars s) as [|[|d ch] rest]; simpl in *.
  - now rewrite <- IH.
  - now rewrite <- IH.
  - destruct (is_continuation d); simpl; now rewrite <- IH.
Qed.

Lemma get_found (d : list (string * string)) (k default : string) :
  get d k default = default \/ In (k, get d k default) d.
Proof.
  induction d as [|[k' v] d IH]; simpl; [now left|].
  destruct (String.eqb_spec k k') as [-> | _].
  - right; now left.
  - destruct IH as [E | E]; [now left | right; now right].
Qed.

(** The Kelvin sign is the only code point outside the ASCII range with
    an ASCII lower-case form: the letter k. *)
Lemma lowercase_to_ascii :
  forallb (fun entry : string * string =>
             implb (isascii (snd entry) && negb (has_char "k" (snd entry)))
                   (isascii (fst entry)))
          Unicode.lowercase = true.
Proof. vm_compute. reflexivity. Qed.

Lemma to_lower_to_ascii (before after : list string) (ch : string) :
  isascii (to_lower before ch after) = true ->
  has_char "k" (to_lower before ch after) = false ->
  isascii ch = true.
Proof.
  unfold to_lower. destruct (String.eqb ch "Σ").
  - destruct (final_sigma before after); intro H; vm_compute in H;
      discriminate H.
  - destruct (get_found Unicode.lowercase ch ch) as [-> | Hin];
      [now intros|].
    intros Ha Hk.
    pose proof (proj1 (forallb_forall _ _) lowercase_to_ascii _ Hin) as F.
    cbn [fst snd] in F. now rewrite Ha, Hk in F.
Qed.

Lemma lower_from_to_ascii (before l : list string) :
  isascii (join (lower_from before l)) = true ->
  has_char "k" (join (lower_from before l)) = false ->
  isascii (join l) = true.
Proof.
  revert before; induction l as [|ch l IH]; intros before; simpl;
    [reflexivity|].
  rewrite !isascii_append, has_char_append.
  intros Ha Hk. apply andb_true_iff in Ha as [Ha1 Ha2].
  apply orb_false_iff in Hk as [Hk1 Hk2].
  now rewrite (to_lower_to_ascii _ _ _ Ha1 Hk1), (IH _ Ha2 Hk2).
Qed.

(** A string whose lower-case form is ASCII and has no k is ASCII. *)
Lemma lower_to_ascii (s : string) :
  isascii (lower s) = true -> has_char "k" (lower s) = false ->
  isascii s = true.
Proof.
  intros Ha Hk. rewrite <- (join_chars s).
  exact (lower_from_to_ascii [] (chars s) Ha Hk).
Qed.

Lemma casing_of_isascii (s t : string) :
  isascii s = true -> casing_of s t = true -> isascii t = true.
Proof.
  revert t; induction s as [|c s IH]; intros [|d t] Hs H; simpl in *;
    try reflexivity; try discriminate H.
  apply andb_true_iff in Hs as [Hc Hs]. apply andb_true_iff in H as [Hd Ht].
  rewrite (IH t Hs Ht), andb_true_r.
  rewrite !orb_true_iff, !Ascii.eqb_eq in Hd.
  destruct Hd as [[-> | ->] | ->];
    [exact Hc | now apply upper_char_isascii | now apply lower_char_isascii].
Qed.

End AsciiFacts.

(** ** Letter case of the keys *)

Section CasingFacts.

(** A string is a casing of a key exactly when it lower-cases to it. *)
Lemma casing_of_lower (s t : string) :
  plain s = true -> (casing_of s t = true <-> lower t = s).
Proof.
  unfold plain. rewrite !andb_true_iff, negb_true_iff, String.eqb_eq.
  intros [[Ha Hl] Hk]. split; intro H.
  - rewrite (lower_isascii t (casing_of_isascii s t Ha H)).
    now apply casing_of_lower_ascii.
  - assert (Ht : isascii t = true).
    { apply lower_to_ascii; now rewrite H. }
    apply casing_of_lower_ascii; [exact Hl|].
    now rewrite <- (lower_isascii t Ht).
Qed.

(** All the casings of an ASCII string have the same upper-case form. *)
Lemma casing_of_upper (s t : string) :
  isascii s = true -> casing_of s t = true -> upper t = upper s.
Proof.
  intros Ha H.
  rewrite (upper_isascii t (casing_of_isascii s t Ha H)), (upper_isascii s Ha).
  now apply casing_of_upper_ascii.
Qed.

Lemma lower_empty (s : string) : lower s = EmptyString <-> s = EmptyString.
Proof.
  split; intro H; [|now subst].
  assert (Ha : isascii s = true) by (apply lower_to_ascii; now rewrite H).
  rewrite (lower_isascii s Ha) in H. destruct s; [reflexivity | discriminate H].
Qed.

Lemma lower_eq_upper (s t : string) :
  isascii s = true -> isascii t = true ->
  lower s = lower t -> upper s = upper t.
Proof.
  intros Hs Ht. rewrite !lower_isascii, !upper_isascii by assumption.
  apply lower_ascii_upper_ascii.
Qed.

Lemma get_default (d : list (string * string)) (k default : string) :
  ~ In k (map fst d) -> get d k default = default.
Proof.
  induction d as [|[k' v] d IH]; simpl; intro H; [reflexivity|].
  destruct (String.eqb_spec k k') as [E | _].
  - exfalso. apply H. left. now symmetry.
  - apply IH. intro Hin. apply H. now right.
Qed.

(** The test at the head of [_apply_language], in terms of casings. *)
Lemma english_code (language : string) :
  In_b (lower language) ["en"; "english"; EmptyString] = true
  <-> language = EmptyString
      \/ casing_of "en" language = true
      \/ casing_of "english" language = true.
Proof.
  rewrite In_b_true, !casing_of_lower by reflexivity. simpl.
  rewrite <- (lower_empty language). intuition congruence.
Qed.

Lemma apply_language_skip (text language : string) :
  In_b (lower language) ["en"; "english"; EmptyString] = true ->
  _apply_language text language = text.
Proof. intro H. unfold _apply_language. now rewrite H. Qed.

Lemma apply_language_tag (text language : string) :
  In_b (lower language) ["en"; "english"; EmptyString] = false ->
  _apply_language text language
  = get translations (lower language) ("[" ++ upper language ++ "] ") ++ text.
Proof. intro H. unfold _apply_language. now rewrite H. Qed.

(** Outside the English codes the prefix is the upper-cased code between
    brackets, for the codes of the table as for the others. *)
Lemma apply_language_bracket (text language : string) :
  In_b (lower language) ["en"; "english"; EmptyString] = false ->
  _apply_language text language = ("[" ++ upper language ++ "] ") ++ text.
Proof.
  intro Hno. rewrite (apply_language_tag text language Hno).
  destruct (In_b (lower language) (map fst translations)) eqn:E.
  - apply In_b_true in E. simpl in E.
    destruct E as [E | [E | [E | [E | []]]]];
      symmetry in E; pose proof E as C;
      apply casing_of_lower in C; try reflexivity;
      (apply casing_of_upper in C; [|reflexivity]);
      rewrite E, C; reflexivity.
  - apply In_b_false in E. now rewrite get_default.
Qed.

Lemma apply_language_affix (language : string) :
  exists prefix : string,
    forall text : string, _apply_language text language = prefix ++ text.
Proof.
  destruct (In_b (lower language) ["en"; "english"; EmptyString]) eqn:E.
  - exists EmptyString. intro text. now apply apply_language_skip.
  - exists ("[" ++ upper language ++ "] "). intro text.
    now apply apply_language_bracket.
Qed.

End CasingFacts.

Section StripFacts.

Lemma string_strong_ind (P : string -> Prop) :
  (forall s, (forall t, String.length t < String.length s -> P t) -> P s) ->
  forall s, P s.
Proof.
  intros step s.
  assert (G : forall n t, String.length t < n -> P t).
  { induction n as [|n IH]; intros t Ht; [lia|].
    apply step. intros u Hu. apply IH. lia. }
  apply (G (S (String.length s))). lia.
Qed.

Local Ltac split_if :=
  match goal with
  | |- context [if ?c then _ else _] => destruct c eqn:?
  end.

(** Follows the recursion of [drop_spaces] on the string [s]. *)
Local Ltac by_walk s IH :=
  destruct s as [|? s];
  [simpl
  |simpl; split_if;
   [try (apply IH; simpl; lia)
   |destruct s as [|? s];
    [|cbv beta iota; split_if;
      [try (apply IH; simpl; lia)
      |destruct s as [|? s];
       [|cbv beta iota; split_if; [try (apply IH; simpl; lia)|]]]]]].

Lemma lstrip_empty (s : string) :
  lstrip s = EmptyString <-> only_spaces s = true.
Proof.
  unfold lstrip. induction s as [s IH] using string_strong_ind.
  by_walk s IH; split; intro H; (reflexivity || discriminate H).
Qed.

Lemma lstrip_idem (s : string) : lstrip (lstrip s) = lstrip s.
Proof.
  unfold lstrip. induction s as [s IH] using string_strong_ind.
  by_walk s IH; simpl;
    repeat match goal with E : _ = false |- _ => rewrite E; clear E end;
    reflexivity.
Qed.


Lemma Spaces_append (s t : string) : Spaces s -> Spaces t -> Spaces (s ++ t).
Proof.
  intros Hs Ht. induction Hs; simpl; [exact Ht | | |];
    [apply Spaces_1 | apply Spaces_2 | apply Spaces_3]; assumption.
Qed.

Lemma append_empty_r (s : string) : s ++ EmptyString = s.
Proof. induction s as [|a s IH]; simpl; [reflexivity | now rewrite IH]. Qed.

Lemma append_assoc (s t u : string) : (s ++ t) ++ u = s ++ (t ++ u).
Proof. induction s as [|a s IH]; simpl; [reflexivity | now rewrite IH]. Qed.

Lemma reverse_append (s t : string) : reverse (s ++ t) = reverse t ++ reverse s.
Proof.
  induction s as [|a s IH]; simpl.
  - now rewrite append_empty_r.
  - now rewrite IH, append_assoc.
Qed.

Lemma reverse_involutive (s : string) : reverse (reverse s) = s.
Proof.
  induction s as [|a s IH]; simpl; [reflexivity|].
  now rewrite reverse_append, IH.
Qed.

Lemma reverse_empty (s : string) : reverse s = EmptyString -> s = EmptyString.
Proof.
  intro H. rewrite <- (reverse_involutive s), H. reflexivity.
Qed.

Lemma dropped_from_end (u : string) :
  drop_spaces (fun a b => isspace2 b a) (fun a b c => isspace3 c b a) u
  = EmptyString ->
  Spaces (reverse u).
Proof.
  induction u as [u IH] using string_strong_ind.
  by_walk u IH; try (intro H; discriminate H); [constructor | | |]; intro H;
    simpl; rewrite ?append_assoc; simpl;
    (apply Spaces_append; [apply IH; [simpl; lia | exact H]|]).
  - apply Spaces_1; [assumption | constructor].
  - apply Spaces_2; [assumption | constructor].
  - apply Spaces_3; [assumption | constructor].
Qed.

Lemma isspace2_not_1 (a b : ascii) : isspace2 a b = true -> isspace1 a = false.
Proof.
  unfold isspace2, isspace1. intro H.
  apply andb_true_iff in H as [H _]. apply Nat.eqb_eq in H. now rewrite H.
Qed.

Lemma isspace3_not_1 (a b c : ascii) :
  isspace3 a b c = true -> isspace1 a = false /\ isspace2 a b = false.
Proof.
  unfold isspace3, isspace2, isspace1. cbv zeta. intro H.
  assert (G : nat_of_ascii a = 225 \/ nat_of_ascii a = 226
              \/ nat_of_ascii a = 227).
  { rewrite !orb_true_iff, !andb_true_iff, !Nat.eqb_eq in H. tauto. }
  destruct G as [-> | [-> | ->]]; split; reflexivity.
Qed.

Lemma lstrip_Spaces (s : string) : Spaces s -> lstrip s = EmptyString.
Proof.
  unfold lstrip. intro H. induction H as [|a s E _ IH|a b s E _ IH|a b c s E _ IH].
  - reflexivity.
  - simpl. now rewrite E.
  - simpl. now rewrite (isspace2_not_1 a b E), E.
  - simpl. destruct (isspace3_not_1 a b c E) as [E1 E2].
    now rewrite E1, E2, E.
Qed.

(** The stripped string is empty exactly when the string holds only
    whitespace. *)
Lemma strip_empty (s : string) :
  strip s = EmptyString <-> only_spaces s = true.
Proof.
  rewrite <- lstrip_empty. unfold strip, rstrip. split; intro H.
  - apply reverse_empty, dropped_from_end in H.
    rewrite reverse_involutive in H.
    rewrite <- lstrip_idem. now apply lstrip_Spaces.
  - rewrite H. reflexivity.
Qed.

End StripFacts.

(** ** The language formatter *)

(** C6: [_apply_language] gives its text back unchanged when the language
    code is empty, or is [en] or [english] written in any letter case; in
    particular for the codes [en], the empty one and [English]. *)
Theorem apply_language_english_identity (text : string) :
  (forall language : string,
      language = EmptyString
      \/ casing_of "en" language = true
      \/ casing_of "english" language = true ->
      _apply_language text language = text)
  /\ _apply_language text "en" = text
  /\ _apply_language text EmptyString = text
  /\ _apply_language text "English" = text.
Proof.
  assert (G : forall language : string,
             language = EmptyString
             \/ casing_of "en" language = true
             \/ casing_of "english" language = true ->
             _apply_language text language = text).
  { intros language H. apply apply_language_skip, english_code, H. }
  split; [exact G|].
  repeat split; apply G; auto.
Qed.

Lemma apply_language_english_identity_witness :
  casing_of "english" "ENGlish" = true
  /\ _apply_language "Hola" "ENGlish" = "Hola".
Proof.
  split; [reflexivity|].
  apply (proj1 (apply_language_english_identity "Hola") "ENGlish").
  right; right; reflexivity.
Defined.

(** C7: for a language code that is not empty and is no casing of [en]
    or [english], [_apply_language] puts a bracketed prefix in front of
    the unchanged text: the table entry for [es], [fr], [de] and [pt]
    (in any letter case), and the upper-cased code between brackets for a
    code outside the table; with the code [es] the result always starts
    with the ES tag. *)
Theorem apply_language_prefix (text language : string) :
  language <> EmptyString ->
  casing_of "en" language = false ->
  casing_of "english" language = false ->
  (casing_of "es" language = true ->
   _apply_language text language = "[ES] " ++ text)
  /\ (casing_of "fr" language = true ->
      _apply_language text language = "[FR] " ++ text)
  /\ (casing_of "de" language = true ->
      _apply_language text language = "[DE] " ++ text)
  /\ (casing_of "pt" language = true ->
      _apply_language text language = "[PT] " ++ text)
  /\ (~ In language (map fst translations) ->
      _apply_language text language = ("[" ++ upper language ++ "] ") ++ text)
  /\ (exists prefix : string,
         startswith prefix "[" = true
         /\ _apply_language text language = prefix ++ text)
  /\ _apply_language text "es" = "[ES] " ++ text
  /\ startswith (_apply_language text "es") "[ES] " = true.
Proof.
  intros Hne Hen Henglish.
  assert (Hno : In_b (lower language) ["en"; "english"; EmptyString] = false).
  { destruct (In_b (lower language) ["en"; "english"; EmptyString]) eqn:E;
      [|reflexivity].
    apply english_code in E. destruct E as [E | [E | E]];
      [contradiction | congruence | congruence]. }
  pose proof (apply_language_tag text language Hno) as Htag.
  assert (Hkey : forall key : string,
             plain key = true -> isascii key = true ->
             casing_of key language = true ->
             lower language = key /\ upper language = upper key).
  { intros key Hk Ha Hc. split;
      [now apply casing_of_lower | now apply casing_of_upper]. }
  assert (Hes : casing_of "es" language = true ->
                _apply_language text language = "[ES] " ++ text).
  { intro H. destruct (Hkey "es" eq_refl eq_refl H) as [E _]. now rewrite Htag, E. }
  assert (Hfr : casing_of "fr" language = true ->
                _apply_language text language = "[FR] " ++ text).
  { intro H. destruct (Hkey "fr" eq_refl eq_refl H) as [E _]. now rewrite Htag, E. }
  assert (Hde : casing_of "de" language = true ->
                _apply_language text language = "[DE] " ++ text).
  { intro H. destruct (Hkey "de" eq_refl eq_refl H) as [E _]. now rewrite Htag, E. }
  assert (Hpt : casing_of "pt" language = true ->
                _apply_language text language = "[PT] " ++ text).
  { intro H. destruct (Hkey "pt" eq_refl eq_refl H) as [E _]. now rewrite Htag, E. }
  assert (Hsynth : _apply_language text language
                   = ("[" ++ upper language ++ "] ") ++ text).
  { destruct (In_b (lower language) (map fst translations)) eqn:E.
    - apply In_b_true in E. simpl in E.
      destruct E as [E | [E | [E | [E | []]]]];
        symmetry in E; pose proof E as C;
        apply casing_of_lower in C; try reflexivity;
        (apply casing_of_upper in C; [|reflexivity]);
        rewrite Htag, E, C; reflexivity.
    - apply In_b_false in E. now rewrite Htag, get_default. }
  repeat split; try assumption.
  - intros _. exact Hsynth.
  - exists ("[" ++ upper language ++ "] ").
    split; [apply (startswith_append "[") | exact Hsynth].
Qed.

Lemma apply_language_prefix_witness :
  _apply_language "Hallo" "De" = "[DE] Hallo"
  /\ _apply_language "Ciao" "it" = "[IT] Ciao".
Proof.
  assert (Hde : "De" <> EmptyString) by discriminate.
  assert (Hit : "it" <> EmptyString) by discriminate.
  split.
  - exact (proj1 (proj2 (proj2
             (apply_language_prefix "Hallo" "De" Hde eq_refl eq_refl)))
             eq_refl).
  - refine (proj1 (proj2 (proj2 (proj2 (proj2
             (apply_language_prefix "Ciao" "it" Hit eq_refl eq_refl))))) _).
    vm_compute. intuition discriminate.
Defined.

(** ** The tone label *)

Lemma tone_prefix_nonempty (tone : string) :
  tone <> EmptyString ->
  _tone_prefix tone = get mapping (lower tone) (capitalize (lower tone)).
Proof.
  intro H. unfold _tone_prefix.
  apply truthy_true in H. now rewrite H.
Qed.

(** Every label of the table is its key capitalized, so the lookup and
    the fallback agree. *)
Lemma tone_prefix_lowered (tone : string) :
  tone <> EmptyString -> _tone_prefix tone = capitalize (lower tone).
Proof.
  intro H. rewrite (tone_prefix_nonempty tone H).
  destruct (In_b (lower tone) (map fst mapping)) eqn:E.
  - apply In_b_true in E. simpl in E.
    destruct E as [E | [E | [E | [E | [E | [E | []]]]]]];
      rewrite <- E; vm_compute; reflexivity.
  - apply In_b_false in E. now apply get_default.
Qed.

Lemma tone_prefix_capitalize (tone : string) :
  isascii tone = true -> tone <> EmptyString ->
  _tone_prefix tone = capitalize tone.
Proof.
  intros Ha H. rewrite (tone_prefix_lowered tone H).
  rewrite (lower_isascii tone Ha).
  rewrite (capitalize_isascii _ (isascii_lower_ascii tone Ha)).
  rewrite (capitalize_isascii tone Ha).
  apply capitalize_lower_ascii.
Qed.

(** C8, as the code has it: the lookup of [_tone_prefix] does not depend
    on the letter case, every casing of a key of the table gives the
    capitalized label of that key (FRIENDLY and friendly both give
    Friendly), and a tone outside the table that is not empty comes back
    lower-cased and then capitalized, which for an ASCII tone is the tone
    capitalized; the empty tone is read as friendly and gives Friendly. *)
Theorem tone_prefix_lookup (tone : string) :
  (forall key label : string,
      In (key, label) mapping -> casing_of key tone = true ->
      _tone_prefix tone = label /\ label = capitalize key)
  /\ (~ In tone (map fst mapping) -> tone <> EmptyString ->
      _tone_prefix tone = capitalize (lower tone)
      /\ (isascii tone = true -> _tone_prefix tone = capitalize tone))
  /\ (tone = EmptyString -> _tone_prefix tone = "Friendly")
  /\ _tone_prefix "FRIENDLY" = _tone_prefix "friendly"
  /\ _tone_prefix "friendly" = "Friendly".
Proof.
  split; [|split; [|split; [|split; vm_compute; reflexivity]]].
  - intros key label Hin Hcase. split.
    + destruct Hin as [E | [E | [E | [E | [E | [E | []]]]]]];
        injection E as <- <-;
        (destruct tone; [discriminate Hcase|]);
        apply casing_of_lower in Hcase; try reflexivity;
        rewrite tone_prefix_nonempty, Hcase by discriminate;
        vm_compute; reflexivity.
    + destruct Hin as [E | [E | [E | [E | [E | [E | []]]]]]];
        injection E as <- <-; vm_compute; reflexivity.
  - intros _ H. split; [now apply tone_prefix_lowered|].
    intro Ha. now apply tone_prefix_capitalize.
  - intros ->. vm_compute. reflexivity.
Qed.

Lemma tone_prefix_lookup_witness :
  _tone_prefix "pErSuAsIvE" = "Persuasive"
  /\ _tone_prefix "playful" = "Playful".
Proof.
  split.
  - apply (proj1 (tone_prefix_lookup "pErSuAsIvE") "persuasive" "Persuasive").
    + simpl. tauto.
    + reflexivity.
  - assert (Hout : ~ In "playful" (map fst mapping))
      by (vm_compute; intuition discriminate).
    assert (Hne : "playful" <> EmptyString) by discriminate.
    exact (proj2 (proj1 (proj2 (tone_prefix_lookup "playful")) Hout Hne)
                 eq_refl).
Defined.

(** The empty tone is outside the table and does not come back
    capitalized: it gives Friendly, not the empty string. Nor does a tone
    with a letter whose lower-case form has two code points: the label
    of İstanbul starts with I and a combining dot, the capitalized tone
    with İ. *)
Lemma tone_prefix_empty_not_capitalized :
  ~ In EmptyString (map fst mapping)
  /\ _tone_prefix EmptyString = "Friendly"
  /\ capitalize EmptyString = EmptyString
  /\ ~ (forall tone : string,
           ~ In tone (map fst mapping) -> _tone_prefix tone = capitalize tone)
  /\ ~ In "İstanbul" (map fst mapping)
  /\ _tone_prefix "İstanbul" = "İstanbul"
  /\ capitalize "İstanbul" = "İstanbul"
  /\ _tone_prefix "İstanbul" <> capitalize "İstanbul".
Proof.
  assert (Hout : ~ In EmptyString (map fst mapping)).
  { vm_compute. intuition discriminate. }
  split; [exact Hout|].
  split; [vm_compute; reflexivity|].
  split; [vm_compute; reflexivity|].
  split.
  - intro H. specialize (H EmptyString Hout). vm_compute in H. discriminate H.
  - split; [vm_compute; intuition discriminate|].
    split; [vm_compute; reflexivity|].
    split; [vm_compute; reflexivity|].
    vm_compute. discriminate.
Qed.

(** ** The close-response generator *)

Lemma close_response_rejected (p : CloseResponseRequest.t) :
  strip (CloseResponseRequest.customer_message p) = EmptyString ->
  generate_close_response p = HTTPException 400 "customer_message is required".
Proof.
  intro H. unfold generate_close_response. now rewrite H.
Qed.

Lemma close_response_accepted (p : CloseResponseRequest.t) :
  strip (CloseResponseRequest.customer_message p) <> EmptyString ->
  generate_close_response p
  = Ok (CloseResponseResult.mk
          (CloseResponseRequest.brand_name p)
          (or_else (CloseResponseRequest.tone p) "friendly")
          (or_else (CloseResponseRequest.language p) "en")
          (map (close_variant
                  (or_else (CloseResponseRequest.tone p) "friendly")
                  (or_else (CloseResponseRequest.brand_name p) "Our brand")
                  (or_else (CloseResponseRequest.language p) "en"))
               (base_variants
                  (or_else (CloseResponseRequest.offer p) "our solution")))).
Proof.
  intro H. unfold generate_close_response.
  apply truthy_true in H. rewrite H. cbv zeta.
  rewrite fold_left_append_map. reflexivity.
Qed.

(** C1: a request whose [customer_message] is not empty once stripped
    gets a result with exactly three variants, labelled Direct Close,
    Value-First and Objection-Ready in that order. *)
Theorem close_response_three_variants (p : CloseResponseRequest.t) :
  strip (CloseResponseRequest.customer_message p) <> EmptyString ->
  exists r : CloseResponseResult.t,
    generate_close_response p = Ok r
    /\ List.length (CloseResponseResult.variants r) = 3
    /\ map CloseResponseVariant.label (CloseResponseResult.variants r)
       = ["Direct Close"; "Value-First"; "Objection-Ready"].
Proof.
  intro H. eexists. split; [apply (close_response_accepted p H)|].
  split; reflexivity.
Qed.

Lemma close_response_three_variants_witness :
  exists r : CloseResponseResult.t,
    generate_close_response
      (CloseResponseRequest.mk "Is this still available?" (Some "Acme")
                               (Some "coaching") (Some "confident") (Some "es"))
    = Ok r
    /\ List.length (CloseResponseResult.variants r) = 3
    /\ map CloseResponseVariant.label (CloseResponseResult.variants r)
       = ["Direct Close"; "Value-First"; "Objection-Ready"].
Proof.
  apply close_response_three_variants. vm_compute. discriminate.
Defined.

(** C3: [generate_close_response] raises the 400 error
    [customer_message is required] exactly when the stripped
    [customer_message] is empty, that is, when the message is empty or
    holds only whitespace; it raises no other error, and a request it
    rejects gets no result, hence no variants. *)
Theorem close_response_error_iff (p : CloseResponseRequest.t) :
  (generate_close_response p = HTTPException 400 "customer_message is required"
   <-> strip (CloseResponseRequest.customer_message p) = EmptyString)
  /\ (forall (status_code : nat) (detail : string),
         generate_close_response p = HTTPException status_code detail ->
         status_code = 400 /\ detail = "customer_message is required")
  /\ (strip (CloseResponseRequest.customer_message p) = EmptyString ->
      forall r : CloseResponseResult.t, generate_close_response p <> Ok r)
  /\ (strip (CloseResponseRequest.customer_message p) = EmptyString
      <-> only_spaces (CloseResponseRequest.customer_message p) = true).
Proof.
  rewrite <- and_assoc, <- and_assoc. split; [rewrite !and_assoc | apply strip_empty].
  destruct (string_dec (strip (CloseResponseRequest.customer_message p))
                       EmptyString) as [E | N].
  - rewrite (close_response_rejected p E).
    split; [split; [intros _; exact E | reflexivity] |].
    split; [intros s d H; injection H as <- <-; split; reflexivity |].
    intros _ r H. discriminate H.
  - rewrite (close_response_accepted p N).
    split; [split; [intro H; discriminate H | intro H; contradiction] |].
    split; [intros s d H; discriminate H | intro H; contradiction].
Qed.

Lemma close_response_error_iff_witness :
  generate_close_response
    (CloseResponseRequest.of_message (" " ++ nl ++ "  "))
  = HTTPException 400 "customer_message is required"
  /\ forall r : CloseResponseResult.t,
      generate_close_response
        (CloseResponseRequest.of_message (" " ++ nl ++ "  ")) <> Ok r.
Proof.
  pose proof (close_response_error_iff
                (CloseResponseRequest.of_message (" " ++ nl ++ "  "))) as H.
  split.
  - apply (proj1 H). reflexivity.
  - apply (proj1 (proj2 (proj2 H))). reflexivity.
Defined.

(** C5: the [brand_name] of the result is the one of the request, [None]
    included; when the request has none, the texts of the variants carry
    the literal Our brand after the tone label instead. *)
Theorem close_response_brand_echo (p : CloseResponseRequest.t) :
  (forall r : CloseResponseResult.t,
      generate_close_response p = Ok r ->
      CloseResponseResult.brand_name r = CloseResponseRequest.brand_name p)
  /\ (strip (CloseResponseRequest.customer_message p) <> EmptyString ->
      CloseResponseRequest.brand_name p = None ->
      exists r : CloseResponseResult.t,
        generate_close_response p = Ok r
        /\ CloseResponseResult.brand_name r = None
        /\ map CloseResponseVariant.text (CloseResponseResult.variants r)
           = map (fun item : string * string =>
                    _apply_language
                      (_tone_prefix (CloseResponseResult.tone r)
                       ++ " • " ++ "Our brand" ++ ": " ++ snd item)
                      (CloseResponseResult.language r))
                 (base_variants
                    (or_else (CloseResponseRequest.offer p) "our solution"))).
Proof.
  split.
  - intros r H.
    destruct (string_dec (strip (CloseResponseRequest.customer_message p))
                         EmptyString) as [E | N].
    + rewrite (close_response_rejected p E) in H. discriminate H.
    + rewrite (close_response_accepted p N) in H. injection H as <-.
      reflexivity.
  - intros N Hnone. eexists. split; [apply (close_response_accepted p N)|].
    rewrite Hnone. split; reflexivity.
Qed.

Lemma close_response_brand_echo_witness :
  exists r : CloseResponseResult.t,
    generate_close_response (CloseResponseRequest.of_message "hi") = Ok r
    /\ CloseResponseResult.brand_name r = None
    /\ map CloseResponseVariant.text (CloseResponseResult.variants r)
       = map (fun item : string * string =>
                _apply_language
                  (_tone_prefix (CloseResponseResult.tone r)
                   ++ " • " ++ "Our brand" ++ ": " ++ snd item)
                  (CloseResponseResult.language r))
             (base_variants "our solution").
Proof.
  apply (proj2 (close_response_brand_echo
                  (CloseResponseRequest.of_message "hi"))).
  - vm_compute. discriminate.
  - reflexivity.
Defined.

(** ** The outreach generator *)

Section Outreach.

Variable p : OutreachRequest.t.

Let tone := OutreachRequest.tone p.
Let lang := OutreachRequest.language p.
Let brand := or_else (OutreachRequest.brand_name p) "We".
Let offer := OutreachRequest.offer p.
Let audience := OutreachRequest.target_audience p.
Let goal := OutreachRequest.goal p.

Local Ltac by_branch H :=
  unfold generate_outreach; rewrite H; reflexivity.

Lemma outreach_instagram :
  lower (OutreachRequest.platform p) = "instagram" ->
  generate_outreach p
  = Ok (OutreachResult.mk
          "instagram" tone lang
          (map (wrap tone lang)
               (instagram_variations brand offer audience goal))
          instagram_tips).
Proof. intro H. by_branch H. Qed.

Lemma outreach_linkedin :
  lower (OutreachRequest.platform p) = "linkedin" ->
  generate_outreach p
  = Ok (OutreachResult.mk
          "linkedin" tone lang
          (map (wrap tone lang)
               (linkedin_variations brand offer audience goal))
          linkedin_tips).
Proof. intro H. by_branch H. Qed.

Lemma outreach_twitter :
  lower (OutreachRequest.platform p) = "twitter" ->
  generate_outreach p
  = Ok (OutreachResult.mk
          "twitter" tone lang
          (map (wrap tone lang) (twitter_variations offer audience goal))
          twitter_tips).
Proof. intro H. by_branch H. Qed.

Lemma outreach_x :
  lower (OutreachRequest.platform p) = "x" ->
  generate_outreach p
  = Ok (OutreachResult.mk
          "x" tone lang
          (map (wrap tone lang) (twitter_variations offer audience goal))
          twitter_tips).
Proof. intro H. by_branch H. Qed.

Lemma outreach_email :
  lower (OutreachRequest.platform p) = "email" ->
  generate_outreach p
  = Ok (OutreachResult.mk
          "email" tone lang
          (map (wrap tone lang) (email_variations offer audience goal))
          email_tips).
Proof. intro H. by_branch H. Qed.

Lemma outreach_tiktok :
  lower (OutreachRequest.platform p) = "tiktok" ->
  generate_outreach p
  = Ok (OutreachResult.mk
          "tiktok" tone lang
          (map (wrap tone lang) (tiktok_variations offer audience goal))
          tiktok_tips).
Proof. intro H. by_branch H. Qed.

Lemma outreach_rejected :
  ~ In (lower (OutreachRequest.platform p)) accepted_platforms ->
  generate_outreach p = HTTPException 400 unsupported_platform.
Proof.
  intro H. apply In_b_false in H. unfold generate_outreach. now rewrite H.
Qed.

(** An accepted platform is one of the six, and then the result holds
    two wrapped texts and three tips. *)
Lemma outreach_accepted :
  In (lower (OutreachRequest.platform p)) accepted_platforms ->
  exists (t1 t2 tip1 tip2 tip3 : string),
    generate_outreach p
    = Ok (OutreachResult.mk
            (lower (OutreachRequest.platform p)) tone lang
            [wrap tone lang t1; wrap tone lang t2] [tip1; tip2; tip3]).
Proof.
  intro H. simpl in H.
  destruct H as [E | [E | [E | [E | [E | [E | []]]]]]]; symmetry in E.
  - rewrite (outreach_instagram E), E. now repeat eexists.
  - rewrite (outreach_linkedin E), E. now repeat eexists.
  - rewrite (outreach_twitter E), E. now repeat eexists.
  - rewrite (outreach_x E), E. now repeat eexists.
  - rewrite (outreach_email E), E. now repeat eexists.
  - rewrite (outreach_tiktok E), E. now repeat eexists.
Qed.

End Outreach.

(** C2: a request whose lower-cased platform is accepted gets a result
    with exactly two variations and exactly three tips, whichever of the
    six platforms it names; the tips are the fixed strings of the
    platform, the same for every tone and language. *)
Theorem outreach_two_variations_three_tips (p : OutreachRequest.t) :
  In (lower (OutreachRequest.platform p)) accepted_platforms ->
  exists r : OutreachResult.t,
    generate_outreach p = Ok r
    /\ List.length (OutreachResult.variations r) = 2
    /\ List.length (OutreachResult.tips r) = 3
    /\ (lower (OutreachRequest.platform p) = "instagram" ->
        OutreachResult.tips r = instagram_tips)
    /\ (lower (OutreachRequest.platform p) = "linkedin" ->
        OutreachResult.tips r = linkedin_tips)
    /\ (lower (OutreachRequest.platform p) = "twitter" ->
        OutreachResult.tips r = twitter_tips)
    /\ (lower (OutreachRequest.platform p) = "x" ->
        OutreachResult.tips r = twitter_tips)
    /\ (lower (OutreachRequest.platform p) = "email" ->
        OutreachResult.tips r = email_tips)
    /\ (lower (OutreachRequest.platform p) = "tiktok" ->
        OutreachResult.tips r = tiktok_tips)
    /\ (forall tone' language' : string,
           exists r' : OutreachResult.t,
             generate_outreach
               (OutreachRequest.mk
                  (OutreachRequest.platform p) (OutreachRequest.brand_name p)
                  (OutreachRequest.offer p) (OutreachRequest.target_audience p)
                  (OutreachRequest.goal p) tone' language')
             = Ok r'
             /\ OutreachResult.tips r' = OutreachResult.tips r).
Proof.
  intro H. simpl in H.
  destruct H as [E | [E | [E | [E | [E | [E | []]]]]]]; symmetry in E;
    eexists;
    (split;
     [ first [ apply (outreach_instagram p E) | apply (outreach_linkedin p E)
             | apply (outreach_twitter p E) | apply (outreach_x p E)
             | apply (outreach_email p E) | apply (outreach_tiktok p E) ] |]);
    (split; [reflexivity|]); (split; [reflexivity|]);
    repeat (split; [intro E'; rewrite E in E'; try discriminate E'; reflexivity|]);
    intros tone' language'; eexists;
    (split;
     [ first [ apply outreach_instagram; exact E | apply outreach_linkedin; exact E
             | apply outreach_twitter; exact E | apply outreach_x; exact E
             | apply outreach_email; exact E | apply outreach_tiktok; exact E ]
     | reflexivity ]).
Qed.

Lemma outreach_two_variations_three_tips_witness :
  exists r : OutreachResult.t,
    generate_outreach
      (OutreachRequest.mk "TikTok" (Some "Acme") "video editing" "creators"
                          "visit site" "casual" "fr")
    = Ok r
    /\ List.length (OutreachResult.variations r) = 2
    /\ List.length (OutreachResult.tips r) = 3
    /\ OutreachResult.tips r = tiktok_tips.
Proof.
  destruct (outreach_two_variations_three_tips
              (OutreachRequest.mk "TikTok" (Some "Acme") "video editing"
                                  "creators" "visit site" "casual" "fr"))
    as [r [Hr [H2 [H3 [_ [_ [_ [_ [_ [Htik _]]]]]]]]]].
  - vm_compute. tauto.
  - exists r. repeat split; try assumption. apply Htik. reflexivity.
Defined.

(** C4: [generate_outreach] raises the 400 error naming the accepted
    platforms exactly when the lower-cased platform is none of instagram,
    linkedin, twitter, x, email and tiktok; it raises no other error and
    a rejected request gets no result; X and Twitter written in any
    letter case are accepted and both get the twitter texts and tips. *)
Theorem outreach_error_iff (p : OutreachRequest.t) :
  (generate_outreach p
   = HTTPException
       400 "Unsupported platform. Use instagram, linkedin, twitter/x, email, tiktok"
   <-> ~ In (lower (OutreachRequest.platform p))
            ["instagram"; "linkedin"; "twitter"; "x"; "email"; "tiktok"])
  /\ (forall (status_code : nat) (detail : string),
         generate_outreach p = HTTPException status_code detail ->
         status_code = 400
         /\ detail
            = "Unsupported platform. Use instagram, linkedin, twitter/x, email, tiktok")
  /\ (~ In (lower (OutreachRequest.platform p))
           ["instagram"; "linkedin"; "twitter"; "x"; "email"; "tiktok"] ->
      forall r : OutreachResult.t, generate_outreach p <> Ok r)
  /\ (casing_of "x" (OutreachRequest.platform p) = true
      \/ casing_of "twitter" (OutreachRequest.platform p) = true ->
      exists r : OutreachResult.t,
        generate_outreach p = Ok r
        /\ OutreachResult.platform r = lower (OutreachRequest.platform p)
        /\ OutreachResult.variations r
           = map (wrap (OutreachRequest.tone p) (OutreachRequest.language p))
                 (twitter_variations (OutreachRequest.offer p)
                                     (OutreachRequest.target_audience p)
                                     (OutreachRequest.goal p))
        /\ OutreachResult.tips r = twitter_tips).
Proof.
  change ["instagram"; "linkedin"; "twitter"; "x"; "email"; "tiktok"]
    with accepted_platforms.
  change "Unsupported platform. Use instagram, linkedin, twitter/x, email, tiktok"
    with unsupported_platform.
  assert (Hx : casing_of "x" (OutreachRequest.platform p) = true
               \/ casing_of "twitter" (OutreachRequest.platform p) = true ->
               exists r : OutreachResult.t,
                 generate_outreach p = Ok r
                 /\ OutreachResult.platform r = lower (OutreachRequest.platform p)
                 /\ OutreachResult.variations r
                    = map (wrap (OutreachRequest.tone p)
                                (OutreachRequest.language p))
                          (twitter_variations (OutreachRequest.offer p)
                                              (OutreachRequest.target_audience p)
                                              (OutreachRequest.goal p))
                 /\ OutreachResult.tips r = twitter_tips).
  { intros [H | H]; apply casing_of_lower in H; try reflexivity; eexists.
    - split; [apply (outreach_x p H)|]. rewrite H. repeat split.
    - split; [apply (outreach_twitter p H)|]. rewrite H. repeat split. }
  destruct (In_b (lower (OutreachRequest.platform p)) accepted_platforms) eqn:B.
  - apply In_b_true in B.
    destruct (outreach_accepted p B) as (t1 & t2 & tip1 & tip2 & tip3 & E).
    rewrite E.
    split; [split; [intro H; discriminate H | intro H; contradiction] |].
    split; [intros s d H; discriminate H |].
    split; [intro H; contradiction |].
    rewrite <- E. exact Hx.
  - apply In_b_false in B. rewrite (outreach_rejected p B).
    split; [split; [intros _; exact B | reflexivity] |].
    split; [intros s d H; injection H as <- <-; split; reflexivity |].
    split; [intros _ r H; discriminate H |].
    rewrite <- (outreach_rejected p B). exact Hx.
Qed.

Lemma outreach_error_iff_witness :
  generate_outreach
    (OutreachRequest.of_required "facebook" "SEO audit" "startups")
  = HTTPException
      400 "Unsupported platform. Use instagram, linkedin, twitter/x, email, tiktok"
  /\ exists r : OutreachResult.t,
      generate_outreach
        (OutreachRequest.of_required "TwItTeR" "SEO audit" "startups") = Ok r
      /\ OutreachResult.platform r = "twitter"
      /\ OutreachResult.tips r = twitter_tips.
Proof.
  split.
  - apply (proj1 (outreach_error_iff
                    (OutreachRequest.of_required "facebook" "SEO audit"
                                                 "startups"))).
    vm_compute. intuition discriminate.
  - destruct (proj2 (proj2 (proj2
               (outreach_error_iff
                  (OutreachRequest.of_required "TwItTeR" "SEO audit"
                                               "startups")))))
      as [r [Hr [Hp [_ Ht]]]].
    + right. reflexivity.
    + exists r. repeat split; assumption.
Defined.

(** C9: for the request on platform email with offer SEO audit, target
    audience startups and goal book a call, the other fields at their
    defaults, the first variation contains the subject line
    [Subject: Quick idea for startups]. *)
Theorem outreach_email_subject :
  exists (r : OutreachResult.t) (first : string) (others : list string),
    generate_outreach
      (OutreachRequest.mk "email" None "SEO audit" "startups" "book a call"
                          "friendly" "en")
    = Ok r
    /\ OutreachResult.variations r = first :: others
    /\ contains first "Subject: Quick idea for startups" = true
    /\ startswith first
         ("Friendly • Subject: Quick idea for startups" ++ nl ++ nl ++ "Hi there")
       = true.
Proof.
  do 3 eexists. split; [apply outreach_email; reflexivity|].
  split; [reflexivity|]. split; vm_compute; reflexivity.
Qed.

(** ** Echo of the tone *)

(** C10, as the code has it: [generate_outreach] gives back the tone and
    the language of the request as they are, so with an accepted platform
    and the empty tone the result has the empty tone, while each
    variation is the language formatter applied to a text that starts
    with Friendly: it starts with Friendly itself when the language is
    empty or a casing of [en] or [english], and with the language tag
    followed by Friendly otherwise. [generate_close_response] with the
    empty tone gives back the resolved tone friendly. *)
Theorem empty_tone_echo (p : OutreachRequest.t) (q : CloseResponseRequest.t) :
  In (lower (OutreachRequest.platform p)) accepted_platforms ->
  strip (CloseResponseRequest.customer_message q) <> EmptyString ->
  (exists r : OutreachResult.t,
      generate_outreach p = Ok r
      /\ OutreachResult.tone r = OutreachRequest.tone p
      /\ OutreachResult.language r = OutreachRequest.language p
      /\ (OutreachRequest.tone p = EmptyString ->
          OutreachResult.tone r = EmptyString
          /\ Forall (fun v : string =>
                       exists body : string,
                         v = _apply_language ("Friendly" ++ " • " ++ body)
                                             (OutreachRequest.language p))
                    (OutreachResult.variations r)
          /\ (OutreachRequest.language p = EmptyString
              \/ casing_of "en" (OutreachRequest.language p) = true
              \/ casing_of "english" (OutreachRequest.language p) = true ->
              Forall (fun v : string => startswith v "Friendly" = true)
                     (OutreachResult.variations r))
          /\ (OutreachRequest.language p <> EmptyString ->
              casing_of "en" (OutreachRequest.language p) = false ->
              casing_of "english" (OutreachRequest.language p) = false ->
              Forall (fun v : string =>
                        startswith
                          v
                          (("[" ++ upper (OutreachRequest.language p) ++ "] ")
                           ++ "Friendly") = true)
                     (OutreachResult.variations r))))
  /\ (CloseResponseRequest.tone q = Some EmptyString ->
      exists r : CloseResponseResult.t,
        generate_close_response q = Ok r
        /\ CloseResponseResult.tone r = "friendly").
Proof.
  intros Hp Hq. split.
  - destruct (outreach_accepted p Hp) as (t1 & t2 & tip1 & tip2 & tip3 & E).
    eexists. split; [exact E|]. split; [reflexivity|]. split; [reflexivity|].
    cbn [OutreachResult.tone OutreachResult.variations].
    intro Ht. split; [exact Ht|]. rewrite Ht. split; [|split].
    + repeat constructor; eexists; reflexivity.
    + intro Hen. apply english_code in Hen.
      unfold wrap. rewrite !(apply_language_skip _ _ Hen).
      repeat constructor; apply (startswith_append "Friendly").
    + intros Hne Hen Henglish.
      assert (Hno : In_b (lower (OutreachRequest.language p))
                         ["en"; "english"; EmptyString] = false).
      { destruct (In_b (lower (OutreachRequest.language p))
                       ["en"; "english"; EmptyString]) eqn:B; [|reflexivity].
        apply english_code in B. destruct B as [B | [B | B]];
          [contradiction | congruence | congruence]. }
      unfold wrap. rewrite !(apply_language_bracket _ _ Hno).
      change (_tone_prefix EmptyString) with "Friendly".
      repeat constructor; rewrite <- append_assoc; apply startswith_append.
  - intro Ht. eexists. split; [apply (close_response_accepted q Hq)|].
    simpl. now rewrite Ht.
Qed.

Lemma empty_tone_echo_witness :
  (exists r : OutreachResult.t,
      generate_outreach
        (OutreachRequest.mk "linkedin" None "SEO audit" "startups"
                            "book a call" EmptyString "EN")
      = Ok r
      /\ OutreachResult.tone r = EmptyString
      /\ Forall (fun v : string => startswith v "Friendly" = true)
                (OutreachResult.variations r))
  /\ (exists r : OutreachResult.t,
         generate_outreach
           (OutreachRequest.mk "linkedin" None "SEO audit" "startups"
                               "book a call" EmptyString "español")
         = Ok r
         /\ Forall (fun v : string =>
                      startswith v "[ESPAÑOL] Friendly" = true)
                   (OutreachResult.variations r))
  /\ (exists r : CloseResponseResult.t,
         generate_close_response
           (CloseResponseRequest.mk "hi" None None (Some EmptyString) None)
         = Ok r
         /\ CloseResponseResult.tone r = "friendly").
Proof.
  assert (Hp : In (lower "linkedin") accepted_platforms)
    by (vm_compute; tauto).
  assert (Hq : strip "hi" <> EmptyString) by (vm_compute; discriminate).
  destruct (empty_tone_echo
              (OutreachRequest.mk "linkedin" None "SEO audit" "startups"
                                  "book a call" EmptyString "EN")
              (CloseResponseRequest.mk "hi" None None (Some EmptyString) None)
              Hp Hq) as [[r [Hr [_ [_ Hempty]]]] Hclose].
  destruct (empty_tone_echo
              (OutreachRequest.mk "linkedin" None "SEO audit" "startups"
                                  "book a call" EmptyString "español")
              (CloseResponseRequest.mk "hi" None None (Some EmptyString) None)
              Hp Hq) as [[r' [Hr' [_ [_ Hempty']]]] _].
  split; [|split].
  - exists r. split; [exact Hr|].
    destruct (Hempty eq_refl) as [Ht [_ [Hen _]]].
    split; [exact Ht|]. apply Hen. right; left; reflexivity.
  - exists r'. split; [exact Hr'|].
    destruct (Hempty' eq_refl) as [_ [_ [_ Htag]]].
    apply Htag; [discriminate | reflexivity | reflexivity].
  - apply Hclose. reflexivity.
Defined.

(** With an accepted platform, the empty tone and the language [es],
    no variation starts with Friendly: each starts with the ES tag, and
    Friendly comes after it. *)
Lemma empty_tone_spanish_not_friendly_first :
  exists (r : OutreachResult.t),
    generate_outreach
      (OutreachRequest.mk "email" None "SEO audit" "startups" "book a call"
                          EmptyString "es")
    = Ok r
    /\ OutreachResult.tone r = EmptyString
    /\ Forall (fun v : string => startswith v "Friendly" = false)
              (OutreachResult.variations r)
    /\ Forall (fun v : string => startswith v "[ES] Friendly • " = true)
              (OutreachResult.variations r)
    /\ ~ Forall (fun v : string => startswith v "Friendly" = true)
                (OutreachResult.variations r).
Proof.
  eexists. split; [apply outreach_email; reflexivity|].
  split; [reflexivity|].
  split; [repeat constructor|]. split; [repeat constructor|].
  intro H. inversion H as [|v l Hv _]. vm_compute in Hv. discriminate Hv.
Qed.

(** ** Worked examples *)

Example strip_sample :
  strip (String (ascii_of_nat 9) "  hi there " ++ nl) = "hi there".
Proof. reflexivity. Qed.

Example strip_no_break_space :
  strip (String (ascii_of_nat 194) (String (ascii_of_nat 160) " ")) = EmptyString.
Proof. reflexivity. Qed.

Example title_sample : title "book a call" = "Book A Call".
Proof. reflexivity. Qed.

Example capitalize_sample : capitalize "hELLO wORLD" = "Hello world".
Proof. reflexivity. Qed.

Example title_accents : title "café über" = "Café Über".
Proof. vm_compute. reflexivity. Qed.

Example lower_final_sigma : lower "ΟΔΟΣ ΣΟΦΙΑΣ" = "οδος σοφιας".
Proof. vm_compute. reflexivity. Qed.

Example upper_sharp_s : upper "straße" = "STRASSE".
Proof. vm_compute. reflexivity. Qed.

(** A language code and a tone with letters outside the ASCII range. *)
Example apply_language_spanish :
  _apply_language "Hola" "español" = "[ESPAÑOL] Hola".
Proof. vm_compute. reflexivity. Qed.

Example tone_prefix_accent :
  _tone_prefix "élan" = "Élan" /\ _tone_prefix "ÉLAN" = "Élan".
Proof. split; vm_compute; reflexivity. Qed.

(** The Kelvin sign lower-cases to the letter k, so a platform spelled
    with it is accepted as tiktok. *)
Example outreach_kelvin_sign :
  lower "TIKTOK" = "tiktok"
  /\ exists r : OutreachResult.t,
      generate_outreach
        (OutreachRequest.of_required "TIKTOK" "SEO audit" "startups") = Ok r
      /\ OutreachResult.platform r = "tiktok"
      /\ OutreachResult.tips r = tiktok_tips.
Proof.
  split; [vm_compute; reflexivity|].
  eexists. split; [apply outreach_tiktok; vm_compute; reflexivity|].
  split; reflexivity.
Qed.

(** The example of the specification: message hi, offer coaching, tone
    confident, language es. *)
Example close_response_sample :
  exists (r : CloseResponseResult.t) (v : CloseResponseVariant.t)
         (others : list CloseResponseVariant.t),
    generate_close_response
      (CloseResponseRequest.mk "hi" None (Some "coaching") (Some "confident")
                               (Some "es"))
    = Ok r
    /\ CloseResponseResult.variants r = v :: others
    /\ CloseResponseVariant.label v = "Direct Close"
    /\ startswith (CloseResponseVariant.text v)
                  "[ES] Confident • Our brand: Thanks for reaching out!" = true
    /\ contains (CloseResponseVariant.text v) "coaching" = true.
Proof.
  do 3 eexists. split; [apply close_response_accepted; vm_compute; discriminate|].
  split; [reflexivity|]. repeat split; vm_compute; reflexivity.
Qed.


(** ** More on the formatting helpers *)

Section FormatterFacts.

Lemma length_append (s t : string) :
  String.length (s ++ t) = String.length s + String.length t.
Proof. induction s as [|c s IH]; simpl; [reflexivity | now rewrite IH]. Qed.

Lemma append_fixed (s t : string) : s ++ t = t -> s = EmptyString.
Proof.
  intro H. apply (f_equal String.length) in H. rewrite length_append in H.
  destruct s; [reflexivity | simpl in H; lia].
Qed.

Lemma apply_language_by_lower (text a b : string) :
  isascii a = true -> isascii b = true ->
  lower a = lower b -> _apply_language text a = _apply_language text b.
Proof.
  intros Ha Hb H. unfold _apply_language.
  now rewrite H, (lower_eq_upper a b Ha Hb H).
Qed.

Lemma tone_prefix_by_lower (a b : string) :
  lower a = lower b -> _tone_prefix a = _tone_prefix b.
Proof.
  intro H.
  destruct (string_dec a EmptyString) as [Ea | Na];
    destruct (string_dec b EmptyString) as [Eb | Nb].
  - now subst.
  - exfalso. apply Nb, lower_empty. rewrite <- H. now subst a.
  - exfalso. apply Na, lower_empty. rewrite H. now subst b.
  - now rewrite !tone_prefix_lowered, H.
Qed.

Lemma get_values (d : list (string * string)) (k default : string) :
  forallb (fun entry : string * string => truthy (snd entry)) d = true ->
  truthy default = true -> truthy (get d k default) = true.
Proof.
  intros Hd Hdefault. destruct (get_found d k default) as [-> | Hin];
    [exact Hdefault|].
  exact (proj1 (forallb_forall _ _) Hd _ Hin).
Qed.

(** No code point has an empty title-case form. *)
Lemma to_title_nonempty (ch : string) :
  truthy ch = true -> truthy (to_title ch) = true.
Proof.
  intro H. unfold to_title, to_upper.
  apply get_values; [vm_compute; reflexivity|].
  apply get_values; [vm_compute; reflexivity | exact H].
Qed.

Lemma chars_nonempty (s : string) :
  Forall (fun ch : string => truthy ch = true) (chars s).
Proof.
  induction s as [|c s IH]; simpl; [constructor|].
  destruct (chars s) as [|[|d ch] rest].
  - repeat constructor.
  - constructor; [reflexivity | exact IH].
  - destruct (is_continuation d).
    + constructor; [reflexivity | now inversion IH].
    + constructor; [reflexivity | exact IH].
Qed.

Lemma capitalize_nonempty (s : string) :
  s <> EmptyString -> capitalize s <> EmptyString.
Proof.
  intro H. unfold capitalize. pose proof (chars_nonempty s) as F.
  pose proof (join_chars s) as J.
  destruct (chars s) as [|ch after]; [now contradiction H|].
  inversion F as [|x l Hch _]. apply to_title_nonempty in Hch.
  simpl. destruct (to_title ch); [discriminate Hch | discriminate].
Qed.

Lemma capitalize_idem (s : string) :
  isascii s = true -> capitalize (capitalize s) = capitalize s.
Proof.
  intro H. rewrite (capitalize_isascii s H).
  rewrite (capitalize_isascii _ (isascii_capitalize_ascii s H)).
  apply capitalize_ascii_idem.
Qed.

End FormatterFacts.

(** X1: [_apply_language] gives its text back unchanged only for the
    English codes: for any other code, of the table or not, the result is
    the text with the upper-cased code between brackets in front, so it
    is never the text itself. *)
Theorem apply_language_identity_iff (text language : string) :
  (_apply_language text language = text
   <-> language = EmptyString
       \/ casing_of "en" language = true
       \/ casing_of "english" language = true)
  /\ (_apply_language text language <> text ->
      _apply_language text language = ("[" ++ upper language ++ "] ") ++ text).
Proof.
  rewrite <- english_code.
  destruct (In_b (lower language) ["en"; "english"; EmptyString]) eqn:E.
  - rewrite (apply_language_skip text language E).
    split; [tauto | intro H; now contradiction H].
  - rewrite (apply_language_bracket text language E). split.
    + split; intro H; [|discriminate H].
      apply append_fixed in H. discriminate H.
    + intros _. reflexivity.
Qed.

Lemma apply_language_identity_iff_witness :
  _apply_language "Bonjour" "fr-CA" = "[FR-CA] Bonjour".
Proof.
  apply (proj2 (apply_language_identity_iff "Bonjour" "fr-CA")).
  vm_compute. discriminate.
Defined.

(** X2: the language code is read without regard to letter case: two
    ASCII codes with the same lower-case form give the same result. *)
Theorem apply_language_case_insensitive (text a b : string) :
  isascii a = true -> isascii b = true ->
  lower a = lower b -> _apply_language text a = _apply_language text b.
Proof.
  apply apply_language_by_lower.
Qed.

Lemma apply_language_case_insensitive_witness :
  _apply_language "Hola" "zH-tw" = _apply_language "Hola" "Zh-TW".
Proof.
  apply apply_language_case_insensitive; reflexivity.
Defined.

(** X3: the tone is read without regard to letter case: two tones with
    the same lower-case form give the same label. *)
Theorem tone_prefix_case_insensitive (a b : string) :
  lower a = lower b -> _tone_prefix a = _tone_prefix b.
Proof. apply tone_prefix_by_lower. Qed.

Lemma tone_prefix_case_insensitive_witness :
  _tone_prefix "PLAYful" = _tone_prefix "playFUL".
Proof.
  apply tone_prefix_case_insensitive. reflexivity.
Defined.

(** X4: the label of a tone is never empty; for an ASCII tone it is in
    capitalized form and is its own label: applying [_tone_prefix] twice
    is the same as applying it once. *)
Theorem tone_prefix_idempotent (tone : string) :
  _tone_prefix tone <> EmptyString
  /\ (isascii tone = true ->
      capitalize (_tone_prefix tone) = _tone_prefix tone
      /\ _tone_prefix (_tone_prefix tone) = _tone_prefix tone).
Proof.
  split.
  - destruct (string_dec tone EmptyString) as [-> | N].
    + vm_compute. discriminate.
    + rewrite (tone_prefix_lowered tone N). apply capitalize_nonempty.
      intro E. apply (proj1 (lower_empty tone)) in E. contradiction.
  - intro Ha.
    assert (G : exists s : string,
               isascii s = true /\ s <> EmptyString
               /\ _tone_prefix tone = capitalize s).
    { destruct (string_dec tone EmptyString) as [-> | N].
      - exists "friendly".
        split; [reflexivity|]. split; [discriminate | vm_compute; reflexivity].
      - exists tone. split; [exact Ha|]. split; [exact N|].
        now apply tone_prefix_capitalize. }
    destruct G as (s & Hs & Ns & E). rewrite E.
    split; [now apply capitalize_idem|].
    rewrite tone_prefix_capitalize.
    + now apply capitalize_idem.
    + rewrite (capitalize_isascii s Hs). now apply isascii_capitalize_ascii.
    + now apply capitalize_nonempty.
Qed.

Lemma tone_prefix_idempotent_witness :
  _tone_prefix (_tone_prefix "very WARM") = _tone_prefix "very WARM".
Proof.
  apply (proj2 (tone_prefix_idempotent "very WARM")). reflexivity.
Defined.

(** ** More on the close-response generator *)

Section ContainsFacts.

Lemma contains_start (s sub : string) :
  startswith s sub = true -> contains s sub = true.
Proof. intro H. destruct s; simpl; now rewrite H. Qed.

Lemma contains_here (sub rest : string) : contains (sub ++ rest) sub = true.
Proof. apply contains_start, startswith_append. Qed.

Lemma contains_skip (s t sub : string) :
  contains t sub = true -> contains (s ++ t) sub = true.
Proof.
  intro H. induction s as [|c s IH]; [exact H|].
  change (String c s ++ t) with (String c (s ++ t)).
  change (contains (String c (s ++ t)) sub)
    with (startswith (String c (s ++ t)) sub || contains (s ++ t) sub).
  rewrite IH. apply orb_true_r.
Qed.

Lemma contains_cons (c : ascii) (t sub : string) :
  contains t sub = true -> contains (String c t) sub = true.
Proof. apply (contains_skip (String c EmptyString)). Qed.

(** A text keeps what it contains when it goes through the language
    formatter. *)
Lemma contains_apply_language (text language sub : string) :
  contains text sub = true ->
  contains (_apply_language text language) sub = true.
Proof.
  intro H. destruct (apply_language_affix language) as [prefix E].
  rewrite E. now apply contains_skip.
Qed.

End ContainsFacts.

(** Finds [sub] among the pieces of a concatenation. *)
Ltac find_piece :=
  repeat first [ apply contains_here
               | apply contains_apply_language
               | apply contains_cons
               | apply contains_skip ].

(** X5: the reply does not depend on what the customer wrote: two
    requests that differ only in a [customer_message] that is not blank
    get the same result. *)
Theorem close_response_ignores_message
        (m1 m2 : string) (brand offer tone language : option string) :
  strip m1 <> EmptyString -> strip m2 <> EmptyString ->
  generate_close_response (CloseResponseRequest.mk m1 brand offer tone language)
  = generate_close_response (CloseResponseRequest.mk m2 brand offer tone language).
Proof.
  intros H1 H2.
  rewrite (close_response_accepted (CloseResponseRequest.mk m1 _ _ _ _) H1).
  rewrite (close_response_accepted (CloseResponseRequest.mk m2 _ _ _ _) H2).
  reflexivity.
Qed.

Lemma close_response_ignores_message_witness :
  generate_close_response
    (CloseResponseRequest.mk "How much is it?" None (Some "coaching") None None)
  = generate_close_response
      (CloseResponseRequest.mk "Not interested, sorry." None (Some "coaching")
                               None None).
Proof.
  apply close_response_ignores_message; vm_compute; discriminate.
Defined.

(** X6: an optional field that is missing, [None] or the empty string
    counts as its default: the request with the defaults Our brand, our
    solution, friendly and en written out gets the same tone, language
    and variants. *)
Theorem close_response_defaults
        (message : string) (brand offer tone language : option string) :
  strip message <> EmptyString ->
  exists r r' : CloseResponseResult.t,
    generate_close_response
      (CloseResponseRequest.mk message brand offer tone language) = Ok r
    /\ generate_close_response
         (CloseResponseRequest.mk
            message
            (Some (or_else brand "Our brand"))
            (Some (or_else offer "our solution"))
            (Some (or_else tone "friendly"))
            (Some (or_else language "en"))) = Ok r'
    /\ CloseResponseResult.tone r = CloseResponseResult.tone r'
    /\ CloseResponseResult.language r = CloseResponseResult.language r'
    /\ CloseResponseResult.variants r = CloseResponseResult.variants r'.
Proof.
  intro H.
  assert (G : forall (x : option string) (c : ascii) (d : string),
             or_else (Some (or_else x (String c d))) (String c d)
             = or_else x (String c d)).
  { intros [[|a s]|] c d; reflexivity. }
  do 2 eexists.
  split; [apply (close_response_accepted (CloseResponseRequest.mk _ _ _ _ _) H)|].
  split; [apply (close_response_accepted (CloseResponseRequest.mk _ _ _ _ _) H)|].
  cbn [CloseResponseResult.tone CloseResponseResult.language
       CloseResponseResult.variants CloseResponseRequest.tone
       CloseResponseRequest.language CloseResponseRequest.offer
       CloseResponseRequest.brand_name].
  rewrite !G. repeat split.
Qed.

Lemma close_response_defaults_witness :
  exists r r' : CloseResponseResult.t,
    generate_close_response
      (CloseResponseRequest.mk "hi" (Some EmptyString) None (Some EmptyString)
                               None) = Ok r
    /\ generate_close_response
         (CloseResponseRequest.mk "hi" (Some "Our brand") (Some "our solution")
                                  (Some "friendly") (Some "en")) = Ok r'
    /\ CloseResponseResult.tone r = CloseResponseResult.tone r'
    /\ CloseResponseResult.language r = CloseResponseResult.language r'
    /\ CloseResponseResult.variants r = CloseResponseResult.variants r'.
Proof.
  apply (close_response_defaults "hi" (Some EmptyString) None
                                 (Some EmptyString) None).
  vm_compute. discriminate.
Defined.

(** X7: the tone and the language of a close-response result are never
    empty: they are the ones of the request when it gives them, friendly
    and en otherwise. *)
Theorem close_response_resolved_echo
        (p : CloseResponseRequest.t) (r : CloseResponseResult.t) :
  generate_close_response p = Ok r ->
  CloseResponseResult.tone r <> EmptyString
  /\ CloseResponseResult.language r <> EmptyString
  /\ (forall t : string,
         CloseResponseRequest.tone p = Some t -> t <> EmptyString ->
         CloseResponseResult.tone r = t)
  /\ (forall l : string,
         CloseResponseRequest.language p = Some l -> l <> EmptyString ->
         CloseResponseResult.language r = l)
  /\ (CloseResponseRequest.tone p = None ->
      CloseResponseResult.tone r = "friendly")
  /\ (CloseResponseRequest.language p = None ->
      CloseResponseResult.language r = "en").
Proof.
  intro H.
  destruct (string_dec (strip (CloseResponseRequest.customer_message p))
                       EmptyString) as [E | N].
  - rewrite (close_response_rejected p E) in H. discriminate H.
  - rewrite (close_response_accepted p N) in H. injection H as <-. simpl.
    assert (G : forall (x : option string) (c : ascii) (d : string),
               or_else x (String c d) <> EmptyString).
    { intros [[|a s]|] c d; simpl; discriminate. }
    split; [apply G|]. split; [apply G|].
    split; [intros [|a t] -> Ht; [now contradiction Ht | reflexivity]|].
    split; [intros [|a t] -> Ht; [now contradiction Ht | reflexivity]|].
    split; intros ->; reflexivity.
Qed.

Lemma close_response_resolved_echo_witness :
  exists r : CloseResponseResult.t,
    generate_close_response
      (CloseResponseRequest.mk "hi" None None (Some EmptyString) (Some "pt"))
    = Ok r
    /\ CloseResponseResult.tone r <> EmptyString
    /\ CloseResponseResult.language r = "pt".
Proof.
  eexists. split; [reflexivity|].
  pose proof (close_response_resolved_echo
                (CloseResponseRequest.mk "hi" None None (Some EmptyString)
                                         (Some "pt"))
                _ eq_refl) as [Ht [_ [_ [Hl _]]]].
  split; [exact Ht|]. apply (Hl "pt"); [reflexivity | discriminate].
Defined.

(** X8: every variant of a close-response result carries the tone label,
    the brand and the offer that the request resolves to. *)
Theorem close_response_mentions
        (p : CloseResponseRequest.t) (r : CloseResponseResult.t) :
  generate_close_response p = Ok r ->
  Forall (fun v : CloseResponseVariant.t =>
            contains (CloseResponseVariant.text v)
                     (_tone_prefix (CloseResponseResult.tone r)) = true
            /\ contains (CloseResponseVariant.text v)
                        (or_else (CloseResponseRequest.brand_name p) "Our brand")
               = true
            /\ contains (CloseResponseVariant.text v)
                        (or_else (CloseResponseRequest.offer p) "our solution")
               = true)
         (CloseResponseResult.variants r).
Proof.
  intro H.
  destruct (string_dec (strip (CloseResponseRequest.customer_message p))
                       EmptyString) as [E | N].
  - rewrite (close_response_rejected p E) in H. discriminate H.
  - rewrite (close_response_accepted p N) in H. injection H as <-.
    cbv [CloseResponseResult.variants CloseResponseResult.tone base_variants
         map close_variant CloseResponseVariant.text].
    repeat constructor; find_piece.
Qed.

Lemma close_response_mentions_witness :
  exists r : CloseResponseResult.t,
    generate_close_response
      (CloseResponseRequest.mk "hi" (Some "Acme") (Some "coaching")
                               (Some "warm") (Some "de")) = Ok r
    /\ Forall (fun v : CloseResponseVariant.t =>
                 contains (CloseResponseVariant.text v) "Warm" = true
                 /\ contains (CloseResponseVariant.text v) "Acme" = true
                 /\ contains (CloseResponseVariant.text v) "coaching" = true)
              (CloseResponseResult.variants r).
Proof.
  eexists. split; [reflexivity|].
  exact (close_response_mentions
           (CloseResponseRequest.mk "hi" (Some "Acme") (Some "coaching")
                                    (Some "warm") (Some "de")) _ eq_refl).
Defined.

(** ** More on the outreach generator *)

Section OutreachFacts.

Lemma outreach_by_lower_platform
      (platform platform' : string) (brand : option string)
      (offer audience goal tone language : string) :
  lower platform = lower platform' ->
  generate_outreach
    (OutreachRequest.mk platform brand offer audience goal tone language)
  = generate_outreach
      (OutreachRequest.mk platform' brand offer audience goal tone language).
Proof.
  intro H. unfold generate_outreach.
  cbn [OutreachRequest.platform OutreachRequest.brand_name
       OutreachRequest.offer OutreachRequest.target_audience
       OutreachRequest.goal OutreachRequest.tone OutreachRequest.language].
  now rewrite H.
Qed.

Lemma outreach_ok_accepted (p : OutreachRequest.t) (r : OutreachResult.t) :
  generate_outreach p = Ok r ->
  In (lower (OutreachRequest.platform p)) accepted_platforms.
Proof.
  intro H. apply In_b_true.
  destruct (In_b (lower (OutreachRequest.platform p)) accepted_platforms) eqn:B;
    [reflexivity|].
  apply In_b_false in B. rewrite (outreach_rejected p B) in H. discriminate H.
Qed.

End OutreachFacts.

(** X9: the platform of an outreach result is the lower-cased platform of
    the request, one of the six accepted names; the letter case of the
    requested platform has no other effect, and sending the request again
    with the platform of the result gives the same result. *)
Theorem outreach_platform_canonical
        (platform : string) (brand : option string)
        (offer audience goal tone language : string) (r : OutreachResult.t) :
  generate_outreach
    (OutreachRequest.mk platform brand offer audience goal tone language)
  = Ok r ->
  OutreachResult.platform r = lower platform
  /\ In (OutreachResult.platform r) accepted_platforms
  /\ (forall platform' : string,
         lower platform' = lower platform ->
         generate_outreach
           (OutreachRequest.mk platform' brand offer audience goal tone language)
         = Ok r)
  /\ generate_outreach
       (OutreachRequest.mk (OutreachResult.platform r) brand offer audience
                           goal tone language)
     = Ok r.
Proof.
  intro H. pose proof (outreach_ok_accepted _ _ H) as Hin.
  assert (Hp : OutreachResult.platform r = lower platform).
  { destruct (outreach_accepted _ Hin) as (t1 & t2 & tip1 & tip2 & tip3 & E).
    rewrite E in H. injection H as <-. reflexivity. }
  assert (Hsame : forall platform' : string,
             lower platform' = lower platform ->
             generate_outreach
               (OutreachRequest.mk platform' brand offer audience goal tone
                                   language)
             = Ok r).
  { intros platform' E. rewrite <- H. now apply outreach_by_lower_platform. }
  split; [exact Hp|]. split; [rewrite Hp; exact Hin|]. split; [exact Hsame|].
  apply Hsame. rewrite Hp. simpl in Hin.
  destruct Hin as [E | [E | [E | [E | [E | [E | []]]]]]];
    rewrite <- E; vm_compute; reflexivity.
Qed.

Lemma outreach_platform_canonical_witness :
  exists r : OutreachResult.t,
    generate_outreach
      (OutreachRequest.mk "LinkedIn" None "SEO audit" "startups" "book a call"
                          "friendly" "en") = Ok r
    /\ OutreachResult.platform r = "linkedin"
    /\ generate_outreach
         (OutreachRequest.mk "linkedin" None "SEO audit" "startups"
                             "book a call" "friendly" "en") = Ok r.
Proof.
  eexists. split; [reflexivity|].
  pose proof (outreach_platform_canonical
                "LinkedIn" None "SEO audit" "startups" "book a call"
                "friendly" "en" _ eq_refl) as [Hp [_ [_ Hagain]]].
  split; [exact Hp | exact Hagain].
Defined.

(** X10: on twitter, x, email and tiktok the brand name is not used: the
    response is the same whatever [brand_name] the request gives. *)
Theorem outreach_brand_unused
        (platform : string) (brand brand' : option string)
        (offer audience goal tone language : string) :
  In (lower platform) ["twitter"; "x"; "email"; "tiktok"] ->
  generate_outreach
    (OutreachRequest.mk platform brand offer audience goal tone language)
  = generate_outreach
      (OutreachRequest.mk platform brand' offer audience goal tone language).
Proof.
  intro H. simpl in H.
  destruct H as [E | [E | [E | [E | []]]]]; symmetry in E.
  - rewrite !outreach_twitter by exact E. reflexivity.
  - rewrite !outreach_x by exact E. reflexivity.
  - rewrite !outreach_email by exact E. reflexivity.
  - rewrite !outreach_tiktok by exact E. reflexivity.
Qed.

Lemma outreach_brand_unused_witness :
  generate_outreach
    (OutreachRequest.mk "Email" (Some "Acme") "SEO audit" "startups"
                        "book a call" "friendly" "en")
  = generate_outreach
      (OutreachRequest.mk "Email" None "SEO audit" "startups"
                          "book a call" "friendly" "en").
Proof.
  apply outreach_brand_unused. vm_compute. tauto.
Defined.

(** X11: every variation of an outreach result carries the tone label
    and the offer; it carries the goal as given on every platform but
    instagram, and the target audience on every platform but tiktok. *)
Theorem outreach_mentions (p : OutreachRequest.t) (r : OutreachResult.t) :
  generate_outreach p = Ok r ->
  Forall (fun v : string =>
            contains v (_tone_prefix (OutreachRequest.tone p)) = true
            /\ contains v (OutreachRequest.offer p) = true)
         (OutreachResult.variations r)
  /\ (OutreachResult.platform r <> "instagram" ->
      Forall (fun v : string => contains v (OutreachRequest.goal p) = true)
             (OutreachResult.variations r))
  /\ (OutreachResult.platform r <> "tiktok" ->
      Forall (fun v : string =>
                contains v (OutreachRequest.target_audience p) = true)
             (OutreachResult.variations r)).
Proof.
  intro H. pose proof (outreach_ok_accepted _ _ H) as Hin. simpl in Hin.
  destruct Hin as [E | [E | [E | [E | [E | [E | []]]]]]]; symmetry in E;
    [ rewrite (outreach_instagram p E) in H
    | rewrite (outreach_linkedin p E) in H
    | rewrite (outreach_twitter p E) in H
    | rewrite (outreach_x p E) in H
    | rewrite (outreach_email p E) in H
    | rewrite (outreach_tiktok p E) in H ];
    injection H as <-;
    cbv [OutreachResult.variations OutreachResult.platform map wrap
         instagram_variations linkedin_variations twitter_variations
         email_variations tiktok_variations];
    (split; [repeat constructor; find_piece|]);
    (split; intro Hne;
     try (now contradiction Hne); repeat constructor; find_piece).
Qed.

Lemma outreach_mentions_witness :
  exists r : OutreachResult.t,
    generate_outreach
      (OutreachRequest.mk "x" None "SEO audit" "startups" "book a call"
                          "casual" "es") = Ok r
    /\ Forall (fun v : string =>
                 contains v "Casual" = true /\ contains v "SEO audit" = true)
              (OutreachResult.variations r)
    /\ Forall (fun v : string => contains v "book a call" = true)
              (OutreachResult.variations r).
Proof.
  eexists. split; [reflexivity|].
  pose proof (outreach_mentions
                (OutreachRequest.mk "x" None "SEO audit" "startups"
                                    "book a call" "casual" "es") _ eq_refl)
    as [Hall [Hgoal _]].
  split; [exact Hall|]. apply Hgoal. discriminate.
Defined.

(** ** Letter case of the tone and of the language *)

(** X16: the texts of a close-response result do not depend on the
    letter case of the tone and of the language: two requests with ASCII
    tones and languages that agree up to letter case get variants with
    the same labels and texts, while each result gives back its own tone
    and language. *)
Theorem close_response_case_insensitive
        (message : string) (brand offer : option string)
        (tone tone' language language' : string) :
  strip message <> EmptyString ->
  isascii tone = true -> isascii tone' = true ->
  isascii language = true -> isascii language' = true ->
  lower tone = lower tone' -> lower language = lower language' ->
  exists r r' : CloseResponseResult.t,
    generate_close_response
      (CloseResponseRequest.mk message brand offer (Some tone) (Some language))
    = Ok r
    /\ generate_close_response
         (CloseResponseRequest.mk message brand offer (Some tone')
                                  (Some language'))
       = Ok r'
    /\ CloseResponseResult.variants r = CloseResponseResult.variants r'.
Proof.
  intros H _ _ Hal Hal' Ht Hl.
  assert (G : forall (d a b : string),
             lower a = lower b ->
             lower (or_else (Some a) d) = lower (or_else (Some b) d)).
  { intros d a b E.
    destruct (string_dec a EmptyString) as [Ea | Na];
      destruct (string_dec b EmptyString) as [Eb | Nb].
    - now subst.
    - exfalso. apply Nb, lower_empty. rewrite <- E. now subst a.
    - exfalso. apply Na, lower_empty. rewrite E. now subst b.
    - destruct a; [now contradiction Na|]. destruct b; [now contradiction Nb|].
      exact E. }
  assert (A : forall (d a : string),
             isascii d = true -> isascii a = true ->
             isascii (or_else (Some a) d) = true).
  { intros d [|x a] Hd Ha; simpl; assumption. }
  do 2 eexists.
  split; [apply (close_response_accepted (CloseResponseRequest.mk _ _ _ _ _) H)|].
  split; [apply (close_response_accepted (CloseResponseRequest.mk _ _ _ _ _) H)|].
  cbn [CloseResponseResult.variants CloseResponseRequest.tone
       CloseResponseRequest.language CloseResponseRequest.offer
       CloseResponseRequest.brand_name].
  apply map_ext. intros [label txt]. unfold close_variant.
  rewrite (tone_prefix_by_lower _ _ (G "friendly" tone tone' Ht)).
  now rewrite (apply_language_by_lower
                 _ _ _ (A "en" language eq_refl Hal)
                 (A "en" language' eq_refl Hal') (G "en" language language' Hl)).
Qed.

Lemma close_response_case_insensitive_witness :
  exists r r' : CloseResponseResult.t,
    generate_close_response
      (CloseResponseRequest.mk "hi" None None (Some "WARM") (Some "ES")) = Ok r
    /\ generate_close_response
         (CloseResponseRequest.mk "hi" None None (Some "warm") (Some "es"))
       = Ok r'
    /\ CloseResponseResult.variants r = CloseResponseResult.variants r'.
Proof.
  apply close_response_case_insensitive; try reflexivity.
  vm_compute. discriminate.
Defined.

(** X17: the variations and the tips of an outreach result do not depend
    on the letter case of the tone and of the language: two requests
    with ASCII tones and languages that agree up to letter case get the
    same variations and tips, while each result gives back its own tone
    and language. *)
Theorem outreach_case_insensitive
        (platform : string) (brand : option string)
        (offer audience goal tone tone' language language' : string) :
  In (lower platform) accepted_platforms ->
  isascii tone = true -> isascii tone' = true ->
  isascii language = true -> isascii language' = true ->
  lower tone = lower tone' -> lower language = lower language' ->
  exists r r' : OutreachResult.t,
    generate_outreach
      (OutreachRequest.mk platform brand offer audience goal tone language)
    = Ok r
    /\ generate_outreach
         (OutreachRequest.mk platform brand offer audience goal tone' language')
       = Ok r'
    /\ OutreachResult.variations r = OutreachResult.variations r'
    /\ OutreachResult.tips r = OutreachResult.tips r'
    /\ OutreachResult.tone r = tone /\ OutreachResult.tone r' = tone'
    /\ OutreachResult.language r = language
    /\ OutreachResult.language r' = language'.
Proof.
  intros Hin _ _ Hal Hal' Ht Hl.
  assert (W : forall text : string,
             wrap tone language text = wrap tone' language' text).
  { intro text. unfold wrap.
    now rewrite (tone_prefix_by_lower _ _ Ht),
                (apply_language_by_lower _ _ _ Hal Hal' Hl). }
  simpl in Hin.
  destruct Hin as [E | [E | [E | [E | [E | [E | []]]]]]]; symmetry in E;
    do 2 eexists;
    (split;
     [ first [ apply outreach_instagram; exact E | apply outreach_linkedin; exact E
             | apply outreach_twitter; exact E | apply outreach_x; exact E
             | apply outreach_email; exact E | apply outreach_tiktok; exact E ] |]);
    (split;
     [ first [ apply outreach_instagram; exact E | apply outreach_linkedin; exact E
             | apply outreach_twitter; exact E | apply outreach_x; exact E
             | apply outreach_email; exact E | apply outreach_tiktok; exact E ] |]);
    cbn [OutreachResult.variations OutreachResult.tips OutreachResult.tone
         OutreachResult.language OutreachRequest.tone OutreachRequest.language];
    (split; [apply map_ext; exact W|]); repeat split.
Qed.

Lemma outreach_case_insensitive_witness :
  exists r r' : OutreachResult.t,
    generate_outreach
      (OutreachRequest.mk "tiktok" None "SEO audit" "startups" "book a call"
                          "Casual" "FR") = Ok r
    /\ generate_outreach
         (OutreachRequest.mk "tiktok" None "SEO audit" "startups" "book a call"
                             "casual" "fr") = Ok r'
    /\ OutreachResult.variations r = OutreachResult.variations r'
    /\ OutreachResult.tone r = "Casual" /\ OutreachResult.tone r' = "casual".
Proof.
  destruct (outreach_case_insensitive
              "tiktok" None "SEO audit" "startups" "book a call"
              "Casual" "casual" "FR" "fr")
    as (r & r' & H & H' & Hv & _ & Ht & Ht' & _); try reflexivity.
  - vm_compute. tauto.
  - exists r, r'. repeat split; assumption.
Defined.

(** ** The diagnostic endpoint *)

Section SliceFacts.

Lemma len_append (s t : string) : len (s ++ t) = len s + len t.
Proof.
  induction s as [|c s IH]; simpl; [reflexivity|].
  rewrite IH. now destruct (is_continuation c).
Qed.

(** A slice holds at most the code points asked for. *)
Lemma len_slice_to (n : nat) (s : string) : len (slice_to n s) <= n.
Proof.
  revert n; induction s as [|c s IH]; intro n; simpl; [lia|].
  destruct (is_continuation c) eqn:E; simpl.
  - rewrite E. apply IH.
  - destruct n as [|n]; simpl; [lia|]. rewrite E. specialize (IH n). lia.
Qed.

(** A slice is the front of the string. *)
Lemma slice_to_front (n : nat) (s : string) :
  exists rest : string, s = slice_to n s ++ rest.
Proof.
  revert n; induction s as [|c s IH]; intro n; simpl.
  - now exists EmptyString.
  - destruct (is_continuation c).
    + destruct (IH n) as [rest E]. exists rest. simpl. now rewrite <- E.
    + destruct n as [|n].
      * now exists (String c s).
      * destruct (IH n) as [rest E]. exists rest. simpl. now rewrite <- E.
Qed.

(** A string that is short enough is its own slice. *)
Lemma slice_to_short (n : nat) (s : string) : len s <= n -> slice_to n s = s.
Proof.
  revert n; induction s as [|c s IH]; intro n; simpl; [reflexivity|].
  destruct (is_continuation c); intro H.
  - now rewrite IH.
  - destruct n as [|n]; [lia|]. rewrite IH; [reflexivity | lia].
Qed.

End SliceFacts.

(** X12: the fields [database_url] and [database_name] of the diagnostic
    response say only whether the variables DATABASE_URL and
    DATABASE_NAME of the environment are set to a string that is not
    empty; what the import of the database does, and the name of the
    database, never show in them. *)
Theorem test_database_environment
        (imported : import_outcome) (getenv : string -> option string) :
  TestResponse.database_url (test_database imported getenv)
  = Some (if truthy_opt (getenv "DATABASE_URL") then "✅ Set" else "❌ Not Set")
  /\ TestResponse.database_name (test_database imported getenv)
     = Some (if truthy_opt (getenv "DATABASE_NAME")
             then "✅ Set" else "❌ Not Set")
  /\ (forall imported' : import_outcome,
         TestResponse.database_url (test_database imported' getenv)
         = TestResponse.database_url (test_database imported getenv)
         /\ TestResponse.database_name (test_database imported' getenv)
            = TestResponse.database_name (test_database imported getenv)).
Proof.
  assert (G : forall i : import_outcome,
             TestResponse.database_url (test_database i getenv)
             = Some (if truthy_opt (getenv "DATABASE_URL")
                     then "✅ Set" else "❌ Not Set")
             /\ TestResponse.database_name (test_database i getenv)
                = Some (if truthy_opt (getenv "DATABASE_NAME")
                        then "✅ Set" else "❌ Not Set")).
  { intro i. split; reflexivity. }
  destruct (G imported) as [Hu Hn].
  split; [exact Hu|]. split; [exact Hn|].
  intro i. destruct (G i) as [Hu' Hn']. now rewrite Hu, Hn, Hu', Hn'.
Qed.

(** X13: the response lists at most ten collections: the first ten names
    that [list_collection_names] returns, and none when the database is
    missing or the listing fails; a response that lists a collection
    reports the database as connected and working. *)
Theorem test_database_collections
        (imported : import_outcome) (getenv : string -> option string) :
  List.length (TestResponse.collections (test_database imported getenv)) <= 10
  /\ (forall (db : Database.t) (names : list string),
         imported = Imported (Some db) ->
         Database.list_collection_names db = inr names ->
         TestResponse.collections (test_database imported getenv)
         = firstn 10 names)
  /\ ((forall (db : Database.t) (names : list string),
          imported = Imported (Some db) ->
          Database.list_collection_names db <> inr names) ->
      TestResponse.collections (test_database imported getenv) = [])
  /\ (TestResponse.collections (test_database imported getenv) <> [] ->
      TestResponse.database (test_database imported getenv)
      = "✅ Connected & Working"
      /\ TestResponse.connection_status (test_database imported getenv)
         = "Connected").
Proof.
  destruct imported as [| e | [[name [e | names]] |]];
    cbv [test_database probe_database Database.list_collection_names
         Database.name TestResponse.collections TestResponse.database
         TestResponse.connection_status TestResponse.set_database
         TestResponse.set_database_url TestResponse.set_database_name
         TestResponse.set_connection_status TestResponse.set_collections
         TestResponse.backend TestResponse.database_url
         TestResponse.database_name];
    (split; [try apply firstn_le_length; simpl; lia|]);
    (split; [intros db names' H1 H2; try discriminate H1;
             injection H1 as <-; try discriminate H2;
             injection H2 as <-; reflexivity|]);
    (split; [intro H; try reflexivity;
             exfalso; apply (H _ names eq_refl); reflexivity|]);
    intro H; try (now contradiction H); split; reflexivity.
Qed.

Lemma test_database_collections_witness :
  TestResponse.collections
    (test_database
       (Imported (Some (Database.mk
                          (Some "shop")
                          (inr ["a"; "b"; "c"; "d"; "e"; "f"; "g"; "h"; "i";
                                "j"; "k"; "l"]))))
       (fun _ => None))
  = ["a"; "b"; "c"; "d"; "e"; "f"; "g"; "h"; "i"; "j"].
Proof.
  apply (proj1 (proj2 (test_database_collections
                         (Imported (Some (Database.mk
                            (Some "shop")
                            (inr ["a"; "b"; "c"; "d"; "e"; "f"; "g"; "h"; "i";
                                  "j"; "k"; "l"]))))
                         (fun _ => None)))
               (Database.mk (Some "shop")
                            (inr ["a"; "b"; "c"; "d"; "e"; "f"; "g"; "h"; "i";
                                  "j"; "k"; "l"]))
               ["a"; "b"; "c"; "d"; "e"; "f"; "g"; "h"; "i"; "j"; "k"; "l"]);
    reflexivity.
Defined.

(** X14: the backend is always reported as running; the connection
    status is Connected exactly when the import binds a database that is
    not [None], and Not Connected otherwise; the database is reported as
    connected and working exactly when, besides, the listing of its
    collections succeeds; and the initial status Not Available never
    shows in a response. *)
Theorem test_database_status
        (imported : import_outcome) (getenv : string -> option string) :
  TestResponse.backend (test_database imported getenv) = "✅ Running"
  /\ (TestResponse.connection_status (test_database imported getenv)
      = "Connected"
      <-> exists db : Database.t, imported = Imported (Some db))
  /\ (TestResponse.connection_status (test_database imported getenv)
      <> "Connected" ->
      TestResponse.connection_status (test_database imported getenv)
      = "Not Connected")
  /\ (TestResponse.database (test_database imported getenv)
      = "✅ Connected & Working"
      <-> exists (db : Database.t) (names : list string),
          imported = Imported (Some db)
          /\ Database.list_collection_names db = inr names)
  /\ TestResponse.database (test_database imported getenv)
     <> "❌ Not Available".
Proof.
  destruct imported as [| e | [[name [e | names]] |]];
    cbv [test_database probe_database Database.list_collection_names
         Database.name TestResponse.collections TestResponse.database
         TestResponse.connection_status TestResponse.set_database
         TestResponse.set_database_url TestResponse.set_database_name
         TestResponse.set_connection_status TestResponse.set_collections
         TestResponse.backend TestResponse.database_url
         TestResponse.database_name];
    (split; [reflexivity|]);
    (split;
     [split;
      [intro H; try discriminate H; eexists; reflexivity
      |intros [db H]; try discriminate H; reflexivity]|]);
    (split; [intro H; try reflexivity; now contradiction H|]);
    (split;
     [split;
      [intro H; try discriminate H; do 2 eexists; split; reflexivity
      |intros (db & names' & H1 & H2); try discriminate H1;
       injection H1 as <-; try discriminate H2; reflexivity]|]);
    intro H; discriminate H.
Qed.

Lemma test_database_status_witness :
  TestResponse.connection_status
    (test_database (Imported None) (fun _ => None)) = "Not Connected".
Proof.
  apply (proj1 (proj2 (proj2 (test_database_status (Imported None)
                                                   (fun _ => None))))).
  vm_compute. discriminate.
Defined.

(** X15: an exception shows in the database status by the first 50
    characters of its message at most, the whole message when it is that
    short, so the status is never longer than 75 characters. *)
Theorem test_database_error_text
        (imported : import_outcome) (getenv : string -> option string) :
  len (TestResponse.database (test_database imported getenv)) <= 75
  /\ (forall (db : Database.t) (e : string),
         imported = Imported (Some db) ->
         Database.list_collection_names db = inl e ->
         exists shown rest : string,
           TestResponse.database (test_database imported getenv)
           = "⚠️  Connected but Error: " ++ shown
           /\ e = shown ++ rest
           /\ len shown <= 50
           /\ (len e <= 50 -> shown = e))
  /\ (forall e : string,
         imported = ImportException e ->
         exists shown rest : string,
           TestResponse.database (test_database imported getenv)
           = "❌ Error: " ++ shown
           /\ e = shown ++ rest
           /\ len shown <= 50
           /\ (len e <= 50 -> shown = e)).
Proof.
  assert (G : forall e : string,
             exists rest : string,
               e = slice_to 50 e ++ rest
               /\ len (slice_to 50 e) <= 50
               /\ (len e <= 50 -> slice_to 50 e = e)).
  { intro e. destruct (slice_to_front 50 e) as [rest E]. exists rest.
    split; [exact E|]. split; [apply len_slice_to | apply slice_to_short]. }
  split; [|split].
  - destruct imported as [| e | [[name [e | names]] |]];
      cbv [test_database probe_database Database.list_collection_names
           Database.name TestResponse.database TestResponse.set_database
           TestResponse.set_database_url TestResponse.set_database_name
           TestResponse.set_connection_status TestResponse.set_collections
           TestResponse.backend TestResponse.database_url
           TestResponse.database_name TestResponse.connection_status
           TestResponse.collections];
      try (vm_compute; lia);
      rewrite len_append; pose proof (len_slice_to 50 e) as B;
      match goal with
      | |- len ?prefix + _ <= _ =>
          let n := eval vm_compute in (len prefix) in
          change (len prefix) with n
      end; lia.
  - intros db e -> He. destruct db as [name listing]. simpl in He. subst listing.
    destruct (G e) as (rest & E & B & S).
    exists (slice_to 50 e), rest. repeat split; assumption.
  - intros e ->. destruct (G e) as (rest & E & B & S).
    exists (slice_to 50 e), rest. repeat split; assumption.
Qed.

Lemma test_database_error_text_witness :
  TestResponse.database
    (test_database (ImportException "boom") (fun _ => None))
  = "❌ Error: boom".
Proof.
  destruct (proj2 (proj2 (test_database_error_text
                            (ImportException "boom") (fun _ => None)))
                  "boom" eq_refl) as (shown & rest & E & _ & _ & S).
  rewrite E, S; [reflexivity | vm_compute; lia].
Defined.
